(** * poriscope, wavelet cdll: utils.c and wavelet_filter.c

    A shallow embedding of the C helpers of the wavelet/CUSUM shared library
    (src/poriscope/cdlls/wavelet/src/utils.c, wavelet_filter.c and
    src/cdlls/wavelet/lib/utils.h) together with the properties of the
    specification that concern them.

    Conventions of the embedding.
    - A pointer to a heap node is [option nat]: [None] is NULL, [Some a] is
      the address [a], the position of the node in the store [cells].
    - The global [errorcode], the behaviour of the C library's [calloc] and
      [fopen64], and the store are threaded through a state-and-fault monad
      [M]; dereferencing NULL or dividing by zero ends a run in [Fault].
    - [int64_t] values are integers of [Z]; signed overflow is undefined in C
      and no run considered here reaches it.  The one unsigned narrowing of
      the source ([uint16_t sample_size_bytes]) is written out with [mod].
    - [double] values are real numbers of [R]: rounding is not modelled,
      except where a result depends on it.  The literal [1.0/3.0] of
      [initialize_baseline] is kept as its binary64 value; in the bin centers
      of [initialize_baseline] and in [progressbar] every operation on
      doubles is followed by [round], the rounding to the nearest double,
      which is a parameter. *)

From Stdlib Require Import ZArith Reals Lra Lia.
From stdpp Require Import base list strings.

Open Scope Z_scope.

(** ** Constants of utils.h *)

Definition HEAD : Z := -1000.

Definition CHIMERA : Z := 0.
Definition BINARY : Z := 1.

Definition ERR_BITS : Z := 1.
Definition ERR_MEM : Z := 2.
Definition ERR_FILE : Z := 3.
Definition ERR_DATA : Z := 4.
Definition ERR_STRING : Z := 5.

(** ** The process state *)

Definition ptr := option nat.

(** What [fopen64] finds under a name: the size of the file in bytes and, for
    a settings file, the lines as [fgets] and the two calls of [strtok]
    deliver them.  [line_name] is the token before [=] and [line_value] the
    token after it; either is [None] when [strtok] returns NULL (a line of
    [=] signs only has no name, a line that ends after the name or after the
    [=] has no value).  A value token is kept as what [strtod] and [strtol]
    read from it. *)
Record setting_value := SettingValue {
  value_strtod : R;
  value_strtol : Z
}.

Record setting_line := SettingLine {
  line_name : option string;
  line_value : option setting_value
}.

Record file_image := FileImage {
  file_bytes : Z;
  file_lines : list setting_line
}.

(** [calloc_plan] lists the outcomes of the coming calls of [calloc]
    ([true]: a block is returned); once the plan is used up memory is
    available.  [cells] is the store of the nodes of type [N]; [streams]
    lists the names of the files currently open. *)
Record world (N : Type) := World {
  errorcode : Z;
  calloc_plan : list bool;
  cells : list N;
  files : string -> option file_image;
  streams : list string
}.
Arguments World {N}.
Arguments errorcode {N}.
Arguments calloc_plan {N}.
Arguments cells {N}.
Arguments files {N}.
Arguments streams {N}.

Definition set_errorcode {N} (e : Z) (w : world N) : world N :=
  World e (calloc_plan w) (cells w) (files w) (streams w).
Definition set_calloc_plan {N} (p : list bool) (w : world N) : world N :=
  World (errorcode w) p (cells w) (files w) (streams w).
Definition set_cells {N} (c : list N) (w : world N) : world N :=
  World (errorcode w) (calloc_plan w) c (files w) (streams w).
Definition set_streams {N} (s : list string) (w : world N) : world N :=
  World (errorcode w) (calloc_plan w) (cells w) (files w) s.

Inductive fault := NullDereference | WildPointer | DivisionByZero.

Inductive outcome (N A : Type) :=
| Done (a : A) (w : world N)
| Fault (f : fault).
Arguments Done {N A}.
Arguments Fault {N A}.

Definition M (N A : Type) := world N -> outcome N A.

Definition ret {N A} (a : A) : M N A := fun w => Done a w.
Definition bind {N A B} (m : M N A) (k : A -> M N B) : M N B :=
  fun w => match m w with
           | Done a w' => k a w'
           | Fault f => Fault f
           end.
Definition crash {N A} (f : fault) : M N A := fun _ => Fault f.

Declare Scope c_scope.
Delimit Scope c_scope with C.
Notation "x <- m ;; k" := (bind m (fun x => k))
  (at level 100, m at next level, right associativity) : c_scope.
Notation "m ;;; k" := (bind m (fun _ => k))
  (at level 100, right associativity) : c_scope.
Open Scope c_scope.

Definition get_errorcode {N} : M N Z := fun w => Done (errorcode w) w.

(** [fatal]: prints and records the error. *)
Definition fatal {N} (error : Z) : M N unit :=
  fun w => Done tt (set_errorcode error w).

(** ** The checked allocation and file-open layer *)

Record block := Block { block_count : Z; block_size : Z }.

(** The C library's [calloc]: the arguments arrive as [size_t], so a negative
    [int64_t] or a product beyond the address space gets no block; otherwise
    the environment decides. *)
Definition calloc {N} (num size : Z) : M N (option block) :=
  fun w =>
    let granted := hd true (calloc_plan w) in
    let w' := set_calloc_plan (tl (calloc_plan w)) w in
    if (0 <=? num) && (0 <=? size) && (num * size <? 2 ^ 64) && granted
    then Done (Some (Block num size)) w'
    else Done None w'.

Definition calloc_and_check {N} (num size : Z) : M N (option block) :=
  block <- calloc num size ;;
  match block with
  | None => fatal ERR_MEM ;;; ret None
  | Some b => ret (Some b)
  end.

(** A block for one struct, zero-filled, enters the store at a fresh address. *)
Definition place {N} (zero : N) : M N ptr :=
  fun w => Done (Some (length (cells w))) (set_cells (cells w ++ [zero]) w).

Definition calloc_node {N} (size : Z) (zero : N) : M N ptr :=
  block <- calloc_and_check 1 size ;;
  match block with
  | None => ret None
  | Some _ => place zero
  end.

Definition fopen64 {N} (fname : string) : M N (option string) :=
  fun w => match files w fname with
           | Some _ => Done (Some fname) (set_streams (fname :: streams w) w)
           | None => Done None w
           end.

Definition fopen64_and_check {N} (fname : string) : M N (option string) :=
  buffer <- fopen64 fname ;;
  match buffer with
  | None => fatal ERR_FILE ;;; ret None
  | Some h => ret (Some h)
  end.

Fixpoint remove_stream (h : string) (l : list string) : list string :=
  match l with
  | [] => []
  | x :: l' => if String.eqb x h then l' else x :: remove_stream h l'
  end.

Definition fclose {N} (h : string) : M N unit :=
  fun w => Done tt (set_streams (remove_stream h (streams w)) w).

(** Reading and writing through a pointer. *)
Definition load {N A} (p : ptr) (field : N -> A) : M N A :=
  fun w => match p with
           | None => Fault NullDereference
           | Some a => match cells w !! a with
                       | Some n => Done (field n) w
                       | None => Fault WildPointer
                       end
           end.

Definition store {N} (p : ptr) (upd : N -> N) : M N unit :=
  fun w => match p with
           | None => Fault NullDereference
           | Some a => match cells w !! a with
                       | Some n => Done tt (set_cells (<[a := upd n]> (cells w)) w)
                       | None => Fault WildPointer
                       end
           end.

(** ** Edges (utils.c, lines 216-225 and 305-346) *)

Record edge := Edge {
  edge_location : Z;
  edge_type : Z;
  edge_local_stdev : R;
  edge_local_baseline : R;
  edge_next : ptr
}.

Definition zero_edge : edge := Edge 0 0 0%R 0%R None.
Definition sizeof_edge : Z := 40.

Definition initialize_edges : M edge ptr :=
  head <- calloc_node sizeof_edge zero_edge ;;
  e <- get_errorcode ;;
  if negb (e =? 0) then ret None
  else
    store head (fun n => Edge 0 HEAD (edge_local_stdev n) (edge_local_baseline n) None) ;;;
    ret head.

Definition add_edge (current : ptr) (location type : Z) (stdev baseline : R)
  : M edge ptr :=
  t <- load current edge_type ;;
  if t =? HEAD then
    store current (fun n => Edge location type stdev baseline (edge_next n)) ;;;
    ret current
  else
    fresh <- calloc_node sizeof_edge zero_edge ;;
    store current (fun n => Edge (edge_location n) (edge_type n) (edge_local_stdev n)
                                 (edge_local_baseline n) fresh) ;;;
    e <- get_errorcode ;;
    if negb (e =? 0) then ret None
    else
      store fresh (fun _ => Edge location type stdev baseline None) ;;;
      ret fresh.

(** The [while] loop of [count_edges]; [fuel] bounds the number of nodes
    visited, and [None] is an exhausted bound or a pointer outside the store. *)
Fixpoint count_edges (fuel : nat) (h : list edge) (current_edge : ptr) (count : Z)
  : option Z :=
  match current_edge with
  | None => Some count
  | Some a =>
      match fuel with
      | O => None
      | S fuel' =>
          match h !! a with
          | Some e => count_edges fuel' h (edge_next e) (count + 1)
          | None => None
          end
      end
  end.

(** The arguments of one call of [add_edge], and a run of appends in which
    each call receives the node the previous one returned. *)
Record edge_args := EdgeArgs {
  arg_location : Z; arg_type : Z; arg_stdev : R; arg_baseline : R
}.

Fixpoint add_edges (es : list edge_args) (current : ptr) : M edge ptr :=
  match es with
  | [] => ret current
  | a :: es' =>
      current' <- add_edge current (arg_location a) (arg_type a) (arg_stdev a)
                    (arg_baseline a) ;;
      match current' with
      | None => ret None
      | Some _ => add_edges es' current'
      end
  end.

Definition fresh_world {N} : world N := World 0 [] [] (fun _ => None) [].

(** ** Levels (utils.c, lines 675-704) *)

Record cusumlevel := Cusumlevel {
  level_current : R;
  level_stdev : R;
  level_maxdeviation : R;
  level_maxdevindex : Z;
  level_raw_level_ecd : R;
  level_fitted_level_ecd : R;
  level_length : Z;
  level_next : ptr
}.

Definition zero_level : cusumlevel := Cusumlevel 0%R 0%R 0%R 0 0%R 0%R 0 None.
Definition sizeof_cusumlevel : Z := 64.

(** The three assignments [p->current = c; p->length = l; p->next = nx]. *)
Definition write_level (c : R) (l : Z) (nx : ptr) (n : cusumlevel) : cusumlevel :=
  Cusumlevel c (level_stdev n) (level_maxdeviation n) (level_maxdevindex n)
             (level_raw_level_ecd n) (level_fitted_level_ecd n) l nx.

Definition link_level (nx : ptr) (n : cusumlevel) : cusumlevel :=
  write_level (level_current n) (level_length n) nx n.

(** No test of [errorcode] here: the result of the allocation is written
    through at once. *)
Definition initialize_levels : M cusumlevel ptr :=
  head <- calloc_node sizeof_cusumlevel zero_level ;;
  store head (write_level 0%R 0 None) ;;;
  ret head.

Definition add_cusum_level (lastlevel : ptr) (current : R) (length : Z)
  : M cusumlevel ptr :=
  filled <- match lastlevel with
            | None => ret false
            | Some _ => l <- load lastlevel level_length ;; ret (0 <? l)
            end ;;
  if filled then
    fresh <- calloc_node sizeof_cusumlevel zero_level ;;
    store lastlevel (link_level fresh) ;;;
    store fresh (write_level current length None) ;;;
    ret fresh
  else
    store lastlevel (write_level current length None) ;;;
    ret lastlevel.

(** The nodes reachable from [p], counted as the list walks of the library
    do ([free_levels] visits exactly these). *)
Fixpoint count_levels (fuel : nat) (h : list cusumlevel) (p : ptr) (count : Z)
  : option Z :=
  match p with
  | None => Some count
  | Some a =>
      match fuel with
      | O => None
      | S fuel' =>
          match h !! a with
          | Some n => count_levels fuel' h (level_next n) (count + 1)
          | None => None
          end
      end
  end.

(** ** Input files (utils.c, lines 251-262 and 431-584) *)

Record binary_decoder := BinaryDecoder {
  bin_header_bytes : Z;
  bin_samplingfreq : R;
  bin_n_arrays : Z;
  bin_array_index : Z;
  bin_data_size : Z;
  bin_data_type : Z;
  bin_data_order : Z;
  bin_bitmask : Z;
  bin_scale : R;
  bin_offset : R
}.

Record chimera := Chimera {
  daq_samplerate : R;
  daq_TIAgain : R;
  daq_preADCgain : R;
  daq_currentoffset : R;
  daq_ADCvref : R;
  daq_ADCbits : Z
}.

Definition zero_chimera : chimera := Chimera 0%R 0%R 0%R 0%R 0%R 0.

(** [daqsetup] points to a block owned by the node alone, so the block is
    kept inside the node; [None] is the NULL pointer. *)
Record input_file := InputFile {
  file_data_file : option string;
  file_datafilename : string;
  file_timestamp : R;
  file_length : Z;
  file_offset : Z;
  file_daqsetup : option chimera;
  file_next : ptr
}.

Definition zero_input_file : input_file :=
  InputFile None EmptyString 0%R 0 0 None None.
Definition sizeof_input_file : Z := 1080.
Definition sizeof_chimera : Z := 48.

Definition set_data_file (h : option string) (n : input_file) : input_file :=
  InputFile h (file_datafilename n) (file_timestamp n) (file_length n)
            (file_offset n) (file_daqsetup n) (file_next n).
Definition set_datafilename (s : string) (n : input_file) : input_file :=
  InputFile (file_data_file n) s (file_timestamp n) (file_length n)
            (file_offset n) (file_daqsetup n) (file_next n).
Definition set_timestamp (t : R) (n : input_file) : input_file :=
  InputFile (file_data_file n) (file_datafilename n) t (file_length n)
            (file_offset n) (file_daqsetup n) (file_next n).
Definition set_length (l : Z) (n : input_file) : input_file :=
  InputFile (file_data_file n) (file_datafilename n) (file_timestamp n) l
            (file_offset n) (file_daqsetup n) (file_next n).
Definition set_offset (o : Z) (n : input_file) : input_file :=
  InputFile (file_data_file n) (file_datafilename n) (file_timestamp n)
            (file_length n) o (file_daqsetup n) (file_next n).
Definition set_daqsetup (d : option chimera) (n : input_file) : input_file :=
  InputFile (file_data_file n) (file_datafilename n) (file_timestamp n)
            (file_length n) (file_offset n) d (file_next n).
Definition set_next (p : ptr) (n : input_file) : input_file :=
  InputFile (file_data_file n) (file_datafilename n) (file_timestamp n)
            (file_length n) (file_offset n) (file_daqsetup n) p.

(** [free] hands the block back to the allocator.  The store keeps the cell:
    a later access through the dangling pointer is not told apart. *)
Definition free {N} (p : ptr) : M N unit := ret tt.

Definition get_filesize_loop :=
  fix loop (fuel : nat) (h : list input_file) (current : ptr) (length : Z)
    : option Z :=
    match current with
    | None => Some length
    | Some a =>
        match fuel with
        | O => None
        | S fuel' =>
            match h !! a with
            | Some n => loop fuel' h (file_next n) (length + file_length n)
            | None => None
            end
        end
    end.

Definition get_filesize (fuel : nat) (h : list input_file) (input : ptr) : option Z :=
  get_filesize_loop fuel h input 0.

(** A store through [p->daqsetup]. *)
Definition store_daq (p : ptr) (upd : chimera -> chimera) : M input_file unit :=
  d <- load p file_daqsetup ;;
  match d with
  | None => crash NullDereference
  | Some c => store p (set_daqsetup (Some (upd c)))
  end.

Definition when {N} (b : bool) (m : M N unit) : M N unit :=
  if b then m else ret tt.

(** [strtod(value, NULL)] and [strtol(value, NULL, 10)]: the token is read
    through the pointer, which [strtok] may have left NULL. *)
Definition strtod {N} (value : option setting_value) : M N R :=
  match value with
  | None => crash NullDereference
  | Some v => ret (value_strtod v)
  end.

Definition strtol {N} (value : option setting_value) : M N Z :=
  match value with
  | None => crash NullDereference
  | Some v => ret (value_strtol v)
  end.

(** The body of the [fgets] loop of [add_input_file] for one line.  [strcmp]
    reads [name] through the pointer: without a name token the first
    comparison dereferences NULL.  The value is read only in the branch of a
    key that matches. *)
Definition read_setting (insert : ptr) (l : setting_line) : M input_file unit :=
  match line_name l with
  | None => crash NullDereference
  | Some name =>
      when (String.eqb name "SETUP_TIAgain")
        (value <- strtod (line_value l) ;;
         store_daq insert (fun c => Chimera (daq_samplerate c) value (daq_preADCgain c)
                             (daq_currentoffset c) (daq_ADCvref c) (daq_ADCbits c))) ;;;
      when (String.eqb name "ADCSAMPLERATE")
        (value <- strtod (line_value l) ;;
         store_daq insert (fun c => Chimera value (daq_TIAgain c) (daq_preADCgain c)
                             (daq_currentoffset c) (daq_ADCvref c) (daq_ADCbits c))) ;;;
      when (String.eqb name "SETUP_preADCgain")
        (value <- strtod (line_value l) ;;
         store_daq insert (fun c => Chimera (daq_samplerate c) (daq_TIAgain c) value
                             (daq_currentoffset c) (daq_ADCvref c) (daq_ADCbits c))) ;;;
      when (String.eqb name "SETUP_pAoffset")
        (value <- strtod (line_value l) ;;
         store_daq insert (fun c => Chimera (daq_samplerate c) (daq_TIAgain c)
                             (daq_preADCgain c) value (daq_ADCvref c) (daq_ADCbits c))) ;;;
      when (String.eqb name "SETUP_ADCVREF")
        (value <- strtod (line_value l) ;;
         store_daq insert (fun c => Chimera (daq_samplerate c) (daq_TIAgain c)
                             (daq_preADCgain c) (daq_currentoffset c) value
                             (daq_ADCbits c))) ;;;
      if String.eqb name "mytimestamp" then
        value <- strtod (line_value l) ;;
        store insert (set_timestamp value)
      else
        when (String.eqb name "SETUP_ADCBITS")
          (bits <- strtol (line_value l) ;;
           store_daq insert (fun c => Chimera (daq_samplerate c) (daq_TIAgain c)
                               (daq_preADCgain c) (daq_currentoffset c)
                               (daq_ADCvref c) bits))
  end.

Fixpoint read_settings (insert : ptr) (ls : list setting_line) : M input_file unit :=
  match ls with
  | [] => ret tt
  | l :: ls' => read_setting insert l ;;; read_settings insert ls'
  end.

Definition lines_of (fname : string) : M input_file (list setting_line) :=
  fun w => Done (match files w fname with
                 | Some img => file_lines img
                 | None => []
                 end) w.

(** [fseeko64] to the end followed by [ftello64]. *)
Definition ftello64_at_end (fname : string) : M input_file Z :=
  fun w => Done (match files w fname with
                 | Some img => file_bytes img
                 | None => 0
                 end) w.

Definition initialize_input_files (datatype : Z) : M input_file ptr :=
  head <- calloc_node sizeof_input_file zero_input_file ;;
  e <- get_errorcode ;;
  if negb (e =? 0) then ret None
  else
    if datatype =? CHIMERA then
      daq <- calloc_and_check 1 sizeof_chimera ;;
      store head (set_daqsetup (match daq with
                                | Some _ => Some zero_chimera
                                | None => None
                                end)) ;;;
      e <- get_errorcode ;;
      if negb (e =? 0) then free head ;;; ret None
      else
        store head (set_timestamp 0%R) ;;;
        store head (set_next None) ;;;
        ret head
    else
      store head (set_daqsetup None) ;;;
      store head (set_timestamp 0%R) ;;;
      store head (set_next None) ;;;
      ret head.

(** The [uint16_t] that receives [data_size * n_arrays]. *)
Definition to_uint16 (z : Z) : Z := z mod 2 ^ 16.

(** [strncpy(dest, src, n)] into an array of [n + 1] bytes whose last byte is
    zero (the node comes from [calloc], and nothing else writes the array):
    the string that [dest] holds afterwards is made of the first [n]
    characters of [src]. *)
Definition STRLENGTH : nat := 1024.

Definition strncpy (src : string) (n : nat) : string :=
  String.substring 0 n src.
Arguments strncpy : simpl never.

Definition Rgtb (a b : R) : bool := if Rgt_dec a b then true else false.

(** [add_input_file], lines 462-492: the node to fill.  The result is
    [insert] with [headflag], or nothing when the function has returned NULL. *)
Definition add_input_file_insert (current : ptr) (datatype : Z)
  : M input_file (option (ptr * bool)) :=
  fresh_needed <- match current with
                  | None => ret false
                  | Some _ => t <- load current file_timestamp ;; ret (Rgtb t 0)
                  end ;;
  if fresh_needed then
    insert <- calloc_node sizeof_input_file zero_input_file ;;
    store insert (set_daqsetup None) ;;;
    e <- get_errorcode ;;
    if negb (e =? 0) then ret None
    else
      if datatype =? CHIMERA then
        daq <- calloc_and_check 1 sizeof_chimera ;;
        store insert (set_daqsetup (match daq with
                                    | Some _ => Some zero_chimera
                                    | None => None
                                    end)) ;;;
        e <- get_errorcode ;;
        if negb (e =? 0) then free insert ;;; ret None
        else store insert (set_next None) ;;; ret (Some (insert, false))
      else
        store insert (set_daqsetup None) ;;;
        store insert (set_next None) ;;;
        ret (Some (insert, false))
  else ret (Some (current, true)).

(** [add_input_file], lines 544-559: the sample size (a [uint16_t]) and the
    header size for the format. *)
Definition sample_and_header_bytes (datatype : Z) (bincfg : option binary_decoder)
  : M input_file (Z * Z) :=
  if datatype =? CHIMERA then ret (2, 0)
  else if datatype =? BINARY then
    match bincfg with
    | None => crash NullDereference
    | Some cfg =>
        ret (to_uint16 (bin_data_size cfg * bin_n_arrays cfg), bin_header_bytes cfg)
    end
  else fatal ERR_DATA ;;; ret (0, 0).

(** [add_input_file], lines 494-542: the settings file of the instrument
    format.  The result is [false] when the function has returned NULL. *)
Definition add_input_file_settings (insert : ptr) (settingsname : string)
  (datatype : Z) : M input_file bool :=
  if datatype =? CHIMERA then
    settings <- fopen64_and_check settingsname ;;
    e <- get_errorcode ;;
    if negb (e =? 0) then free insert ;;; ret false
    else
      ls <- lines_of settingsname ;;
      read_settings insert ls ;;;
      match settings with
      | Some h => fclose h
      | None => crash NullDereference
      end ;;;
      ret true
  else ret true.

(** [add_input_file], lines 544-583: the length, the timestamp and the link. *)
Definition add_input_file_probe (current insert : ptr) (headflag : bool)
  (filename : string) (datatype : Z) (bincfg : option binary_decoder)
  : M input_file ptr :=
  sizes <- sample_and_header_bytes datatype bincfg ;;
  let '(sample_size_bytes, header_bytes) := sizes in
  store insert (set_datafilename (strncpy filename (STRLENGTH - 1))) ;;;
  data_file <- fopen64_and_check filename ;;
  store insert (set_data_file data_file) ;;;
  e <- get_errorcode ;;
  if negb (e =? 0) then free insert ;;; ret None
  else
    match data_file with
    | None => crash NullDereference
    | Some h =>
        size <- ftello64_at_end h ;;
        (if sample_size_bytes =? 0 then crash DivisionByZero
         else store insert
                (set_length (Z.quot (size - header_bytes) sample_size_bytes))) ;;;
        fclose h ;;;
        store insert (set_data_file None) ;;;
        when (negb (datatype =? CHIMERA))
          (t <- load current file_timestamp ;;
           store insert (set_timestamp (t + 1)%R)) ;;;
        when (negb headflag) (store current (set_next insert)) ;;;
        ret insert
    end.

(** [add_input_file], lines 493-583. *)
Definition add_input_file_fill (current insert : ptr) (headflag : bool)
  (filename settingsname : string) (datatype : Z) (bincfg : option binary_decoder)
  : M input_file ptr :=
  store insert (set_offset 0) ;;;
  parsed <- add_input_file_settings insert settingsname datatype ;;
  if negb parsed then ret None
  else add_input_file_probe current insert headflag filename datatype bincfg.

Definition add_input_file (current : ptr) (filename settingsname : string)
  (datatype : Z) (bincfg : option binary_decoder) : M input_file ptr :=
  allocated <- add_input_file_insert current datatype ;;
  match allocated with
  | None => ret None
  | Some (insert, headflag) =>
      add_input_file_fill current insert headflag filename settingsname datatype
        bincfg
  end.

(** A run of registrations, each made at the node the previous one returned;
    a registration is a data file name with its settings file name. *)
Fixpoint add_input_files (rs : list (string * string)) (current : ptr)
  (datatype : Z) (bincfg : option binary_decoder) : M input_file ptr :=
  match rs with
  | [] => ret current
  | r :: rs' =>
      current' <- add_input_file current r.1 r.2 datatype bincfg ;;
      match current' with
      | None => ret None
      | Some _ => add_input_files rs' current' datatype bincfg
      end
  end.

(** The nodes met by a walk along [next], in the order of the walk. *)
Fixpoint registered_files (fuel : nat) (h : list input_file) (current : ptr)
  : option (list input_file) :=
  match current with
  | None => Some []
  | Some a =>
      match fuel with
      | O => None
      | S fuel' =>
          match h !! a with
          | Some n =>
              match registered_files fuel' h (file_next n) with
              | Some l => Some (n :: l)
              | None => None
              end
          | None => None
          end
      end
  end.

(** The number of samples of a file of the generic format, from its size. *)
Definition samples_of (disk : string -> option file_image) (cfg : binary_decoder)
  (filename : string) : Z :=
  match disk filename with
  | Some img =>
      Z.quot (file_bytes img - bin_header_bytes cfg)
             (to_uint16 (bin_data_size cfg * bin_n_arrays cfg))
  | None => 0
  end.

Definition sum_lengths (l : list input_file) : Z :=
  foldr (fun n acc => file_length n + acc) 0 l.

(** ** Arithmetic on [double] and the conversions of C *)

Definition my_min (a b : R) : R := if Rlt_dec a b then a else b.
Definition my_max (a b : R) : R := if Rgt_dec a b then a else b.

(** The conversion of a [double] to an integer type drops the fraction
    (rounds toward zero).  [Int_part] is the floor. *)
Definition double_to_int (x : R) : Z :=
  if Rle_dec 0 x then Int_part x else - Int_part (- x).

(** ** The padded signal (utils.c, lines 9-47) *)

(** The fields of [struct Configuration] read by the functions below. *)
Record configuration := Configuration {
  cfg_readlength : Z;
  cfg_data_order : Z;
  cfg_event_order : Z;
  cfg_baseline_min : R;
  cfg_baseline_max : R;
  cfg_datatype : Z
}.

(** [paddedsignal] is the zero-filled array of doubles; [signal], a pointer
    into it, is kept as the position of [signal[0]] in [paddedsignal]. *)
Record signal_struct := SignalStruct {
  sig_paddedsignal : list R;
  sig_signal : Z;
  sig_rawsignal : option block
}.

Definition sizeof_signal_struct : Z := 24.
Definition sizeof_double : Z := 8.
Definition sizeof_uint16_t : Z := 2.

Definition zeros (b : block) : list R := replicate (Z.to_nat (block_count b)) 0%R.

(** [sig->signal[i]]: defined when the element lies inside [paddedsignal]. *)
Definition signal_at (sig : signal_struct) (i : Z) : option R :=
  if 0 <=? sig_signal sig + i
  then sig_paddedsignal sig !! Z.to_nat (sig_signal sig + i)
  else None.

(** The struct and its two arrays are returned as a value; on the failure
    paths the source frees what it had allocated and returns NULL. *)
Definition initialize_signal {N} (config : configuration) (filterpadding : Z)
  (bincfg : option binary_decoder) : M N (option signal_struct) :=
  sig <- calloc_and_check 1 sizeof_signal_struct ;;
  e <- get_errorcode ;;
  if negb (e =? 0) then ret None
  else
    padded <- calloc_and_check
                (double_to_int
                   (IZR (cfg_readlength config)
                    + 2 * (my_max (IZR (cfg_data_order config))
                                  (IZR (cfg_event_order config))
                           + IZR filterpadding))%R)
                sizeof_double ;;
    match sig with
    | None => crash NullDereference
    | Some _ =>
        e <- get_errorcode ;;
        if negb (e =? 0) then ret None
        else
          match padded with
          | None => crash NullDereference
          | Some pb =>
              let signal := cfg_data_order config + filterpadding in
              raw <-
                (if cfg_datatype config =? CHIMERA then
                   calloc_and_check (cfg_readlength config) sizeof_uint16_t
                 else if cfg_datatype config =? BINARY then
                   match bincfg with
                   | None => crash NullDereference
                   | Some cfg =>
                       calloc_and_check (cfg_readlength config)
                         (bin_n_arrays cfg * bin_data_size cfg)
                   end
                 else fatal ERR_DATA ;;; ret None) ;;
              e <- get_errorcode ;;
              if negb (e =? 0) then ret None
              else ret (Some (SignalStruct (zeros pb) signal raw))
          end
    end.

(** ** The average run length (utils.c, lines 707-710) *)

Definition ARL (length : Z) (sigma mun h : R) : R :=
  ((exp (-2 * mun * (h / sigma + 1.166)) - 1 + 2 * mun * (h / sigma + 1.166))
   / (2 * mun * mun) - IZR length)%R.

(** The formula of the specification. *)
Definition ARL_spec (length : Z) (sigma mun h : R) : R :=
  ((exp (-2 * mun * (h / sigma + 1.166)) - 1 + 2 * mun * (h / sigma + 1.166))
   / (2 * mun ^ 2) - IZR length)%R.

(** ** The baseline histogram (utils.c, lines 712-750) *)

Record baseline_struct := BaselineStruct {
  base_histogram : list R;
  base_current : list R;
  base_numbins : Z;
  base_baseline_min : R;
  base_baseline_max : R;
  base_range : R;
  base_delta : R;
  base_mean : R;
  base_stdev : R;
  base_amplitude : R
}.

Definition sizeof_baseline_struct : Z := 80.

(** The binary64 number that the constant expression [1.0/3.0] denotes:
    the 53-bit significand 6004799503160661 scaled by 2^-54, the multiple
    of 2^-54 nearest to 1/3 (2^54 = 18014398509481984). *)
Definition one_third : R := (6004799503160661 / 18014398509481984)%R.

(** The cube root of the specification, as a power of the real number 1/3. *)
Definition cube_root (x : R) : R := Rpower x (1 / 3).

Section Libm.

(** [pow] of the C mathematical library. *)
Variable pow : R -> R -> R.

(** The rounding of a real number to the nearest [double]. *)
Variable round : R -> R.

(** The product with 2 is exact in binary64. *)
Definition baseline_numbins (readlength : Z) : Z :=
  double_to_int (2 * pow (IZR readlength) one_third)%R.

Definition initialize_baseline {N} (config : configuration)
  : M N (option baseline_struct) :=
  baseline <- calloc_and_check 1 sizeof_baseline_struct ;;
  e <- get_errorcode ;;
  if negb (e =? 0) then ret None
  else
    match baseline with
    | None => crash NullDereference
    | Some _ =>
        let baseline_min := cfg_baseline_min config in
        let baseline_max := cfg_baseline_max config in
        let range := round (baseline_max - baseline_min) in
        let numbins := baseline_numbins (cfg_readlength config) in
        let delta := round (range / IZR numbins) in
        histogram <- calloc_and_check numbins sizeof_double ;;
        e <- get_errorcode ;;
        if negb (e =? 0) then ret None
        else
          current <- calloc_and_check numbins sizeof_double ;;
          e <- get_errorcode ;;
          if negb (e =? 0) then ret None
          else
            match histogram, current with
            | Some hb, Some cb =>
                let centers :=
                  foldl (fun arr i =>
                           <[i := round (baseline_min + round (INR i * delta))]> arr)
                        (zeros cb) (seq 0 (Z.to_nat numbins)) in
                ret (Some (BaselineStruct (zeros hb) centers numbins baseline_min
                             baseline_max range delta 0 0 0))
            | _, _ => crash NullDereference
            end
    end.

End Libm.

(** ** The wavelet wrapper (wavelet_filter.c, lines 29-57) *)

(** The depth handed to [wdenoise_init]. *)
Definition wavelet_levels (length filt_len : Z) : Z :=
  double_to_int (ln (IZR length / (IZR filt_len - 1)) / ln 2)%R.

(** The depth of the specification: the floor of the binary logarithm. *)
Definition floor_log2_ratio (length filt_len : Z) : Z :=
  Int_part (ln (IZR length / (IZR filt_len - 1)) / ln 2)%R.

Section Wavelib.

(** The wavelet library: the number of taps of a named wavelet, and the
    sureshrink denoiser ([wdenoise_init] with the method, extension and
    threshold settings of the wrapper, then [wdenoise]) as a function of
    the signal length, the depth, the wavelet name and the input. *)
Variable filtlength : string -> Z.
Variable wdenoise : Z -> Z -> string -> list R -> list R.

(** The result is the content of [signal] after the [memcpy]. *)
Definition filter_signal_wt (signal : list R) (length : Z) (wname : string)
  : list R :=
  let filt_len := filtlength wname in
  let levels := wavelet_levels length filt_len in
  let filtered_signal := wdenoise length levels wname signal in
  take (Z.to_nat length) filtered_signal ++ drop (Z.to_nat length) signal.

End Wavelib.

(** ** Sample states and inputs *)

(** A process whose next call of [calloc] gets no block. *)
Definition starved_world {N} : world N := World 0 [false] [] (fun _ => None) [].

(** Two edges, a rising and a falling one. *)
Definition two_edges : list edge_args :=
  [EdgeArgs 120 0 1%R 5%R; EdgeArgs 340 1 1%R 5%R].

(** A level list whose only node is the unfilled head. *)
Definition unfilled_levels : world cusumlevel :=
  World 0 [] [zero_level] (fun _ => None) [].

(** A read of ten samples with a data filter of order 2 and an event filter
    of order 4, and one with the orders exchanged, in the instrument format. *)
Definition narrow_data_filter : configuration := Configuration 10 2 4 0%R 1%R CHIMERA.
Definition wide_data_filter : configuration := Configuration 10 4 2 0%R 1%R CHIMERA.

(** A decoder for one array of 16-bit samples without header. *)
Definition plain_decoder : binary_decoder :=
  BinaryDecoder 0 0%R 1 0 2 1 0 0 1%R 0%R.

(** Two traces of 1000 and 600 bytes, and settings files without a
    [mytimestamp] line. *)
Definition two_traces (name : string) : option file_image :=
  if String.eqb name "run1.log" then Some (FileImage 1000 [])
  else if String.eqb name "run2.log" then Some (FileImage 600 [])
  else if String.eqb name "run1.settings"
       then Some (FileImage 64
                    [SettingLine (Some "SETUP_ADCBITS")
                       (Some (SettingValue 14%R 14));
                     SettingLine (Some "ADCSAMPLERATE")
                       (Some (SettingValue 4000000%R 4000000))])
  else if String.eqb name "run2.settings"
       then Some (FileImage 64
                    [SettingLine (Some "SETUP_ADCBITS")
                       (Some (SettingValue 14%R 14))])
  else None.

Definition disk_world : world input_file := World 0 [] [] two_traces [].

(** The registry after [initialize_input_files] for the generic format. *)
Definition binary_head_world : world input_file :=
  World 0 [] [zero_input_file] two_traces [].

(** The registry of the instrument format: after [initialize_input_files],
    after the registration of the first trace, and after that of the second. *)
Definition chimera_head_world : world input_file :=
  World 0 [] [InputFile None "" 0%R 0 0 (Some zero_chimera) None] two_traces [].
Definition chimera_run1_world : world input_file :=
  World 0 [] [InputFile None "run1.log" 0%R 500 0
                (Some (Chimera 4000000%R 0%R 0%R 0%R 0%R 14)) None] two_traces [].
Definition chimera_run2_world : world input_file :=
  World 0 [] [InputFile None "run2.log" 0%R 300 0
                (Some (Chimera 4000000%R 0%R 0%R 0%R 0%R 14)) None] two_traces [].

(** A decoder of 8193 arrays of 8 bytes, and a trace of 655440 bytes. *)
Definition wide_decoder : binary_decoder :=
  BinaryDecoder 0 0%R 8193 0 8 1 0 0 1%R 0%R.
Definition wide_trace (name : string) : option file_image :=
  if String.eqb name "wide.log" then Some (FileImage 655440 []) else None.
Definition wide_head_world : world input_file :=
  World 0 [] [zero_input_file] wide_trace [].

(** Both traces registered in the instrument format, each with its settings
    file. *)
Definition chimera_registrations : list (string * string) :=
  [("run1.log", "run1.settings"); ("run2.log", "run2.settings")].

(** Both traces registered in the generic format. *)
Definition two_registrations : list (string * string) :=
  [("run1.log", ""); ("run2.log", "")].
Definition binary_two_world : world input_file :=
  World 0 []
    [InputFile None "run1.log" (0 + 1)%R 500 0 None (Some 1%nat);
     InputFile None "run2.log" (0 + 1 + 1)%R 300 0 None None]
    two_traces [].

(** ** Invariants of the linked lists *)

(** [n] nodes sit at the addresses [a0], [a0+1], ..., each linked to the
    following one and the last one to NULL. *)
Definition edge_run (h : list edge) (a0 n : nat) : Prop :=
  forall i, (i < n)%nat ->
    exists e, h !! (a0 + i)%nat = Some e
              /\ edge_next e = if decide (S i < n)%nat
                               then Some (a0 + S i)%nat else None.

(** The state of a list that started at address [a0] and received [k]
    appends: [Nat.max 1 k] nodes, [tail] the last of them, tagged HEAD exactly
    while nothing has been appended. *)
Record edge_list (a0 k tail : nat) (w : world edge) : Prop := {
  el_errorcode : errorcode w = 0;
  el_length : length (cells w) = (a0 + Nat.max 1 k)%nat;
  el_tail : tail = (a0 + Nat.max 1 k - 1)%nat;
  el_run : edge_run (cells w) a0 (Nat.max 1 k);
  el_type : forall e, cells w !! tail = Some e -> (edge_type e = HEAD <-> k = 0%nat)
}.

(** The fields of a node that the settings file does not reach. *)
Definition keeps (m m' : input_file) : Prop :=
  file_next m' = file_next m
  /\ file_length m' = file_length m
  /\ file_offset m' = file_offset m
  /\ file_data_file m' = file_data_file m
  /\ file_datafilename m' = file_datafilename m.

(** The links of [n] nodes at the addresses [a0], [a0+1], ... *)
Definition file_run (h : list input_file) (a0 n : nat) : Prop :=
  forall i, (i < n)%nat ->
    exists m, h !! (a0 + i)%nat = Some m
              /\ file_next m = if decide (S i < n)%nat
                               then Some (a0 + S i)%nat else None.

(** The registry of the generic format that started at address [a0] and
    received the registrations [rs]. *)
Record file_list (a0 : nat) (disk : string -> option file_image)
  (cfg : binary_decoder) (rs : list (string * string)) (tail : nat)
  (w : world input_file) : Prop := {
  fl_errorcode : errorcode w = 0;
  fl_files : files w = disk;
  fl_length : length (cells w) = (a0 + Nat.max 1 (length rs))%nat;
  fl_tail : tail = (a0 + Nat.max 1 (length rs) - 1)%nat;
  fl_links : file_run (cells w) a0 (Nat.max 1 (length rs));
  fl_head : rs = [] ->
            exists m, cells w !! a0 = Some m /\ file_timestamp m = 0%R;
  fl_nodes : forall i r, rs !! i = Some r ->
             exists m, cells w !! (a0 + i)%nat = Some m
                       /\ file_timestamp m = IZR (Z.of_nat i + 1)
                       /\ file_datafilename m = strncpy r.1 (STRLENGTH - 1)
                       /\ file_length m = samples_of disk cfg r.1
}.

(** ** Proof steps *)

(** Unfolding of the monad and of the allocation and file layer, and the
    evaluation of the reads that follow writes to the same store. *)
Ltac unfold_layer :=
  unfold calloc_node, calloc_and_check, calloc, place, fopen64_and_check,
    fopen64, fclose, fatal, get_errorcode, load, store, free, when, crash,
    bind, ret in *.

Ltac run_stores H :=
  repeat first
    [ progress simpl in H
    | rewrite list_lookup_insert_eq in H
        by (rewrite ?length_insert, ?length_app; simpl; lia)
    | rewrite list_lookup_insert_ne in H by lia
    | rewrite String.eqb_refl in H
    | match goal with
      | Hx : _ = Some _ |- _ => rewrite Hx in H
      end ].

(** ** Scalar helpers (utils.c, lines 265-303) *)

Definition EPS : R := (1 / 10000000000)%R.

Definition signum (num : R) : Z :=
  if Rgt_dec num EPS then 1
  else if Rlt_dec num (- EPS) then -1
  else 0.

Definition d_abs (num : R) : R := if Rge_dec num 0 then num else (- num)%R.

Definition intmin (a b : Z) : Z := if a <? b then a else b.
Definition intmax (a b : Z) : Z := if a >? b then a else b.

(** ** Scans of a signal (utils.c, lines 66-96 and 121-191) *)

(** An array of doubles is the list of its elements; [signal !! i] is the read
    of [signal[i]], and [None] stands for a read outside the array.  The [for]
    loops run [Z.to_nat length] times, from index 0. *)

Fixpoint locate_min_loop (signal : list R) (steps i : nat) (minval : R)
  (location : Z) : option Z :=
  match steps with
  | O => Some location
  | S steps' =>
      match signal !! i with
      | None => None
      | Some x =>
          if Rlt_dec x minval
          then locate_min_loop signal steps' (S i) x (Z.of_nat i)
          else locate_min_loop signal steps' (S i) minval location
      end
  end.

Definition locate_min (signal : list R) (length : Z) : option Z :=
  match signal !! 0%nat with
  | None => None
  | Some minval => locate_min_loop signal (Z.to_nat length) 0 minval 0
  end.

Fixpoint locate_max_loop (signal : list R) (steps i : nat) (maxval : R)
  (location : Z) : option Z :=
  match steps with
  | O => Some location
  | S steps' =>
      match signal !! i with
      | None => None
      | Some x =>
          if Rgt_dec x maxval
          then locate_max_loop signal steps' (S i) x (Z.of_nat i)
          else locate_max_loop signal steps' (S i) maxval location
      end
  end.

Definition locate_max (signal : list R) (length : Z) : option Z :=
  match signal !! 0%nat with
  | None => None
  | Some maxval => locate_max_loop signal (Z.to_nat length) 0 maxval 0
  end.

Fixpoint signal_max_loop (signal : list R) (steps i : nat) (maximum : R)
  : option R :=
  match steps with
  | O => Some maximum
  | S steps' =>
      match signal !! i with
      | None => None
      | Some x =>
          if Rgt_dec x maximum
          then signal_max_loop signal steps' (S i) x
          else signal_max_loop signal steps' (S i) maximum
      end
  end.

Definition signal_max (signal : list R) (length : Z) : option R :=
  match signal !! 0%nat with
  | None => None
  | Some maximum => signal_max_loop signal (Z.to_nat length) 0 maximum
  end.

Fixpoint signal_min_loop (signal : list R) (steps i : nat) (minimum : R)
  : option R :=
  match steps with
  | O => Some minimum
  | S steps' =>
      match signal !! i with
      | None => None
      | Some x =>
          if Rlt_dec x minimum
          then signal_min_loop signal steps' (S i) x
          else signal_min_loop signal steps' (S i) minimum
      end
  end.

Definition signal_min (signal : list R) (length : Z) : option R :=
  match signal !! 0%nat with
  | None => None
  | Some minimum => signal_min_loop signal (Z.to_nat length) 0 minimum
  end.

(** The loop [average += signal[i]]. *)
Fixpoint signal_sum_loop (signal : list R) (steps i : nat) (average : R)
  : option R :=
  match steps with
  | O => Some average
  | S steps' =>
      match signal !! i with
      | None => None
      | Some x => signal_sum_loop signal steps' (S i) (average + x)%R
      end
  end.

Definition signal_average (signal : list R) (length : Z) : option R :=
  match signal_sum_loop signal (Z.to_nat length) 0 0%R with
  | None => None
  | Some average => Some (average / IZR length)%R
  end.

Fixpoint signal_extreme_loop (signal : list R) (sign : R) (steps i : nat)
  (tempmax : R) : option R :=
  match steps with
  | O => Some tempmax
  | S steps' =>
      match signal !! i with
      | None => None
      | Some x =>
          if Rgt_dec (x * sign) tempmax
          then signal_extreme_loop signal sign steps' (S i) (x * sign)%R
          else signal_extreme_loop signal sign steps' (S i) tempmax
      end
  end.

Definition signal_extreme (signal : list R) (length : Z) (sign : R) : option R :=
  signal_extreme_loop signal sign (Z.to_nat length) 0 0%R.

(** The loop [variance += (signal[i] - average)*(signal[i] - average)]. *)
Fixpoint signal_variance_loop (signal : list R) (average : R) (steps i : nat)
  (variance : R) : option R :=
  match steps with
  | O => Some variance
  | S steps' =>
      match signal !! i with
      | None => None
      | Some x =>
          signal_variance_loop signal average steps' (S i)
            (variance + (x - average) * (x - average))%R
      end
  end.

Definition signal_variance (signal : list R) (length : Z) : option R :=
  if length <? 2 then Some 0%R
  else
    match signal_average signal length with
    | None => None
    | Some average =>
        match signal_variance_loop signal average (Z.to_nat length) 0 0%R with
        | None => None
        | Some variance => Some (variance / IZR (length - 1))%R
        end
    end.

(** ** The inverse of a 3 x 3 matrix (utils.c, lines 99-116) *)

Record mat3 := Mat3 {
  m00 : R; m01 : R; m02 : R;
  m10 : R; m11 : R; m12 : R;
  m20 : R; m21 : R; m22 : R
}.

Definition det3 (m : mat3) : R :=
  (m00 m * (m11 m * m22 m - m21 m * m12 m)
   - m01 m * (m10 m * m22 m - m12 m * m20 m)
   + m02 m * (m10 m * m21 m - m11 m * m20 m))%R.

Definition invert_matrix (m : mat3) : mat3 :=
  let det := det3 m in
  let invdet := (1 / det)%R in
  Mat3 ((m11 m * m22 m - m21 m * m12 m) * invdet)
       ((m02 m * m21 m - m01 m * m22 m) * invdet)
       ((m01 m * m12 m - m02 m * m11 m) * invdet)
       ((m12 m * m20 m - m10 m * m22 m) * invdet)
       ((m00 m * m22 m - m02 m * m20 m) * invdet)
       ((m10 m * m02 m - m00 m * m12 m) * invdet)
       ((m10 m * m21 m - m20 m * m11 m) * invdet)
       ((m20 m * m01 m - m00 m * m21 m) * invdet)
       ((m00 m * m11 m - m10 m * m01 m) * invdet).

(** The product of two matrices and the unit matrix. *)
Definition mat3_mul (a b : mat3) : mat3 :=
  Mat3 (m00 a * m00 b + m01 a * m10 b + m02 a * m20 b)
       (m00 a * m01 b + m01 a * m11 b + m02 a * m21 b)
       (m00 a * m02 b + m01 a * m12 b + m02 a * m22 b)
       (m10 a * m00 b + m11 a * m10 b + m12 a * m20 b)
       (m10 a * m01 b + m11 a * m11 b + m12 a * m21 b)
       (m10 a * m02 b + m11 a * m12 b + m12 a * m22 b)
       (m20 a * m00 b + m21 a * m10 b + m22 a * m20 b)
       (m20 a * m01 b + m21 a * m11 b + m22 a * m21 b)
       (m20 a * m02 b + m21 a * m12 b + m22 a * m22 b).

Definition mat3_unit : mat3 := Mat3 1 0 0 0 1 0 0 0 1.

(** A matrix with determinant 2, and a short signal with its least value
    twice. *)
Definition sample_matrix : mat3 := Mat3 2 0 0 0 1 0 0 1 1.
Definition sample_signal : list R := [3; 1; 4; 1; 5]%R.

(** ** The progress report (utils.c, lines 227-249) *)

Section Binary64.

(** The rounding of a real number to the nearest [double].  The seconds that
    remain are cut from the rounded quotient, so the rounding is kept.  The
    conversions of [pos], [finish] and [finish - pos] to [double] are exact
    below 2^53. *)
Variable round : R -> R.

(** The numbers that [progressbar] prints: the percentage and the hours,
    minutes and seconds that remain.  [/] and [%] of C on [int64_t] round
    toward zero: [Z.quot] and [Z.rem]. *)
Definition progressbar (pos finish : Z) (elapsed : R) : Z * Z * Z * Z :=
  let ratio := round (IZR pos / IZR finish) in
  let remaining :=
    if pos =? 0 then 0%R
    else round (round (elapsed * IZR (finish - pos)) / IZR pos) in
  let hours := Z.quot (double_to_int remaining) 3600 in
  let rhours := Z.rem (double_to_int remaining) 3600 in
  let minutes := Z.quot rhours 60 in
  let seconds := Z.rem rhours 60 in
  (double_to_int (round (ratio * 100)), hours, minutes, seconds).

End Binary64.

(** ** Release of the lists (utils.c, lines 348-357 and 625-634) *)

(** [free_edges]: the addresses handed to [free], in the order of the calls.
    [next] is read before the node is released. *)
Fixpoint free_edges (fuel : nat) (h : list edge) (current : ptr)
  : option (list nat) :=
  match current with
  | None => Some []
  | Some a =>
      match fuel with
      | O => None
      | S fuel' =>
          match h !! a with
          | Some e =>
              match free_edges fuel' h (edge_next e) with
              | Some l => Some (a :: l)
              | None => None
              end
          | None => None
          end
      end
  end.

(** The edges met by a walk along [next], as the arguments that wrote them. *)
Fixpoint edges_from (fuel : nat) (h : list edge) (current : ptr)
  : option (list edge_args) :=
  match current with
  | None => Some []
  | Some a =>
      match fuel with
      | O => None
      | S fuel' =>
          match h !! a with
          | Some e =>
              match edges_from fuel' h (edge_next e) with
              | Some l =>
                  Some (EdgeArgs (edge_location e) (edge_type e)
                          (edge_local_stdev e) (edge_local_baseline e) :: l)
              | None => None
              end
          | None => None
          end
      end
  end.

(** The edges of a list that started at [a0] are those of [es], in order. *)
Definition edge_contents (a0 : nat) (es : list edge_args) (w : world edge) : Prop :=
  forall i a, es !! i = Some a ->
    exists e, cells w !! (a0 + i)%nat = Some e
              /\ edge_location e = arg_location a
              /\ edge_type e = arg_type a
              /\ edge_local_stdev e = arg_stdev a
              /\ edge_local_baseline e = arg_baseline a.

(** A process with memory for two nodes only. *)
Definition two_node_world : world edge :=
  World 0 [true; true; false] [] (fun _ => None) [].

(** ** Durations (utils.c, lines 417-429 and 603-634) *)

Record duration_struct := Duration {
  duration_value : R;
  duration_next : ptr
}.

Definition zero_duration : duration_struct := Duration 0%R None.
Definition sizeof_duration_struct : Z := 16.

Definition Rleb (a b : R) : bool := if Rle_dec a b then true else false.

Definition initialize_durations : M duration_struct ptr :=
  head <- calloc_node sizeof_duration_struct zero_duration ;;
  e <- get_errorcode ;;
  if negb (e =? 0) then ret None
  else
    store head (fun _ => Duration 0%R None) ;;;
    ret head.

Definition add_duration (current : ptr) (duration : R) : M duration_struct ptr :=
  d <- load current duration_value ;;
  if Rleb d 0 then
    store current (fun n => Duration duration (duration_next n)) ;;;
    ret current
  else
    fresh <- calloc_node sizeof_duration_struct zero_duration ;;
    store current (fun n => Duration (duration_value n) fresh) ;;;
    e <- get_errorcode ;;
    if negb (e =? 0) then ret None
    else
      store fresh (fun _ => Duration duration None) ;;;
      ret fresh.

Fixpoint free_durations (fuel : nat) (h : list duration_struct) (current : ptr)
  : option (list nat) :=
  match current with
  | None => Some []
  | Some a =>
      match fuel with
      | O => None
      | S fuel' =>
          match h !! a with
          | Some n =>
              match free_durations fuel' h (duration_next n) with
              | Some l => Some (a :: l)
              | None => None
              end
          | None => None
          end
      end
  end.

(** A run of appends, each made at the node the previous one returned. *)
Fixpoint add_durations (ds : list R) (current : ptr) : M duration_struct ptr :=
  match ds with
  | [] => ret current
  | d :: ds' =>
      current' <- add_duration current d ;;
      match current' with
      | None => ret None
      | Some _ => add_durations ds' current'
      end
  end.

(** The durations met by a walk along [next]. *)
Fixpoint durations_from (fuel : nat) (h : list duration_struct) (current : ptr)
  : option (list R) :=
  match current with
  | None => Some []
  | Some a =>
      match fuel with
      | O => None
      | S fuel' =>
          match h !! a with
          | Some n =>
              match durations_from fuel' h (duration_next n) with
              | Some l => Some (duration_value n :: l)
              | None => None
              end
          | None => None
          end
      end
  end.

(** The list of durations that started at [a0] and received [ds]. *)
Record duration_list (a0 : nat) (ds : list R) (tail : nat)
  (w : world duration_struct) : Prop := {
  dl_errorcode : errorcode w = 0;
  dl_length : length (cells w) = (a0 + Nat.max 1 (length ds))%nat;
  dl_tail : tail = (a0 + Nat.max 1 (length ds) - 1)%nat;
  dl_links : forall i, (i < Nat.max 1 (length ds))%nat ->
             exists n, cells w !! (a0 + i)%nat = Some n
                       /\ duration_next n
                          = if decide (S i < Nat.max 1 (length ds))%nat
                            then Some (a0 + S i)%nat else None;
  dl_head : ds = [] ->
            exists n, cells w !! a0 = Some n /\ duration_value n = 0%R;
  dl_values : forall i d, ds !! i = Some d ->
              exists n, cells w !! (a0 + i)%nat = Some n /\ duration_value n = d
}.

Definition three_durations : list R := [2; 5; 3]%R.

(** A list of durations whose only node is the unfilled head. *)
Definition unfilled_durations : world duration_struct :=
  World 0 [] [Duration 0%R None] (fun _ => None) [].

(** ** The settings file, line by line *)

(** The keys that [add_input_file] recognizes. *)
Definition recognized_keys : list string :=
  ["SETUP_TIAgain"; "ADCSAMPLERATE"; "SETUP_preADCgain"; "SETUP_pAoffset";
   "SETUP_ADCVREF"; "mytimestamp"; "SETUP_ADCBITS"].

(** A line with a name token and, when the name is a recognized key, a value
    token: the lines on which no NULL reaches [strcmp], [strtod] or
    [strtol]. *)
Definition complete_line (l : setting_line) : Prop :=
  exists name, line_name l = Some name
               /\ (name ∈ recognized_keys -> is_Some (line_value l)).

(** The node after a store of [value] through [daqsetup], made when [b]
    holds; [None] when the store goes through NULL (no value token, or no
    [daqsetup]). *)
Definition daq_update {V} (b : bool) (value : option V)
  (upd : V -> chimera -> chimera) (m : input_file) : option input_file :=
  if b then
    match value, file_daqsetup m with
    | Some v, Some c => Some (set_daqsetup (Some (upd v c)) m)
    | _, _ => None
    end
  else Some m.

(** The effect of [read_setting] as a function of the node; [None] when the
    line makes it dereference NULL. *)
Definition apply_setting (l : setting_line) (m : input_file) : option input_file :=
  match line_name l with
  | None => None
  | Some name =>
      let value := option_map value_strtod (line_value l) in
      m1 ← daq_update (String.eqb name "SETUP_TIAgain") value
             (fun v c => Chimera (daq_samplerate c) v (daq_preADCgain c)
                           (daq_currentoffset c) (daq_ADCvref c) (daq_ADCbits c)) m;
      m2 ← daq_update (String.eqb name "ADCSAMPLERATE") value
             (fun v c => Chimera v (daq_TIAgain c) (daq_preADCgain c)
                           (daq_currentoffset c) (daq_ADCvref c) (daq_ADCbits c)) m1;
      m3 ← daq_update (String.eqb name "SETUP_preADCgain") value
             (fun v c => Chimera (daq_samplerate c) (daq_TIAgain c) v
                           (daq_currentoffset c) (daq_ADCvref c) (daq_ADCbits c)) m2;
      m4 ← daq_update (String.eqb name "SETUP_pAoffset") value
             (fun v c => Chimera (daq_samplerate c) (daq_TIAgain c)
                           (daq_preADCgain c) v (daq_ADCvref c) (daq_ADCbits c)) m3;
      m5 ← daq_update (String.eqb name "SETUP_ADCVREF") value
             (fun v c => Chimera (daq_samplerate c) (daq_TIAgain c)
                           (daq_preADCgain c) (daq_currentoffset c) v
                           (daq_ADCbits c)) m4;
      if String.eqb name "mytimestamp" then
        option_map (fun v => set_timestamp v m5) value
      else
        daq_update (String.eqb name "SETUP_ADCBITS")
          (option_map value_strtol (line_value l))
          (fun v c => Chimera (daq_samplerate c) (daq_TIAgain c) (daq_preADCgain c)
                        (daq_currentoffset c) (daq_ADCvref c) v) m5
  end.

(** The timestamp that a line leaves, and the one that a sequence of lines
    leaves: that of the last [mytimestamp] line, or the one the node had. *)
Definition line_timestamp (l : setting_line) (t : R) : R :=
  match line_name l, line_value l with
  | Some name, Some v =>
      if String.eqb name "mytimestamp" then value_strtod v else t
  | _, _ => t
  end.

Fixpoint settings_timestamp (ls : list setting_line) (t : R) : R :=
  match ls with
  | [] => t
  | l :: ls' => settings_timestamp ls' (line_timestamp l t)
  end.

(** Evaluation of the reads that follow writes to the same store, in the
    goal. *)
Ltac run_stores_goal :=
  repeat first
    [ progress simpl
    | rewrite list_lookup_insert_eq
        by (rewrite ?length_insert, ?length_app; simpl; lia)
    | rewrite list_lookup_insert_ne by lia
    | rewrite lookup_app_l by lia
    | rewrite lookup_app_r, Nat.sub_diag by lia
    | rewrite String.eqb_refl
    | match goal with
      | Hx : _ = Some _ |- _ => rewrite Hx
      | Hx : _ = None |- _ => rewrite Hx
      end ].

(** * Properties *)

(** ** The checked allocation layer *)

Lemma errorcode_set_calloc_plan {N} p (w : world N) :
  errorcode (set_calloc_plan p w) = errorcode w.
Proof. reflexivity. Qed.

Lemma errorcode_set_cells {N} c (w : world N) :
  errorcode (set_cells c w) = errorcode w.
Proof. reflexivity. Qed.

(** What [calloc_node] does, by the next entry of the plan. *)
Lemma calloc_node_granted {N} (size : Z) (zero : N) (w : world N) :
  0 <= size < 2 ^ 64 ->
  hd true (calloc_plan w) = true ->
  calloc_node size zero w =
    Done (Some (length (cells w)))
         (set_cells (cells w ++ [zero]) (set_calloc_plan (tl (calloc_plan w)) w)).
Proof.
  intros Hsize Hplan. unfold_layer. rewrite Hplan.
  replace (0 <=? 1) with true by reflexivity.
  replace (0 <=? size) with true by (symmetry; apply Z.leb_le; lia).
  replace (1 * size <? 2 ^ 64) with true by (symmetry; apply Z.ltb_lt; lia).
  reflexivity.
Qed.

Lemma calloc_node_refused {N} (size : Z) (zero : N) (w : world N) :
  hd true (calloc_plan w) = false ->
  calloc_node size zero w =
    Done None (set_errorcode ERR_MEM (set_calloc_plan (tl (calloc_plan w)) w)).
Proof.
  intros Hplan. unfold_layer. rewrite Hplan.
  rewrite !andb_false_r. reflexivity.
Qed.

(** C8, as stated, fails: when the C library returns no block for the request
    of zero elements, the routine returns NULL and records ERR_MEM. *)
Lemma calloc_and_check_zero_refused :
  calloc_and_check 0 8 (@starved_world unit)
  = Done None (World ERR_MEM [] [] (files (@starved_world unit)) []).
Proof. reflexivity. Qed.

(** C8 (amended): for a count of zero the routine hands on what [calloc]
    returns.  When [calloc] returns a block, the result is that block of zero
    elements and [errorcode] keeps its value; when [calloc] returns NULL, the
    result is NULL and [errorcode] becomes ERR_MEM.  No other outcome exists,
    and the count of zero is not treated apart. *)
Theorem calloc_and_check_zero_count {N} (w : world N) (size : Z) :
  0 <= size ->
  match calloc_and_check 0 size w with
  | Done (Some b) w' =>
      hd true (calloc_plan w) = true /\ b = Block 0 size
      /\ errorcode w' = errorcode w
  | Done None w' =>
      hd true (calloc_plan w) = false /\ errorcode w' = ERR_MEM
  | Fault _ => False
  end.
Proof.
  intros Hsize. unfold_layer.
  replace (0 <=? 0) with true by reflexivity.
  replace (0 <=? size) with true by (symmetry; apply Z.leb_le; lia).
  replace (0 * size <? 2 ^ 64) with true by reflexivity.
  destruct (hd true (calloc_plan w)); simpl; auto.
Qed.

Lemma calloc_and_check_zero_count_witness :
  0 <= 8 /\
  match calloc_and_check 0 8 (@fresh_world unit) with
  | Done (Some b) w' =>
      hd true (calloc_plan (@fresh_world unit)) = true /\ b = Block 0 8
      /\ errorcode w' = errorcode (@fresh_world unit)
  | Done None w' =>
      hd true (calloc_plan (@fresh_world unit)) = false /\ errorcode w' = ERR_MEM
  | Fault _ => False
  end.
Proof.
  split; [lia | apply (calloc_and_check_zero_count fresh_world 8); lia].
Defined.

(** ** Edge lists *)

Lemma count_edges_NULL fuel h c : count_edges fuel h None c = Some c.
Proof. destruct fuel; reflexivity. Qed.

Lemma count_edges_run h a0 n :
  edge_run h a0 n ->
  forall m i c fuel,
    (i + m = n)%nat -> (0 < m)%nat -> (m <= fuel)%nat ->
    count_edges fuel h (Some (a0 + i)%nat) c = Some (c + Z.of_nat m).
Proof.
  intros Hrun. induction m as [|m IH]; intros i c fuel Him Hm Hfuel; [lia|].
  destruct fuel as [|fuel]; [lia|]. simpl.
  destruct (Hrun i) as (e & He & Hnext); [lia|].
  rewrite He, Hnext. destruct (decide (S i < n)%nat) as [Hlt|Hge].
  - rewrite (IH (S i)) by lia. f_equal. lia.
  - rewrite count_edges_NULL. f_equal. lia.
Qed.

Lemma initialize_edges_list w head w1 :
  initialize_edges w = Done (Some head) w1 ->
  edge_list (length (cells w)) 0 head w1.
Proof.
  unfold initialize_edges. unfold_layer.
  destruct (_ && hd true (calloc_plan w)) eqn:Hgrant; simpl.
  - destruct (errorcode w =? 0) eqn:He; simpl; [|discriminate].
    rewrite lookup_app_r, Nat.sub_diag by lia. simpl.
    intros [= <- <-]. apply Z.eqb_eq in He.
    split; simpl.
    + assumption.
    + rewrite length_insert, length_app. simpl. lia.
    + lia.
    + intros i Hi. assert (i = 0)%nat as -> by lia.
      rewrite Nat.add_0_r. eexists. split.
      * apply list_lookup_insert_eq. rewrite length_app. simpl. lia.
      * reflexivity.
    + intros e. rewrite list_lookup_insert_eq by (rewrite length_app; simpl; lia).
      intros [= <-]. simpl. split; auto.
  - discriminate.
Qed.

Lemma add_edge_list a0 k tail w a tail' w' :
  edge_list a0 k tail w ->
  arg_type a <> HEAD ->
  add_edge (Some tail) (arg_location a) (arg_type a) (arg_stdev a) (arg_baseline a) w
  = Done (Some tail') w' ->
  edge_list a0 (S k) tail' w'.
Proof.
  intros [Herr Hlen Htail Hrun Htype] Hty.
  destruct (Hrun (Nat.max 1 k - 1)%nat) as (e & He & Hnext); [lia|].
  replace (a0 + (Nat.max 1 k - 1))%nat with tail in He by lia.
  destruct (decide (S (Nat.max 1 k - 1) < Nat.max 1 k)%nat) as [?|_]; [lia|].
  unfold add_edge. unfold_layer. rewrite He.
  destruct (edge_type e =? HEAD) eqn:Hhead.
  - (* the unfilled head is overwritten *)
    apply Z.eqb_eq in Hhead. apply (Htype e He) in Hhead. subst k.
    rewrite He. intros [= <- <-]. simpl in *.
    assert (tail = a0) as -> by lia.
    split; simpl.
    + assumption.
    + rewrite length_insert. lia.
    + lia.
    + intros i Hi. assert (i = 0)%nat as -> by lia. rewrite Nat.add_0_r.
      eexists. split; [apply list_lookup_insert_eq; lia|]. simpl. assumption.
    + intros e'. rewrite list_lookup_insert_eq by lia. intros [= <-]. simpl.
      split; [contradiction | discriminate].
  - (* a node is allocated behind the tail *)
    apply Z.eqb_neq in Hhead.
    assert (k <> 0%nat) as Hk by (intros ->; apply Hhead, (Htype e He); reflexivity).
    replace (0 <=? 1) with true by reflexivity.
    replace (0 <=? sizeof_edge) with true by reflexivity.
    replace (1 * sizeof_edge <? 2 ^ 64) with true by reflexivity.
    destruct (hd true (calloc_plan w)); simpl.
    + rewrite lookup_app_l by lia. rewrite He. simpl. rewrite Herr. simpl.
      rewrite list_lookup_insert_ne by lia.
      rewrite lookup_app_r, Nat.sub_diag by lia. simpl.
      intros [= <- <-].
      split; simpl.
      * assumption.
      * rewrite !length_insert, length_app. simpl. lia.
      * lia.
      * intros i Hi.
        destruct (decide (i = Nat.max 1 k)) as [->|Hne].
        -- eexists. split.
           ++ replace (a0 + Nat.max 1 k)%nat with (length (cells w)) by lia.
              apply list_lookup_insert_eq.
              rewrite length_insert, length_app. simpl. lia.
           ++ simpl. destruct (decide _); [lia | reflexivity].
        -- destruct (decide (a0 + i = tail)%nat) as [Heq|Hneq].
           ++ eexists. split.
              ** rewrite list_lookup_insert_ne by lia. rewrite Heq.
                 apply list_lookup_insert_eq. rewrite length_app. simpl. lia.
              ** simpl. destruct (decide _); [f_equal; lia | lia].
           ++ destruct (Hrun i) as (ei & Hei & Hni); [lia|].
              exists ei. split.
              ** rewrite !list_lookup_insert_ne by lia.
                 rewrite lookup_app_l by lia. assumption.
              ** rewrite Hni. repeat case_decide; (reflexivity || lia).
      * intros e'. rewrite list_lookup_insert_eq
          by (rewrite length_insert, length_app; simpl; lia).
        intros [= <-]. simpl. split; [contradiction | discriminate].
    + rewrite He. simpl. discriminate.
Qed.

Lemma add_edges_list es :
  forall a0 k tail w tail' w',
    edge_list a0 k tail w ->
    Forall (fun a => arg_type a <> HEAD) es ->
    add_edges es (Some tail) w = Done (Some tail') w' ->
    edge_list a0 (k + length es) tail' w'.
Proof.
  induction es as [|a es IH]; intros a0 k tail w tail' w' Hinv Hes; simpl.
  - unfold ret. intros [= <- <-]. rewrite Nat.add_0_r. assumption.
  - inversion Hes as [|? ? Ha Hes']; subst.
    unfold bind at 1.
    destruct (add_edge _ _ _ _ _ w) as [[t|] w1|] eqn:Hadd; try discriminate.
    intros Hrest.
    replace (k + S (length es))%nat with (S k + length es)%nat by lia.
    eapply IH; [|eassumption|eassumption].
    eapply add_edge_list; eassumption.
Qed.

(** C2, as stated, fails on the list that [initialize_edges] returns:
    [count_edges] counts the unfilled head node and returns 1, not 0. *)
Lemma count_edges_fresh_list :
  initialize_edges fresh_world
  = Done (Some 0%nat) (World 0 [] [Edge 0 HEAD 0%R 0%R None] (fun _ => None) [])
  /\ count_edges 1 [Edge 0 HEAD 0%R 0%R None] (Some 0%nat) 0 = Some 1
  /\ count_edges 1 [Edge 0 HEAD 0%R 0%R None] (Some 0%nat) 0 <> Some 0.
Proof. repeat split; try reflexivity. discriminate. Qed.

(** C2 (amended): [count_edges] returns the number of nodes of the list.  On
    the list returned by [initialize_edges] it returns 1, the unfilled head
    being a node; after [k >= 1] successful appends by [add_edge], each with a
    type other than the HEAD tag and each made at the node the previous call
    returned, it returns [k].  Both cases are [max 1 k]. *)
Theorem count_edges_after_appends w head w1 es tail w2 fuel :
  initialize_edges w = Done (Some head) w1 ->
  Forall (fun a => arg_type a <> HEAD) es ->
  add_edges es (Some head) w1 = Done (Some tail) w2 ->
  (Nat.max 1 (length es) <= fuel)%nat ->
  count_edges fuel (cells w1) (Some head) 0 = Some 1
  /\ count_edges fuel (cells w2) (Some head) 0
     = Some (Z.max 1 (Z.of_nat (length es))).
Proof.
  intros Hinit Hes Hadd Hfuel.
  pose proof (initialize_edges_list _ _ _ Hinit) as H1.
  pose proof (add_edges_list _ _ _ _ _ _ _ H1 Hes Hadd) as H2.
  destruct H1 as [_ _ Ht1 Hrun1 _]. destruct H2 as [_ _ _ Hrun2 _].
  simpl in *. assert (head = length (cells w)) as -> by lia.
  split.
  - rewrite <- (Nat.add_0_r (length (cells w))) at 1.
    rewrite (count_edges_run _ _ _ Hrun1 1%nat 0%nat) by lia. reflexivity.
  - rewrite <- (Nat.add_0_r (length (cells w))) at 1.
    rewrite (count_edges_run _ _ _ Hrun2 (Nat.max 1 (length es)) 0%nat) by lia.
    f_equal. lia.
Qed.

Lemma count_edges_after_appends_witness :
  exists w1 tail w2,
    initialize_edges fresh_world = Done (Some 0%nat) w1
    /\ add_edges two_edges (Some 0%nat) w1 = Done (Some tail) w2
    /\ count_edges 2 (cells w1) (Some 0%nat) 0 = Some 1
    /\ count_edges 2 (cells w2) (Some 0%nat) 0 = Some 2.
Proof.
  eexists. eexists. eexists.
  split; [reflexivity|]. split; [reflexivity|].
  apply (count_edges_after_appends fresh_world 0%nat _ two_edges 1%nat _ 2%nat).
  - reflexivity.
  - repeat constructor; discriminate.
  - reflexivity.
  - simpl. lia.
Defined.

(** ** Level lists *)

Lemma add_cusum_level_unfilled (w : world cusumlevel) a n c l :
  cells w !! a = Some n ->
  level_length n <= 0 ->
  add_cusum_level (Some a) c l w
  = Done (Some a) (set_cells (<[a := write_level c l None n]> (cells w)) w).
Proof.
  intros Ha Hlen. unfold add_cusum_level. unfold_layer. rewrite Ha.
  replace (0 <? level_length n) with false by (symmetry; apply Z.ltb_ge; lia).
  rewrite Ha. reflexivity.
Qed.

Lemma add_cusum_level_filled (w : world cusumlevel) a n c l :
  cells w !! a = Some n ->
  0 < level_length n ->
  hd true (calloc_plan w) = true ->
  add_cusum_level (Some a) c l w
  = Done (Some (length (cells w)))
      (set_cells
         (<[length (cells w) := write_level c l None zero_level]>
            (<[a := link_level (Some (length (cells w))) n]>
               (cells w ++ [zero_level])))
         (set_calloc_plan (tl (calloc_plan w)) w)).
Proof.
  intros Ha Hlen Hplan. unfold add_cusum_level.
  unfold bind at 1. unfold load, bind at 1. rewrite Ha. unfold ret at 1.
  replace (0 <? level_length n) with true by (symmetry; apply Z.ltb_lt; lia).
  unfold bind at 1. rewrite calloc_node_granted by (assumption || (unfold sizeof_cusumlevel; lia)).
  pose proof (lookup_lt_Some _ _ _ Ha) as Hlt.
  unfold_layer. simpl.
  rewrite lookup_app_l by lia. rewrite Ha. simpl.
  rewrite list_lookup_insert_ne by lia.
  rewrite lookup_app_r, Nat.sub_diag by lia. reflexivity.
Qed.

(** With no block from [calloc] the write through [lastlevel->next] is a
    write through NULL. *)
Lemma add_cusum_level_starved (w : world cusumlevel) a n c l :
  cells w !! a = Some n ->
  0 < level_length n ->
  hd true (calloc_plan w) = false ->
  add_cusum_level (Some a) c l w = Fault NullDereference.
Proof.
  intros Ha Hlen Hplan. unfold add_cusum_level.
  unfold bind at 1. unfold load, bind at 1. rewrite Ha. unfold ret at 1.
  replace (0 <? level_length n) with true by (symmetry; apply Z.ltb_lt; lia).
  unfold bind at 1. rewrite calloc_node_refused by assumption.
  unfold_layer. simpl. rewrite Ha. reflexivity.
Qed.

(** Whatever the tail, the node a successful append returns holds the level
    just written. *)
Lemma add_cusum_level_returns (w : world cusumlevel) a n c l q w1 :
  cells w !! a = Some n ->
  add_cusum_level (Some a) c l w = Done (Some q) w1 ->
  exists m, cells w1 !! q = Some m /\ level_current m = c /\ level_length m = l.
Proof.
  intros Ha Hadd. pose proof (lookup_lt_Some _ _ _ Ha) as Hlt.
  destruct (Z_lt_le_dec 0 (level_length n)) as [Hpos|Hneg].
  - destruct (hd true (calloc_plan w)) eqn:Hplan.
    + rewrite (add_cusum_level_filled w a n c l Ha Hpos Hplan) in Hadd.
      injection Hadd as <- <-. simpl. eexists. split.
      * apply list_lookup_insert_eq. rewrite length_insert, length_app. simpl. lia.
      * split; reflexivity.
    + rewrite (add_cusum_level_starved w a n c l Ha Hpos Hplan) in Hadd.
      discriminate.
  - rewrite (add_cusum_level_unfilled w a n c l Ha Hneg) in Hadd.
    injection Hadd as <- <-. simpl. eexists. split.
    + apply list_lookup_insert_eq. lia.
    + split; reflexivity.
Qed.

(** C10, as stated, fails in one part: appended to a tail of positive length,
    a level of length 0 gets a node of its own, so the list grows from one
    node to two. *)
Lemma zero_length_level_grows_list :
  exists w1 w2 w3,
    initialize_levels fresh_world = Done (Some 0%nat) w1
    /\ add_cusum_level (Some 0%nat) 1%R 5 w1 = Done (Some 0%nat) w2
    /\ add_cusum_level (Some 0%nat) 2%R 0 w2 = Done (Some 1%nat) w3
    /\ count_levels 3 (cells w2) (Some 0%nat) 0 = Some 1
    /\ count_levels 3 (cells w3) (Some 0%nat) 0 = Some 2.
Proof.
  eexists. eexists. eexists.
  split; [reflexivity|]. split; [reflexivity|]. split; [reflexivity|].
  split; reflexivity.
Qed.

(** C10 (amended): [add_cusum_level] tells the unfilled head apart by the
    [length] field of the tail alone.  When the tail has [length <= 0] it
    overwrites [current] and [length] of that node (and resets [next]),
    returns the same node and allocates nothing; a successful call allocates
    and links a new tail exactly when the length of the old tail is positive.
    Hence a level appended with length 0 to a tail of length [<= 0] does not
    grow the list, and, whatever tail it was appended to, the next append
    overwrites that level in place instead of growing the list. *)
Theorem add_cusum_level_sentinel (w : world cusumlevel) a n c l :
  cells w !! a = Some n ->
  (level_length n <= 0 ->
   add_cusum_level (Some a) c l w
   = Done (Some a) (set_cells (<[a := write_level c l None n]> (cells w)) w))
  /\ (forall q w',
        add_cusum_level (Some a) c l w = Done q w' ->
        if 0 <? level_length n
        then q = Some (length (cells w))
             /\ length (cells w') = S (length (cells w))
             /\ cells w' !! a = Some (link_level q n)
        else q = Some a
             /\ length (cells w') = length (cells w)
             /\ calloc_plan w' = calloc_plan w)
  /\ (forall q w1,
        add_cusum_level (Some a) c 0 w = Done (Some q) w1 ->
        forall c' l',
        exists m,
          cells w1 !! q = Some m
          /\ add_cusum_level (Some q) c' l' w1
             = Done (Some q)
                 (set_cells (<[q := write_level c' l' None m]> (cells w1)) w1)).
Proof.
  intros Ha. pose proof (lookup_lt_Some _ _ _ Ha) as Hlt.
  split; [apply add_cusum_level_unfilled; assumption|]. split.
  - intros q w' Hadd. destruct (0 <? level_length n) eqn:Hpos.
    + apply Z.ltb_lt in Hpos. destruct (hd true (calloc_plan w)) eqn:Hplan.
      * rewrite (add_cusum_level_filled w a n c l Ha Hpos Hplan) in Hadd.
        injection Hadd as <- <-. simpl. split; [reflexivity|]. split.
        -- rewrite !length_insert, length_app. simpl. lia.
        -- rewrite list_lookup_insert_ne by lia.
           apply list_lookup_insert_eq. rewrite length_app. simpl. lia.
      * rewrite (add_cusum_level_starved w a n c l Ha Hpos Hplan) in Hadd.
        discriminate.
    + apply Z.ltb_ge in Hpos.
      rewrite (add_cusum_level_unfilled w a n c l Ha Hpos) in Hadd.
      injection Hadd as <- <-. simpl. rewrite length_insert. auto.
  - intros q w1 Hadd c' l'.
    destruct (add_cusum_level_returns w a n c 0 q w1 Ha Hadd) as (m & Hm & _ & Hzero).
    exists m. split; [assumption|].
    apply add_cusum_level_unfilled; [assumption | lia].
Qed.

Lemma add_cusum_level_sentinel_witness :
  cells unfilled_levels !! 0%nat = Some zero_level
  /\ (level_length zero_level <= 0 ->
      add_cusum_level (Some 0%nat) 1%R 5 unfilled_levels
      = Done (Some 0%nat)
          (set_cells (<[0%nat := write_level 1%R 5 None zero_level]>
                        (cells unfilled_levels)) unfilled_levels)).
Proof.
  split; [reflexivity|].
  exact (proj1 (add_cusum_level_sentinel unfilled_levels 0%nat zero_level 1%R 5
                  eq_refl)).
Defined.

(** ** Unchecked results of the allocation layer *)

(** C4: [initialize_levels] writes through the result of [calloc_and_check]
    without a test of [errorcode]; when the allocation fails the write goes
    through NULL.  [initialize_edges], next to it, tests the code and returns
    NULL with ERR_MEM recorded. *)
Theorem initialize_levels_unchecked e plan f s lv ed :
  initialize_levels (World e (false :: plan) lv f s) = Fault NullDereference
  /\ initialize_edges (World e (false :: plan) ed f s)
     = Done None (World ERR_MEM plan ed f s).
Proof. split; reflexivity. Qed.

(** [add_input_file] clears [insert->daqsetup] between the allocation of
    [insert] and the test of [errorcode]. *)
Lemma add_input_file_unchecked (w : world input_file) a n filename settingsname
  datatype bincfg :
  cells w !! a = Some n ->
  (file_timestamp n > 0)%R ->
  hd true (calloc_plan w) = false ->
  add_input_file (Some a) filename settingsname datatype bincfg w
  = Fault NullDereference.
Proof.
  intros Ha Ht Hplan. unfold add_input_file.
  unfold bind at 1. unfold add_input_file_insert.
  unfold bind at 1. unfold load, bind at 1. rewrite Ha. unfold ret at 1.
  unfold Rgtb. destruct (Rgt_dec (file_timestamp n) 0) as [_|Hn]; [|contradiction].
  unfold bind at 1.
  rewrite calloc_node_refused by assumption. reflexivity.
Qed.

(** ** Conversions between integers and doubles *)

Lemma Int_part_IZR z : Int_part (IZR z) = z.
Proof. symmetry. apply Int_part_spec. lra. Qed.

Lemma Int_part_between (x : R) (z : Z) :
  (IZR z <= x < IZR z + 1)%R -> Int_part x = z.
Proof. intros H. symmetry. apply Int_part_spec. lra. Qed.

Lemma double_to_int_IZR z : double_to_int (IZR z) = z.
Proof.
  unfold double_to_int. destruct (Rle_dec 0 (IZR z)).
  - apply Int_part_IZR.
  - rewrite <- opp_IZR, Int_part_IZR. lia.
Qed.

Lemma double_to_int_nonneg (x : R) : (0 <= x)%R -> double_to_int x = Int_part x.
Proof. intros H. unfold double_to_int. destruct (Rle_dec 0 x); [reflexivity | contradiction]. Qed.

Lemma double_to_int_neg (x : R) : (x < 0)%R -> double_to_int x = - Int_part (- x).
Proof. intros H. unfold double_to_int. destruct (Rle_dec 0 x); [lra | reflexivity]. Qed.

Lemma my_max_IZR a b : my_max (IZR a) (IZR b) = IZR (Z.max a b).
Proof.
  unfold my_max. destruct (Rgt_dec (IZR a) (IZR b)) as [Hgt|Hle].
  - apply lt_IZR in Hgt. rewrite Z.max_l by lia. reflexivity.
  - assert (a <= b) by (apply le_IZR; lra). rewrite Z.max_r by lia. reflexivity.
Qed.

(** ** The average run length *)

(** C5: [ARL] returns the value of the formula of the specification, and
    for a run length of 0 the formula without the subtracted length. *)
Theorem ARL_formula (length : Z) (sigma mun h : R) :
  ARL length sigma mun h = ARL_spec length sigma mun h
  /\ ARL 0 sigma mun h
     = ((exp (-2 * mun * (h / sigma + 1.166)) - 1 + 2 * mun * (h / sigma + 1.166))
        / (2 * mun ^ 2))%R.
Proof.
  unfold ARL, ARL_spec.
  replace (2 * mun ^ 2)%R with (2 * mun * mun)%R by ring.
  split; [reflexivity | ring].
Qed.

(** ** The depth of the wavelet decomposition *)

Lemma ln_2_pos : (0 < ln 2)%R.
Proof. pose proof ln_lt_2. lra. Qed.

Lemma ln_4 : ln 4 = (2 * ln 2)%R.
Proof.
  replace 4%R with (2 * 2)%R by lra. rewrite ln_mult by lra. ring.
Qed.

Lemma ln_3_bounds : (ln 2 < ln 3 < 2 * ln 2)%R.
Proof.
  rewrite <- ln_4. split; apply ln_increasing; lra.
Qed.

Lemma log2_third_bounds : (-2 < ln (1 / 3) / ln 2 < -1)%R.
Proof.
  replace (1 / 3)%R with (/ 3)%R by lra. rewrite ln_Rinv by lra.
  pose proof ln_2_pos as H2. pose proof ln_3_bounds as [H3 H4].
  split.
  - apply Rmult_lt_reg_r with (ln 2); [assumption|].
    unfold Rdiv. rewrite Rmult_assoc, Rinv_l by lra. lra.
  - apply Rmult_lt_reg_r with (ln 2); [assumption|].
    unfold Rdiv. rewrite Rmult_assoc, Rinv_l by lra. lra.
Qed.

(** C9, as stated, fails for a signal shorter than the filter: with one
    sample and four taps the binary logarithm of 1/3 lies between -2 and -1,
    the conversion to [int] gives -1 and the floor is -2. *)
Lemma wavelet_levels_short_signal :
  wavelet_levels 1 4 = -1 /\ floor_log2_ratio 1 4 = -2
  /\ wavelet_levels 1 4 <> floor_log2_ratio 1 4.
Proof.
  pose proof log2_third_bounds as [Hlo Hhi].
  assert (wavelet_levels 1 4 = -1) as H1.
  { unfold wavelet_levels. replace (IZR 1 / (IZR 4 - 1))%R with (1 / 3)%R by lra.
    rewrite double_to_int_neg by lra.
    rewrite (Int_part_between _ 1) by lra. reflexivity. }
  assert (floor_log2_ratio 1 4 = -2) as H2.
  { unfold floor_log2_ratio. replace (IZR 1 / (IZR 4 - 1))%R with (1 / 3)%R by lra.
    apply Int_part_between. lra. }
  rewrite H1, H2. repeat split. lia.
Qed.

Lemma log2_ratio_nonneg (length filt_len : Z) :
  1 < filt_len -> filt_len - 1 <= length ->
  (0 <= ln (IZR length / (IZR filt_len - 1)) / ln 2)%R.
Proof.
  intros Htaps Hlen.
  assert (0 < IZR filt_len - 1)%R as Hpos.
  { apply IZR_lt in Htaps. lra. }
  assert (IZR filt_len - 1 <= IZR length)%R as Hle.
  { apply IZR_le in Hlen. rewrite minus_IZR in Hlen. lra. }
  assert (1 <= IZR length / (IZR filt_len - 1))%R as Hratio.
  { apply Rmult_le_reg_r with (IZR filt_len - 1)%R; [assumption|].
    unfold Rdiv. rewrite Rmult_assoc, Rinv_l by lra. lra. }
  apply Rmult_le_reg_r with (ln 2); [apply ln_2_pos|].
  unfold Rdiv at 1. rewrite Rmult_assoc, Rinv_l by (pose proof ln_2_pos; lra).
  rewrite Rmult_0_l, Rmult_1_r.
  rewrite <- ln_1. destruct Hratio as [Hlt|Heq].
  - left. apply ln_increasing; lra.
  - rewrite <- Heq. lra.
Qed.

(** C9 (amended): the depth handed to the denoiser is the quotient
    [log(N/(taps-1))/log(2)] converted to [int], that is, with its fraction
    dropped.  For a signal at least as long as the filter span,
    [N >= taps - 1 > 0], this is the floor of the binary logarithm of
    [N/(taps-1)], and the wrapper leaves in [signal] the first [N] values the
    denoiser computed at that depth. *)
Theorem filter_signal_wt_depth (filtlength : string -> Z)
  (wdenoise : Z -> Z -> string -> list R -> list R)
  (signal : list R) (length : Z) (wname : string) :
  1 < filtlength wname ->
  filtlength wname - 1 <= length ->
  wavelet_levels length (filtlength wname)
  = floor_log2_ratio length (filtlength wname)
  /\ filter_signal_wt filtlength wdenoise signal length wname
     = take (Z.to_nat length)
         (wdenoise length (floor_log2_ratio length (filtlength wname)) wname signal)
       ++ drop (Z.to_nat length) signal.
Proof.
  intros Htaps Hlen.
  assert (wavelet_levels length (filtlength wname)
          = floor_log2_ratio length (filtlength wname)) as Heq.
  { unfold wavelet_levels, floor_log2_ratio.
    apply double_to_int_nonneg, log2_ratio_nonneg; assumption. }
  split; [assumption|].
  unfold filter_signal_wt. rewrite Heq. reflexivity.
Qed.

Lemma filter_signal_wt_depth_witness :
  1 < 8 /\ 8 - 1 <= 1024
  /\ wavelet_levels 1024 8 = floor_log2_ratio 1024 8.
Proof.
  split; [lia|]. split; [lia|].
  exact (proj1 (filter_signal_wt_depth (fun _ => 8) (fun _ _ _ s => s) [] 1024
                  "db4" ltac:(lia) ltac:(lia))).
Defined.

(** ** The padded signal *)

(** The element count handed to [calloc_and_check] for [paddedsignal]. *)
Lemma padded_count (config : configuration) (filterpadding : Z) :
  double_to_int
    (IZR (cfg_readlength config)
     + 2 * (my_max (IZR (cfg_data_order config)) (IZR (cfg_event_order config))
            + IZR filterpadding))%R
  = cfg_readlength config
    + 2 * (Z.max (cfg_data_order config) (cfg_event_order config) + filterpadding).
Proof.
  rewrite my_max_IZR, <- plus_IZR, <- mult_IZR, <- plus_IZR.
  apply double_to_int_IZR.
Qed.

Lemma calloc_and_check_some {N} num size (w w' : world N) b :
  calloc_and_check num size w = Done (Some b) w' ->
  0 <= num /\ b = Block num size /\ errorcode w' = errorcode w.
Proof.
  unfold_layer.
  destruct (0 <=? num) eqn:Hnum; simpl.
  - destruct (_ && hd true (calloc_plan w)); simpl.
    + intros [= <- <-]. apply Z.leb_le in Hnum. auto.
    + discriminate.
  - discriminate.
Qed.

(** With memory available the instrument-format signal is built. *)
Lemma initialize_signal_chimera {N} (w : world N) config filterpadding bincfg :
  errorcode w = 0 ->
  calloc_plan w = [] ->
  cfg_datatype config = CHIMERA ->
  let total := cfg_readlength config
               + 2 * (Z.max (cfg_data_order config) (cfg_event_order config)
                      + filterpadding) in
  0 <= cfg_readlength config < 2 ^ 60 ->
  0 <= total < 2 ^ 60 ->
  initialize_signal config filterpadding bincfg w
  = Done (Some (SignalStruct (replicate (Z.to_nat total) 0%R)
                  (cfg_data_order config + filterpadding)
                  (Some (Block (cfg_readlength config) sizeof_uint16_t)))) w.
Proof.
  intros Herr Hplan Hty total Hread Htotal.
  unfold initialize_signal. rewrite padded_count. fold total. rewrite Hty.
  destruct w as [e plan c f s]. simpl in *. subst e plan.
  unfold_layer. unfold set_calloc_plan, sizeof_double, sizeof_uint16_t. simpl.
  replace (0 <=? total) with true by (symmetry; apply Z.leb_le; lia).
  replace (total * 8 <? 2 ^ 64) with true by (symmetry; apply Z.ltb_lt; lia).
  simpl.
  replace (0 <=? cfg_readlength config) with true by (symmetry; apply Z.leb_le; lia).
  replace (cfg_readlength config * 2 <? 2 ^ 64) with true
    by (symmetry; apply Z.ltb_lt; lia).
  reflexivity.
Qed.

(** C1, as stated, fails when the event filter has the higher order: the
    buffer has the stated length, 10 + 2 * 4 = 18, but [signal] starts
    [data_order] = 2 elements in, and index -4, inside the stated range
    [[-4, 14)], lies before the buffer. *)
Lemma signal_view_narrow_data_filter :
  exists sig,
    initialize_signal narrow_data_filter 0 None (@fresh_world unit)
    = Done (Some sig) fresh_world
    /\ Z.of_nat (length (sig_paddedsignal sig)) = 10 + 2 * (Z.max 2 4 + 0)
    /\ - (Z.max 2 4 + 0) <= -4 < 10 + (Z.max 2 4 + 0)
    /\ signal_at sig (-4) = None.
Proof.
  eexists. split.
  - apply (initialize_signal_chimera (@fresh_world unit) narrow_data_filter 0 None);
      try reflexivity; simpl; lia.
  - simpl. repeat split; lia.
Qed.

(** C1 (amended): the buffer returned by [initialize_signal] has
    [readlength + 2 * padding] elements, where
    [padding = max(data_order, event_order) + filterpadding], and the view
    [signal] starts [data_order + filterpadding] elements into it.  The view
    supports exactly the indices from [-(data_order + filterpadding)] up to,
    but not including,
    [readlength + 2 * padding - (data_order + filterpadding)]; this contains
    the range [[-padding, readlength + padding)] when
    [event_order <= data_order]. *)
Theorem initialize_signal_view {N} (w w' : world N) config filterpadding bincfg sig :
  initialize_signal config filterpadding bincfg w = Done (Some sig) w' ->
  let padding := Z.max (cfg_data_order config) (cfg_event_order config)
                 + filterpadding in
  let reach := cfg_data_order config + filterpadding in
  Z.of_nat (length (sig_paddedsignal sig)) = cfg_readlength config + 2 * padding
  /\ sig_signal sig = reach
  /\ (forall i, is_Some (signal_at sig i)
                <-> - reach <= i < cfg_readlength config + 2 * padding - reach)
  /\ (cfg_event_order config <= cfg_data_order config ->
      forall i, - padding <= i < cfg_readlength config + padding ->
                is_Some (signal_at sig i)).
Proof.
  intros Hinit padding reach.
  assert (Z.of_nat (length (sig_paddedsignal sig))
          = cfg_readlength config + 2 * padding /\ sig_signal sig = reach)
    as [Hlen Hoff].
  { unfold initialize_signal in Hinit. rewrite padded_count in Hinit.
    fold padding in Hinit. unfold bind at 1 in Hinit.
    destruct (calloc_and_check 1 sizeof_signal_struct w) as [s w1|]; [|discriminate].
    unfold bind at 1, get_errorcode at 1 in Hinit.
    destruct (negb (errorcode w1 =? 0)); [discriminate|].
    unfold bind at 1 in Hinit.
    destruct (calloc_and_check (cfg_readlength config + 2 * padding) sizeof_double w1)
      as [pd w2|] eqn:Hpad; [|discriminate].
    destruct s; [|discriminate].
    unfold bind at 1, get_errorcode at 1 in Hinit.
    destruct (negb (errorcode w2 =? 0)); [discriminate|].
    destruct pd as [pb|]; [|discriminate].
    apply calloc_and_check_some in Hpad as (Hnum & -> & _).
    unfold bind at 1 in Hinit.
    destruct (_ : outcome N (option block)) as [raw w3|] in Hinit; [|discriminate].
    unfold bind at 1, get_errorcode at 1 in Hinit.
    destruct (negb (errorcode w3 =? 0)); [discriminate|].
    unfold ret in Hinit. injection Hinit as <- <-. simpl.
    unfold zeros. simpl. rewrite length_replicate. split; [lia | reflexivity]. }
  assert (forall i, is_Some (signal_at sig i)
                    <-> - reach <= i < cfg_readlength config + 2 * padding - reach)
    as Hview.
  { intros i. unfold signal_at. rewrite Hoff.
    destruct (0 <=? reach + i) eqn:Hlow.
    - apply Z.leb_le in Hlow. rewrite lookup_lt_is_Some. lia.
    - apply Z.leb_gt in Hlow. split; [intros [x Hx]; discriminate | lia]. }
  split; [assumption|]. split; [assumption|]. split; [exact Hview|].
  intros Horder i Hi. apply Hview. unfold padding, reach in *. lia.
Qed.

Lemma initialize_signal_view_witness :
  exists sig,
    initialize_signal wide_data_filter 1 None (@fresh_world unit)
    = Done (Some sig) fresh_world
    /\ Z.of_nat (length (sig_paddedsignal sig)) = 10 + 2 * (Z.max 4 2 + 1)
    /\ sig_signal sig = 4 + 1.
Proof.
  eexists. split.
  - apply (initialize_signal_chimera (@fresh_world unit) wide_data_filter 1 None);
      try reflexivity; simpl; lia.
  - pose proof (initialize_signal_view (@fresh_world unit) fresh_world
                  wide_data_filter 1 None _
                  (initialize_signal_chimera (@fresh_world unit) wide_data_filter 1
                     None eq_refl eq_refl eq_refl ltac:(simpl; lia) ltac:(simpl; lia)))
      as (Hlen & Hoff & _).
    split; [exact Hlen | exact Hoff].
Defined.

(** ** The number of bins of the baseline histogram *)

Lemma exp_2_lt_20 : (exp 2 < 20)%R.
Proof.
  replace 2%R with (1 + 1)%R by lra. rewrite exp_plus.
  pose proof exp_le_3 as H3. pose proof (exp_pos 1) as Hp. nra.
Qed.

Lemma ln_20_bounds : (2 < ln 20 < 20)%R.
Proof.
  split.
  - apply exp_lt_inv. rewrite exp_ln by lra. apply exp_2_lt_20.
  - apply exp_lt_inv. rewrite exp_ln by lra.
    pose proof (exp_ineq1 20 ltac:(lra)). lra.
Qed.

Lemma ln_8000 : ln 8000 = (3 * ln 20)%R.
Proof.
  replace 8000%R with (20 * (20 * 20))%R by lra.
  rewrite !ln_mult by lra. ring.
Qed.

(** [one_third] is a 53-bit significand scaled by 2^-54 and lies within half
    of 2^-54 of 1/3: it is the binary64 number nearest to 1/3, and below it. *)
Lemma one_third_binary64 :
  2 ^ 52 <= 6004799503160661 < 2 ^ 53
  /\ 18014398509481984 = 2 ^ 54
  /\ (one_third < 1 / 3)%R
  /\ (1 / 3 - one_third < / (2 * 18014398509481984))%R.
Proof.
  split; [lia|]. split; [reflexivity|]. unfold one_third. split; lra.
Qed.

(** The exact cube root of 8000 is 20. *)
Lemma cube_root_8000 : cube_root 8000 = 20%R.
Proof.
  unfold cube_root, Rpower. rewrite ln_8000.
  replace (1 / 3 * (3 * ln 20))%R with (ln 20) by lra.
  apply exp_ln. lra.
Qed.

(** The power at the binary64 exponent lies more than half a unit in the last
    place (2^-49 = 1/562949953421312 for numbers between 16 and 32) below 20. *)
Lemma Rpower_8000_one_third :
  (19.75 < Rpower 8000 one_third /\ Rpower 8000 one_third + / 562949953421312 < 20)%R.
Proof.
  pose proof ln_20_bounds as [Hlo Hhi].
  set (x := (ln 20 / 18014398509481984)%R).
  assert (0 < x)%R as Hx by (unfold x; lra).
  assert (x < 20 / 18014398509481984)%R as Hx' by (unfold x; lra).
  assert (2 / 18014398509481984 < x)%R as Hx'' by (unfold x; lra).
  assert (Rpower 8000 one_third = 20 * exp (- x))%R as ->.
  { unfold Rpower, one_third. rewrite ln_8000.
    replace (6004799503160661 / 18014398509481984 * (3 * ln 20))%R
      with (ln 20 + - x)%R by (unfold x; lra).
    rewrite exp_plus, exp_ln by lra. reflexivity. }
  split.
  - pose proof (exp_ineq1 (- x) ltac:(lra)). lra.
  - rewrite exp_Ropp.
    pose proof (exp_ineq1 x ltac:(lra)) as Hexp.
    assert (/ exp x < / (1 + x))%R as Hinv
      by (apply Rinv_lt_contravar; [apply Rmult_lt_0_compat; lra | lra]).
    assert (/ (1 + x) * (1 + x) = 1)%R as Hone by (apply Rinv_l; lra).
    assert (0 < / (1 + x))%R as Hpos by (apply Rinv_0_lt_compat; lra).
    nra.
Qed.

(** C6: for [readlength = 8000] the specification gives
    [floor(2 * 8000^(1/3)) = 40] bins; the source raises 8000 to the binary64
    number [1.0/3.0], which is below 1/3, so a [pow] accurate to half a unit
    in the last place returns a number below 20 and the conversion to
    [int64_t] leaves 39 bins. *)
Theorem baseline_numbins_8000 (pow : R -> R -> R) :
  (Rabs (pow 8000 one_third - Rpower 8000 one_third) <= / 562949953421312)%R ->
  baseline_numbins pow 8000 = 39
  /\ Int_part (2 * cube_root 8000) = 40.
Proof.
  intros Hpow. pose proof Rpower_8000_one_third as [Hlo Hhi].
  pose proof (Rle_abs (pow 8000 one_third - Rpower 8000 one_third)%R) as Hup.
  pose proof (Rle_abs (- (pow 8000 one_third - Rpower 8000 one_third))%R) as Hdn.
  rewrite Rabs_Ropp in Hdn. split.
  - unfold baseline_numbins. rewrite double_to_int_nonneg by lra.
    apply Int_part_between. lra.
  - rewrite cube_root_8000. apply Int_part_between. lra.
Qed.

Lemma baseline_numbins_8000_witness :
  (Rabs (Rpower 8000 one_third - Rpower 8000 one_third) <= / 562949953421312)%R
  /\ baseline_numbins Rpower 8000 = 39.
Proof.
  assert (Rabs (Rpower 8000 one_third - Rpower 8000 one_third)
          <= / 562949953421312)%R as H.
  { rewrite Rminus_diag, Rabs_R0. lra. }
  split; [exact H | exact (proj1 (baseline_numbins_8000 Rpower H))].
Defined.

(** ** The registry of input files *)

Lemma bind_Done {N A B} (m : M N A) (k : A -> M N B) w b w' :
  bind m k w = Done b w' ->
  exists a w1, m w = Done a w1 /\ k a w1 = Done b w'.
Proof.
  unfold bind. destruct (m w) as [a w1|]; [|discriminate]. eauto.
Qed.

Lemma store_Done {N} (p : ptr) (upd : N -> N) w u w' :
  store p upd w = Done u w' ->
  exists a n, p = Some a /\ cells w !! a = Some n
              /\ w' = set_cells (<[a := upd n]> (cells w)) w.
Proof.
  unfold store. destruct p as [a|]; [|discriminate].
  destruct (cells w !! a) as [n|] eqn:Hn; [|discriminate].
  intros [= _ <-]. eauto.
Qed.

Lemma load_Done {N A} (p : ptr) (field : N -> A) w x w' :
  load p field w = Done x w' ->
  exists a n, p = Some a /\ cells w !! a = Some n /\ x = field n /\ w' = w.
Proof.
  unfold load. destruct p as [a|]; [|discriminate].
  destruct (cells w !! a) as [n|] eqn:Hn; [|discriminate].
  intros [= <- <-]. eauto 6.
Qed.

Lemma set_cells_set_cells {N} (c c' : list N) w :
  set_cells c' (set_cells c w) = set_cells c' w.
Proof. reflexivity. Qed.

Lemma set_cells_id {N} (w : world N) : set_cells (cells w) w = w.
Proof. destruct w. reflexivity. Qed.

Lemma keeps_refl m : keeps m m.
Proof. repeat split. Qed.

Lemma keeps_trans m1 m2 m3 : keeps m1 m2 -> keeps m2 m3 -> keeps m1 m3.
Proof. unfold keeps. intros (?&?&?&?&?) (?&?&?&?&?). repeat split; congruence. Qed.

Lemma remove_stream_head h l : remove_stream h (h :: l) = l.
Proof. simpl. rewrite String.eqb_refl. reflexivity. Qed.

(** One conditional store of the loop, on the node as it stands. *)
Lemma when_strtod_step (w : world input_file) i m0 m b value
  (upd : R -> chimera -> chimera) :
  cells w !! i = Some m0 ->
  when b (v <- strtod value ;; store_daq (Some i) (upd v))
    (set_cells (<[i := m]> (cells w)) w)
  = match daq_update b (option_map value_strtod value) upd m with
    | Some m' => Done tt (set_cells (<[i := m']> (cells w)) w)
    | None => Fault NullDereference
    end.
Proof.
  intros Hi. pose proof (lookup_lt_Some _ _ _ Hi) as Hlt.
  unfold daq_update. destruct b; simpl.
  - destruct value as [v|]; simpl; [|reflexivity].
    unfold strtod, store_daq. unfold_layer. unfold set_cells. simpl.
    rewrite list_lookup_insert_eq by assumption.
    destruct (file_daqsetup m) as [c|]; simpl; [|reflexivity].
    rewrite list_lookup_insert_eq by assumption.
    rewrite list_insert_insert_eq. reflexivity.
  - reflexivity.
Qed.

Lemma when_strtol_step (w : world input_file) i m0 m b value
  (upd : Z -> chimera -> chimera) :
  cells w !! i = Some m0 ->
  when b (v <- strtol value ;; store_daq (Some i) (upd v))
    (set_cells (<[i := m]> (cells w)) w)
  = match daq_update b (option_map value_strtol value) upd m with
    | Some m' => Done tt (set_cells (<[i := m']> (cells w)) w)
    | None => Fault NullDereference
    end.
Proof.
  intros Hi. pose proof (lookup_lt_Some _ _ _ Hi) as Hlt.
  unfold daq_update. destruct b; simpl.
  - destruct value as [v|]; simpl; [|reflexivity].
    unfold strtol, store_daq. unfold_layer. unfold set_cells. simpl.
    rewrite list_lookup_insert_eq by assumption.
    destruct (file_daqsetup m) as [c|]; simpl; [|reflexivity].
    rewrite list_lookup_insert_eq by assumption.
    rewrite list_insert_insert_eq. reflexivity.
  - reflexivity.
Qed.

(** [read_setting] is [apply_setting] on the node, and a NULL dereference
    where that has no result. *)
Lemma read_setting_apply (w : world input_file) i m0 m l :
  cells w !! i = Some m0 ->
  read_setting (Some i) l (set_cells (<[i := m]> (cells w)) w)
  = match apply_setting l m with
    | Some m' => Done tt (set_cells (<[i := m']> (cells w)) w)
    | None => Fault NullDereference
    end.
Proof.
  intros Hi. pose proof (lookup_lt_Some _ _ _ Hi) as Hlt.
  unfold read_setting, apply_setting.
  destruct (line_name l) as [name|]; [|reflexivity]. cbn zeta.
  do 5 (unfold bind at 1; rewrite (when_strtod_step w i m0) by assumption;
        match goal with
        | |- context [daq_update ?b ?v ?u ?x] =>
            destruct (daq_update b v u x) as [?m|]; [|reflexivity]
        end; cbn [mbind option_bind]).
  destruct (String.eqb name "mytimestamp").
  - destruct (line_value l) as [v|]; simpl; [|reflexivity].
    unfold strtod. unfold_layer. unfold set_cells. simpl.
    rewrite list_lookup_insert_eq by assumption.
    rewrite list_insert_insert_eq. reflexivity.
  - rewrite (when_strtol_step w i m0) by assumption. reflexivity.
Qed.

Lemma daq_update_Some {V} b (value : option V) upd m m' :
  daq_update b value upd m = Some m' ->
  keeps m m' /\ file_timestamp m' = file_timestamp m
  /\ (is_Some (file_daqsetup m) -> is_Some (file_daqsetup m')).
Proof.
  unfold daq_update. destruct b.
  - destruct value as [v|]; [|discriminate].
    destruct (file_daqsetup m) as [c|]; [|discriminate].
    intros [= <-]. simpl. split; [repeat split|]. split; [reflexivity | eauto].
  - intros [= <-]. split; [apply keeps_refl | auto].
Qed.

Lemma apply_setting_Some l m m' :
  apply_setting l m = Some m' ->
  keeps m m'
  /\ file_timestamp m' = line_timestamp l (file_timestamp m)
  /\ (is_Some (file_daqsetup m) -> is_Some (file_daqsetup m')).
Proof.
  unfold apply_setting, line_timestamp.
  destruct (line_name l) as [name|]; [|discriminate]. cbn zeta.
  do 5 (match goal with
        | |- context [daq_update ?b ?v ?u ?x] =>
            let H := fresh "Hstep" in
            destruct (daq_update b v u x) as [?m|] eqn:H; [|discriminate];
            apply daq_update_Some in H; destruct H as (?Hk & ?Ht & ?Hd)
        end; cbn [mbind option_bind]).
  assert (keeps m m4) as Hkeep
    by (repeat (eapply keeps_trans; [eassumption|]); apply keeps_refl).
  assert (file_timestamp m4 = file_timestamp m) as Hts by congruence.
  assert (is_Some (file_daqsetup m) -> is_Some (file_daqsetup m4)) as Hdaq
    by auto 10.
  destruct (String.eqb name "mytimestamp").
  - destruct (line_value l) as [v|]; [|discriminate]. intros [= <-]. simpl.
    split; [exact Hkeep|]. split; [reflexivity | exact Hdaq].
  - intros Hlast. apply daq_update_Some in Hlast as (Hk' & Ht' & Hd').
    split; [eapply keeps_trans; eassumption|].
    split; [destruct (line_value l); congruence | auto].
Qed.

(** What a run of the loop over the settings file has done when it ends. *)
Lemma read_settings_Done i ls :
  forall m (w : world input_file) u w1,
    cells w !! i = Some m ->
    read_settings (Some i) ls w = Done u w1 ->
    exists m', w1 = set_cells (<[i := m']> (cells w)) w
               /\ keeps m m'
               /\ file_timestamp m' = settings_timestamp ls (file_timestamp m)
               /\ (is_Some (file_daqsetup m) -> is_Some (file_daqsetup m')).
Proof.
  induction ls as [|l ls IH]; intros m w u w1 Hm Hr; simpl in Hr.
  - unfold ret in Hr. injection Hr as _ <-. exists m.
    rewrite list_insert_id, set_cells_id by assumption.
    split; [reflexivity|]. split; [apply keeps_refl | auto].
  - pose proof (lookup_lt_Some _ _ _ Hm) as Hlt.
    apply bind_Done in Hr as (? & w0 & Hstep & Hr).
    pose proof (read_setting_apply w i m m l Hm) as Happly.
    rewrite list_insert_id, set_cells_id in Happly by assumption.
    rewrite Happly in Hstep.
    destruct (apply_setting l m) as [m1|] eqn:Hm1; [|discriminate].
    injection Hstep as _ <-.
    apply apply_setting_Some in Hm1 as (Hk1 & Ht1 & Hd1).
    assert (cells (set_cells (<[i := m1]> (cells w)) w) !! i = Some m1) as Hm1
      by (simpl; apply list_lookup_insert_eq; assumption).
    destruct (IH m1 _ _ _ Hm1 Hr) as (m' & -> & Hk & Ht & Hd).
    exists m'. simpl. rewrite list_insert_insert_eq.
    split; [reflexivity|]. split; [eapply keeps_trans; eassumption|].
    split; [rewrite Ht, Ht1; reflexivity | auto].
Qed.

Lemma add_input_file_settings_Done (w w2 : world input_file) (i : nat) m0
  settingsname datatype :
  cells w !! i = Some m0 ->
  add_input_file_settings (Some i) settingsname datatype w = Done true w2 ->
  exists m', w2 = set_cells (<[i := m']> (cells w)) w
    /\ keeps m0 m'
    /\ (datatype <> CHIMERA -> m' = m0)
    /\ (datatype = CHIMERA ->
        errorcode w = 0
        /\ exists simg, files w settingsname = Some simg
             /\ file_timestamp m'
                = settings_timestamp (file_lines simg) (file_timestamp m0)).
Proof.
  intros Hi H. unfold add_input_file_settings in H.
  destruct (datatype =? CHIMERA) eqn:Hdt.
  - apply Z.eqb_eq in Hdt.
    apply bind_Done in H as (settings & w1 & Hopen & H).
    unfold fopen64_and_check, fopen64, fatal, bind, ret in Hopen.
    destruct (files w settingsname) as [img|] eqn:Himg.
    + injection Hopen as <- <-.
      apply bind_Done in H as (e & ? & [= <- <-] & H).
      simpl in H. destruct (errorcode w =? 0) eqn:He; simpl in H.
      * apply bind_Done in H as (ls & ? & Hls & H).
        unfold lines_of in Hls. simpl in Hls. rewrite Himg in Hls.
        injection Hls as <- <-.
        apply bind_Done in H as (? & w3 & Hread & H).
        apply bind_Done in H as (? & w4 & Hclose & [= <-]).
        injection Hclose as <- <-.
        apply read_settings_Done with (m := m0) in Hread; [|assumption].
        destruct Hread as (m' & -> & Hk & Ht & _).
        unfold fclose, set_streams, set_cells. simpl.
        rewrite String.eqb_refl. apply Z.eqb_eq in He.
        exists m'. split; [destruct w; reflexivity|]. split; [assumption|].
        split; [congruence|]. intros _. split; [assumption|].
        exists img. split; [reflexivity | assumption].
      * apply bind_Done in H as (? & ? & _ & [= ]).
    + injection Hopen as <- <-.
      apply bind_Done in H as (e & ? & [= <- <-] & H). simpl in H.
      apply bind_Done in H as (? & ? & _ & [= ]).
  - apply Z.eqb_neq in Hdt. injection H as <-. exists m0.
    rewrite list_insert_id, set_cells_id by assumption.
    split; [reflexivity|]. split; [apply keeps_refl|].
    split; [reflexivity | contradiction].
Qed.

Lemma add_input_file_probe_Done (w w' : world input_file) (a i : nat)
  (headflag : bool) filename datatype bincfg n m1 q :
  cells w !! a = Some n ->
  cells w !! i = Some m1 ->
  (if headflag then i = a else i <> a) ->
  add_input_file_probe (Some a) (Some i) headflag filename datatype bincfg w
  = Done (Some q) w' ->
  exists (img : file_image) (ssb hdr : Z) (m : input_file),
    q = i
    /\ w' = set_cells (if headflag then <[i := m]> (cells w)
                       else <[a := set_next (Some i) n]> (<[i := m]> (cells w))) w
    /\ files w filename = Some img /\ errorcode w = 0
    /\ ((datatype = CHIMERA /\ ssb = 2 /\ hdr = 0
         /\ file_timestamp m = file_timestamp m1)
        \/ (datatype = BINARY
            /\ exists cfg, bincfg = Some cfg
                 /\ ssb = to_uint16 (bin_data_size cfg * bin_n_arrays cfg)
                 /\ hdr = bin_header_bytes cfg
                 /\ file_timestamp m = (file_timestamp n + 1)%R))
    /\ ssb <> 0
    /\ file_length m = Z.quot (file_bytes img - hdr) ssb
    /\ file_data_file m = None
    /\ file_next m = file_next m1
    /\ file_offset m = file_offset m1
    /\ file_daqsetup m = file_daqsetup m1
    /\ file_datafilename m = strncpy filename (STRLENGTH - 1).
Proof.
  intros Ha Hi Hflag H.
  pose proof (lookup_lt_Some _ _ _ Ha) as Hla.
  pose proof (lookup_lt_Some _ _ _ Hi) as Hli.
  destruct w as [e plan c f s]. simpl in *.
  unfold add_input_file_probe in H.
  apply bind_Done in H as ([ssb hdr] & w1 & Hsizes & H).
  unfold sample_and_header_bytes in Hsizes.
  destruct (datatype =? CHIMERA) eqn:Hdt.
  - (* the instrument format *)
    apply Z.eqb_eq in Hdt. injection Hsizes as <- <- <-.
    unfold_layer. unfold set_cells, set_streams in H. run_stores H.
    destruct (f filename) as [img|] eqn:Himg; run_stores H; [|discriminate].
    destruct (e =? 0) eqn:He; run_stores H; [|discriminate].
    apply Z.eqb_eq in He. rewrite !list_insert_insert_eq in H.
    destruct headflag; run_stores H.
    + injection H as <- <-. eexists img, 2, 0, _.
      split; [reflexivity|]. split; [reflexivity|]. split; [reflexivity|].
      split; [assumption|]. split; [left; repeat split; assumption|].
      split; [discriminate|]. repeat split.
    + injection H as <- <-. eexists img, 2, 0, _.
      split; [reflexivity|]. split; [reflexivity|]. split; [reflexivity|].
      split; [assumption|]. split; [left; repeat split; assumption|].
      split; [discriminate|]. repeat split.
  - destruct (datatype =? BINARY) eqn:Hbin.
    + (* the generic format *)
      apply Z.eqb_eq in Hbin. destruct bincfg as [cfg|]; [|discriminate].
      injection Hsizes as <- <- <-.
      unfold_layer. unfold set_cells, set_streams in H. run_stores H.
      destruct (f filename) as [img|] eqn:Himg; run_stores H; [|discriminate].
      destruct (e =? 0) eqn:He; run_stores H; [|discriminate].
      destruct (to_uint16 (bin_data_size cfg * bin_n_arrays cfg) =? 0) eqn:Hssb;
        [discriminate|].
      apply Z.eqb_eq in He. apply Z.eqb_neq in Hssb.
      destruct headflag.
      * subst i. assert (m1 = n) as -> by congruence. run_stores H. rewrite !list_insert_insert_eq in H.
        injection H as <- <-. eexists img, _, _, _.
        split; [reflexivity|]. split; [reflexivity|]. split; [reflexivity|].
        split; [assumption|].
        split; [right; split; [assumption|]; exists cfg; repeat split|].
        split; [assumption|]. repeat split.
      * run_stores H. rewrite !list_insert_insert_eq in H.
        injection H as <- <-. eexists img, _, _, _.
        split; [reflexivity|]. split; [reflexivity|]. split; [reflexivity|].
        split; [assumption|].
        split; [right; split; [assumption|]; exists cfg; repeat split|].
        split; [assumption|]. repeat split.
    + (* any other format: ERR_DATA *)
      injection Hsizes as <- <- <-.
      unfold_layer. unfold set_cells, set_streams, set_errorcode in H. run_stores H.
      destruct (f filename) as [img|] eqn:Himg; run_stores H; discriminate.
Qed.

Lemma add_input_file_fill_Done (w w' : world input_file) (a i : nat)
  (headflag : bool) filename settingsname datatype bincfg n n0 q :
  cells w !! a = Some n ->
  cells w !! i = Some n0 ->
  (if headflag then i = a else i <> a) ->
  add_input_file_fill (Some a) (Some i) headflag filename settingsname datatype
    bincfg w = Done (Some q) w' ->
  exists (img : file_image) (ssb hdr : Z) (m : input_file),
    q = i
    /\ w' = set_cells (if headflag then <[i := m]> (cells w)
                       else <[a := set_next (Some i) n]> (<[i := m]> (cells w))) w
    /\ files w filename = Some img /\ errorcode w = 0
    /\ ((datatype = CHIMERA /\ ssb = 2 /\ hdr = 0
         /\ exists simg, files w settingsname = Some simg
              /\ file_timestamp m
                 = settings_timestamp (file_lines simg) (file_timestamp n0))
        \/ (datatype = BINARY
            /\ exists cfg, bincfg = Some cfg
                 /\ ssb = to_uint16 (bin_data_size cfg * bin_n_arrays cfg)
                 /\ hdr = bin_header_bytes cfg
                 /\ file_timestamp m = (file_timestamp n + 1)%R))
    /\ ssb <> 0
    /\ file_length m = Z.quot (file_bytes img - hdr) ssb
    /\ file_data_file m = None
    /\ file_next m = file_next n0
    /\ file_datafilename m = strncpy filename (STRLENGTH - 1).
Proof.
  intros Ha Hi Hflag H.
  pose proof (lookup_lt_Some _ _ _ Ha) as Hla.
  pose proof (lookup_lt_Some _ _ _ Hi) as Hli.
  unfold add_input_file_fill in H.
  apply bind_Done in H as (? & w1 & Hst & H).
  apply store_Done in Hst as (? & ? & [= <-] & Hn0 & ->).
  rewrite Hi in Hn0. injection Hn0 as <-.
  apply bind_Done in H as (parsed & w2 & Hparse & H).
  destruct parsed; simpl in H; [|discriminate].
  set (m0 := set_offset 0 n0) in *.
  assert (cells (set_cells (<[i:=m0]> (cells w)) w) !! i = Some m0) as Hm0
    by (simpl; apply list_lookup_insert_eq; assumption).
  destruct (add_input_file_settings_Done _ _ _ _ _ _ Hm0 Hparse)
    as (m1 & -> & Hk & Hsame & Hsettings).
  simpl in H, Hsettings. rewrite list_insert_insert_eq in H.
  destruct Hk as (Hk1 & Hk2 & Hk3 & Hk4 & Hk5).
  destruct headflag.
  - subst i. assert (n0 = n) as -> by congruence.
    eapply add_input_file_probe_Done with (n := m1) (m1 := m1) (headflag := true)
      in H; [| simpl; apply list_lookup_insert_eq; assumption ..| reflexivity].
    destruct H as (img & ssb & hdr & m & -> & -> & Himg & He & Hfmt & Hssb
                   & Hl & Hd & Hn & _ & _ & Hf).
    simpl in *. rewrite list_insert_insert_eq.
    exists img, ssb, hdr, m.
    split; [reflexivity|]. split; [reflexivity|]. split; [assumption|].
    split; [assumption|]. split.
    { destruct Hfmt as [(Hc & -> & -> & Ht) | (Hb & cfg & -> & -> & -> & Ht)].
      - left. destruct (Hsettings Hc) as (_ & simg & Hsimg & Hts).
        repeat (split; [assumption || reflexivity|]).
        exists simg. split; [assumption|]. rewrite Ht, Hts. reflexivity.
      - right. split; [assumption|]. exists cfg. repeat split.
        rewrite Ht. f_equal.
        assert (datatype <> CHIMERA) as Hne by (rewrite Hb; discriminate).
        rewrite (Hsame Hne). reflexivity. }
    split; [assumption|]. split; [assumption|]. split; [assumption|].
    split; [congruence | assumption].
  - eapply add_input_file_probe_Done with (n := n) (m1 := m1) (headflag := false)
      in H; [| simpl; try (rewrite list_lookup_insert_ne by lia; assumption);
               try (apply list_lookup_insert_eq; assumption) ..| assumption].
    destruct H as (img & ssb & hdr & m & -> & -> & Himg & He & Hfmt & Hssb
                   & Hl & Hd & Hn & _ & _ & Hf).
    simpl in *. rewrite list_insert_insert_eq.
    exists img, ssb, hdr, m.
    split; [reflexivity|]. split; [reflexivity|]. split; [assumption|].
    split; [assumption|]. split.
    { destruct Hfmt as [(Hc & -> & -> & Ht) | (Hb & cfg & -> & -> & -> & Ht)].
      - left. destruct (Hsettings Hc) as (_ & simg & Hsimg & Hts).
        repeat (split; [assumption || reflexivity|]).
        exists simg. split; [assumption|]. rewrite Ht, Hts. reflexivity.
      - right. split; [assumption|]. exists cfg. repeat split. assumption. }
    split; [assumption|]. split; [assumption|]. split; [assumption|].
    split; [congruence | assumption].
Qed.

Lemma add_input_file_insert_Done (w w1 : world input_file) (a : nat) datatype n
  ins headflag :
  cells w !! a = Some n ->
  add_input_file_insert (Some a) datatype w = Done (Some (ins, headflag)) w1 ->
  (Rgtb (file_timestamp n) 0 = false /\ ins = Some a /\ headflag = true /\ w1 = w)
  \/ (Rgtb (file_timestamp n) 0 = true /\ ins = Some (length (cells w))
      /\ headflag = false
      /\ exists n0 plan',
           w1 = World (errorcode w) plan' (cells w ++ [n0]) (files w) (streams w)
           /\ file_next n0 = None /\ file_timestamp n0 = 0%R).
Proof.
  intros Ha H. pose proof (lookup_lt_Some _ _ _ Ha) as Hla.
  destruct w as [e plan c f s]. simpl in *.
  unfold add_input_file_insert in H.
  apply bind_Done in H as (fresh_needed & w0 & Hl & H).
  apply bind_Done in Hl as (t & ? & Hl & [= <- <-]).
  apply load_Done in Hl as (? & ? & [= <-] & Hn & -> & ->).
  simpl in Hn. rewrite Ha in Hn. injection Hn as <-.
  destruct (Rgtb (file_timestamp n) 0).
  - right. unfold_layer. unfold set_cells, set_calloc_plan, set_errorcode in H.
    simpl in H.
    destruct (hd true plan); simpl in H; [|discriminate].
    rewrite lookup_app_r, Nat.sub_diag in H by lia. simpl in H.
    destruct (e =? 0) eqn:He; simpl in H; [|discriminate].
    destruct (datatype =? CHIMERA); simpl in H.
    + destruct (hd true (tl plan)); run_stores H; rewrite ?He in H; run_stores H.
      * injection H as <- <- <-. repeat split.
        eexists _, _. rewrite !list_insert_insert_eq.
        rewrite (insert_app_r_alt c) by lia. rewrite Nat.sub_diag. simpl.
        split; [reflexivity | split; reflexivity].
      * discriminate.
    + run_stores H. injection H as <- <- <-. repeat split.
      eexists _, _. rewrite !list_insert_insert_eq.
      rewrite (insert_app_r_alt c) by lia. rewrite Nat.sub_diag. simpl.
      split; [reflexivity | split; reflexivity].
  - left. injection H as <- <- <-. auto.
Qed.

(** What a successful call of [add_input_file] has done. *)
Lemma add_input_file_Done (w w' : world input_file) (a : nat) filename
  settingsname datatype bincfg n q :
  cells w !! a = Some n ->
  add_input_file (Some a) filename settingsname datatype bincfg w
  = Done (Some q) w' ->
  exists (img : file_image) (ssb hdr : Z) (m : input_file) (plan' : list bool),
    files w filename = Some img /\ errorcode w = 0
    /\ ((datatype = CHIMERA /\ ssb = 2 /\ hdr = 0
         /\ exists simg, files w settingsname = Some simg
              /\ file_timestamp m
                 = settings_timestamp (file_lines simg)
                     (if Rgtb (file_timestamp n) 0 then 0%R
                      else file_timestamp n))
        \/ (datatype = BINARY
            /\ exists cfg, bincfg = Some cfg
                 /\ ssb = to_uint16 (bin_data_size cfg * bin_n_arrays cfg)
                 /\ hdr = bin_header_bytes cfg
                 /\ file_timestamp m = (file_timestamp n + 1)%R))
    /\ ssb <> 0
    /\ file_length m = Z.quot (file_bytes img - hdr) ssb
    /\ file_data_file m = None
    /\ file_datafilename m = strncpy filename (STRLENGTH - 1)
    /\ if Rgtb (file_timestamp n) 0
       then q = length (cells w)
            /\ file_next m = None
            /\ w' = World 0 plan' (<[a := set_next (Some q) n]> (cells w) ++ [m])
                      (files w) (streams w)
       else q = a
            /\ file_next m = file_next n
            /\ w' = set_cells (<[a := m]> (cells w)) w.
Proof.
  intros Ha H. pose proof (lookup_lt_Some _ _ _ Ha) as Hla.
  unfold add_input_file in H.
  apply bind_Done in H as (allocated & w1 & Hins & H).
  destruct allocated as [[ins headflag]|]; [|discriminate].
  destruct (add_input_file_insert_Done _ _ _ _ _ _ _ Ha Hins)
    as [(Hgt & -> & -> & ->)
       | (Hgt & -> & -> & n0 & plan' & -> & Hnext & Hzero)].
  - apply add_input_file_fill_Done with (n := n) (n0 := n) in H;
      [| assumption | assumption | reflexivity].
    destruct H as (img & ssb & hdr & m & -> & -> & Himg & He & Hfmt & Hssb
                   & Hl & Hd & Hn & Hf).
    exists img, ssb, hdr, m, [].
    rewrite Hgt. repeat (split; [assumption|]). auto.
  - apply add_input_file_fill_Done with (n := n) (n0 := n0) in H;
      [| simpl; rewrite lookup_app_l by lia; assumption
       | simpl; rewrite lookup_app_r, Nat.sub_diag by lia; reflexivity
       | lia].
    destruct H as (img & ssb & hdr & m & -> & -> & Himg & He & Hfmt & Hssb
                   & Hl & Hd & Hn & Hf).
    simpl in *. exists img, ssb, hdr, m, plan'.
    rewrite Hgt. rewrite Hzero in Hfmt. repeat (split; [assumption|]).
    split; [reflexivity|]. split; [congruence|].
    unfold set_cells. simpl. rewrite He. f_equal.
    rewrite (insert_app_r_alt (cells w)) by lia. rewrite Nat.sub_diag. simpl.
    apply insert_app_l. assumption.
Qed.

Lemma Rgtb_0_0 : Rgtb 0 0 = false.
Proof. unfold Rgtb. destruct (Rgt_dec 0 0); [lra | reflexivity]. Qed.

Lemma Rgtb_pos (t : R) : (0 < t)%R -> Rgtb t 0 = true.
Proof. intros H. unfold Rgtb. destruct (Rgt_dec t 0); [reflexivity | lra]. Qed.

(** A registration in the generic format on a fresh head, computed. *)
Lemma add_input_file_run1 :
  initialize_input_files BINARY disk_world = Done (Some 0%nat) binary_head_world
  /\ add_input_file (Some 0%nat) "run1.log" "" BINARY (Some plain_decoder)
       binary_head_world
     = Done (Some 0%nat)
         (World 0 [] [InputFile None "run1.log" (0 + 1)%R 500 0 None None]
            two_traces []).
Proof.
  split; [reflexivity|].
  unfold add_input_file, add_input_file_insert. unfold_layer. simpl.
  rewrite Rgtb_0_0. reflexivity.
Qed.

(** C7, as stated, fails: [sample_size_bytes] is a [uint16_t].  With 8193
    arrays of 8 bytes the product 65544 is stored as 8, and a file of 655440
    bytes is registered with 81930 samples where the formula of the claim
    gives 10. *)
Lemma add_input_file_length_wraps :
  add_input_file (Some 0%nat) "wide.log" "" BINARY (Some wide_decoder)
    wide_head_world
  = Done (Some 0%nat)
      (World 0 [] [InputFile None "wide.log" (0 + 1)%R 81930 0 None None]
         wide_trace [])
  /\ Z.quot (655440 - bin_header_bytes wide_decoder)
            (bin_n_arrays wide_decoder * bin_data_size wide_decoder) = 10.
Proof.
  split; [|reflexivity].
  unfold add_input_file, add_input_file_insert. unfold_layer. simpl.
  rewrite Rgtb_0_0. reflexivity.
Qed.

(** C7 (amended): the node of a registered file has the length
    [(fileSizeBytes - headerBytes) / sampleSizeBytes], the division rounding
    toward zero, with 2 and 0 for the instrument format and, for the generic
    format, the configured header and [data_size * n_arrays] as the
    [uint16_t] that receives it holds it: reduced modulo 65536, and the
    product itself when that is below 65536.  The file is closed again and
    the node has no handle. *)
Theorem add_input_file_length (w w' : world input_file) current filename
  settingsname datatype bincfg q :
  add_input_file current filename settingsname datatype bincfg w
  = Done (Some q) w' ->
  exists img m,
    files w filename = Some img
    /\ cells w' !! q = Some m
    /\ file_data_file m = None
    /\ streams w' = streams w
    /\ ((datatype = CHIMERA
         /\ file_length m = Z.quot (file_bytes img - 0) 2)
        \/ (datatype = BINARY
            /\ exists cfg,
                 bincfg = Some cfg
                 /\ file_length m
                    = Z.quot (file_bytes img - bin_header_bytes cfg)
                             (to_uint16 (bin_data_size cfg * bin_n_arrays cfg))
                 /\ (0 <= bin_data_size cfg * bin_n_arrays cfg < 2 ^ 16 ->
                     file_length m
                     = Z.quot (file_bytes img - bin_header_bytes cfg)
                              (bin_data_size cfg * bin_n_arrays cfg)))).
Proof.
  intros H.
  destruct current as [a|]; [|discriminate].
  destruct (cells w !! a) as [n|] eqn:Ha.
  2:{ unfold add_input_file, add_input_file_insert in H. unfold_layer.
      rewrite Ha in H. discriminate. }
  pose proof (lookup_lt_Some _ _ _ Ha) as Hla.
  destruct (add_input_file_Done _ _ _ _ _ _ _ _ _ Ha H)
    as (img & ssb & hdr & m & plan' & Himg & He & Hfmt & Hssb & Hl & Hd & _ & Hq).
  exists img, m. split; [assumption|].
  assert (cells w' !! q = Some m /\ streams w' = streams w) as [Hm Hs].
  { destruct (Rgtb (file_timestamp n) 0).
    - destruct Hq as (-> & _ & ->). simpl. split; [|reflexivity].
      rewrite lookup_app_r by (rewrite length_insert; lia).
      rewrite length_insert, Nat.sub_diag. reflexivity.
    - destruct Hq as (-> & _ & ->). simpl. split; [|reflexivity].
      apply list_lookup_insert_eq. assumption. }
  split; [assumption|]. split; [assumption|]. split; [assumption|].
  destruct Hfmt as [(-> & -> & -> & _) | (-> & cfg & -> & -> & -> & _)].
  - left. auto.
  - right. split; [reflexivity|]. exists cfg. split; [reflexivity|].
    split; [assumption|]. intros Hrange.
    rewrite Hl. unfold to_uint16. rewrite Z.mod_small by assumption.
    reflexivity.
Qed.

Lemma add_input_file_length_witness :
  exists w2 m,
    add_input_file (Some 0%nat) "run1.log" "" BINARY (Some plain_decoder)
      binary_head_world = Done (Some 0%nat) w2
    /\ cells w2 !! 0%nat = Some m
    /\ file_length m = 500
    /\ file_data_file m = None.
Proof.
  pose proof (proj2 add_input_file_run1) as Hrun.
  destruct (add_input_file_length _ _ _ _ _ _ _ _ Hrun)
    as (img & m & Himg & Hm & Hd & _ & Hfmt).
  eexists _, m. split; [exact Hrun|]. split; [exact Hm|]. split; [|exact Hd].
  destruct Hfmt as [(Hc & _) | (_ & cfg & Hcfg & _ & Hl)]; [discriminate|].
  injection Hcfg as <-. rewrite Hl by (simpl; lia).
  injection Himg as <-. reflexivity.
Defined.

(** ** Timestamps and the order of the registry *)

(** C3, as stated, fails: in the instrument format the timestamp is written
    only from a [mytimestamp] line.  Without one it keeps the 0 of the
    fresh node, not [previous.timestamp + 1]; the node then still counts as
    unfilled, the second registration overwrites it, and the registry holds
    one file of 300 samples instead of two with 800. *)
Lemma chimera_timestamp_not_advanced :
  initialize_input_files CHIMERA disk_world = Done (Some 0%nat) chimera_head_world
  /\ add_input_file (Some 0%nat) "run1.log" "run1.settings" CHIMERA None
       chimera_head_world
     = Done (Some 0%nat) chimera_run1_world
  /\ (exists m, cells chimera_run1_world !! 0%nat = Some m
                /\ file_timestamp m = 0%R /\ file_timestamp m <> (0 + 1)%R)
  /\ add_input_file (Some 0%nat) "run2.log" "run2.settings" CHIMERA None
       chimera_run1_world
     = Done (Some 0%nat) chimera_run2_world
  /\ registered_files 2 (cells chimera_run2_world) (Some 0%nat)
     = Some [InputFile None "run2.log" 0%R 300 0
               (Some (Chimera 4000000%R 0%R 0%R 0%R 0%R 14)) None]
  /\ get_filesize 2 (cells chimera_run2_world) (Some 0%nat) = Some 300.
Proof.
  split; [reflexivity|]. split.
  { unfold add_input_file, add_input_file_insert. unfold_layer. simpl.
    rewrite Rgtb_0_0. reflexivity. }
  split.
  { eexists. split; [reflexivity|]. split; [reflexivity|]. simpl. lra. }
  split.
  { unfold add_input_file, add_input_file_insert. unfold_layer. simpl.
    rewrite Rgtb_0_0. reflexivity. }
  split; reflexivity.
Qed.

Lemma registered_files_run h a0 n :
  file_run h a0 n ->
  forall k i fuel,
    (i + k = n)%nat -> (0 < k)%nat -> (k <= fuel)%nat ->
    exists l,
      registered_files fuel h (Some (a0 + i)%nat) = Some l
      /\ length l = k
      /\ (forall j, (j < k)%nat -> l !! j = h !! (a0 + i + j)%nat)
      /\ forall acc, get_filesize_loop fuel h (Some (a0 + i)%nat) acc
                     = Some (acc + sum_lengths l).
Proof.
  intros Hrun. induction k as [|k IH]; intros i fuel Hik Hk Hfuel; [lia|].
  destruct fuel as [|fuel]; [lia|].
  destruct (Hrun i) as (m & Hm & Hnext); [lia|].
  simpl. rewrite Hm, Hnext.
  destruct (decide (S i < n)%nat) as [Hlt|Hge].
  - destruct (IH (S i) fuel) as (l & Hl & Hlen & Hlook & Hsum); try lia.
    rewrite Hl. exists (m :: l). split; [reflexivity|]. split; [simpl; lia|]. split.
    + intros [|j] Hj; simpl.
      * rewrite Nat.add_0_r. symmetry. assumption.
      * rewrite Hlook by lia. f_equal. lia.
    + intros acc. rewrite Hsum. simpl. f_equal. lia.
  - assert (k = 0)%nat as -> by lia.
    exists [m]. destruct fuel; simpl.
    + split; [reflexivity|]. split; [reflexivity|]. split.
      * intros j Hj. assert (j = 0)%nat as -> by lia. simpl.
        rewrite Nat.add_0_r. symmetry. assumption.
      * intros acc. f_equal. lia.
    + split; [reflexivity|]. split; [reflexivity|]. split.
      * intros j Hj. assert (j = 0)%nat as -> by lia. simpl.
        rewrite Nat.add_0_r. symmetry. assumption.
      * intros acc. f_equal. lia.
Qed.

Lemma initialize_input_files_list w head w1 cfg :
  initialize_input_files BINARY w = Done (Some head) w1 ->
  file_list (length (cells w)) (files w) cfg [] head w1.
Proof.
  unfold initialize_input_files. unfold_layer.
  destruct (_ && hd true (calloc_plan w)) eqn:Hgrant; simpl; [|discriminate].
  destruct (errorcode w =? 0) eqn:He; simpl; [|discriminate].
  apply Z.eqb_eq in He.
  rewrite lookup_app_r, Nat.sub_diag by lia. simpl.
  rewrite list_lookup_insert_eq by (rewrite length_app; simpl; lia). simpl.
  rewrite list_lookup_insert_eq by (rewrite length_insert, length_app; simpl; lia).
  intros [= <- <-]. rewrite !list_insert_insert_eq.
  split; simpl.
  - assumption.
  - reflexivity.
  - rewrite length_insert, length_app. simpl. lia.
  - lia.
  - intros i Hi. assert (i = 0)%nat as -> by lia. rewrite Nat.add_0_r.
    eexists. split; [apply list_lookup_insert_eq; rewrite length_app; simpl; lia|].
    reflexivity.
  - intros _. eexists.
    split; [apply list_lookup_insert_eq; rewrite length_app; simpl; lia|].
    reflexivity.
  - intros i r Hr. rewrite lookup_nil in Hr. discriminate.
Qed.

Lemma add_input_file_list a0 disk cfg rs tail w r q w' :
  file_list a0 disk cfg rs tail w ->
  add_input_file (Some tail) r.1 r.2 BINARY (Some cfg) w = Done (Some q) w' ->
  file_list a0 disk cfg (rs ++ [r]) q w'.
Proof.
  intros [Herr Hfiles Hlen Htail Hlinks Hhead Hnodes] Hadd.
  destruct (Hlinks (Nat.max 1 (length rs) - 1)%nat) as (n & Hn & Hnext); [lia|].
  replace (a0 + (Nat.max 1 (length rs) - 1))%nat with tail in Hn by lia.
  destruct (decide (S (Nat.max 1 (length rs) - 1) < Nat.max 1 (length rs))%nat)
    as [?|_]; [lia|].
  destruct (add_input_file_Done _ _ _ _ _ _ _ _ _ Hn Hadd)
    as (img & ssb & hdr & m & plan' & Himg & _ & Hfmt & Hssb & Hl & _ & Hf & Hq).
  destruct Hfmt as [(Hc & _) | (_ & cfg' & [= <-] & -> & -> & Ht)]; [discriminate|].
  assert (file_length m = samples_of disk cfg r.1) as Hsamples.
  { unfold samples_of. rewrite <- Hfiles, Himg. assumption. }
  destruct (decide (rs = [])) as [->|Hne].
  - (* the first registration fills the head *)
    destruct (Hhead eq_refl) as (n' & Hn' & Hzero). simpl in *.
    assert (tail = a0) as -> by lia.
    rewrite Hn in Hn'. injection Hn' as <-.
    rewrite Hzero, Rgtb_0_0 in Hq. destruct Hq as (-> & Hmnext & ->).
    split; simpl.
    + assumption.
    + assumption.
    + rewrite length_insert. lia.
    + lia.
    + intros i Hi. assert (i = 0)%nat as -> by lia. rewrite Nat.add_0_r.
      exists m. split; [apply list_lookup_insert_eq; lia|].
      rewrite Hmnext, Hnext. case_decide; [lia | reflexivity].
    + discriminate.
    + intros [|i] r' Hr'; simpl in Hr'; [|rewrite lookup_nil in Hr'; discriminate].
      injection Hr' as <-. rewrite Nat.add_0_r.
      exists m. split; [apply list_lookup_insert_eq; lia|].
      split; [rewrite Ht, Hzero; replace (Z.of_nat 0 + 1) with 1 by lia; lra|]. auto.
  - (* a later registration allocates behind the tail *)
    assert (0 < length rs)%nat as Hpos by (destruct rs; [contradiction | simpl; lia]).
    replace (Nat.max 1 (length rs)) with (length rs) in * by lia.
    destruct (lookup_lt_is_Some_2 rs (length rs - 1)) as [r1 Hr1]; [lia|].
    destruct (Hnodes _ _ Hr1) as (n' & Hn' & Hts & _).
    replace (a0 + (length rs - 1))%nat with tail in Hn' by lia.
    rewrite Hn in Hn'. injection Hn' as <-.
    replace (Z.of_nat (length rs - 1) + 1) with (Z.of_nat (length rs)) in Hts by lia.
    rewrite Rgtb_pos in Hq by (rewrite Hts; apply IZR_lt; lia).
    destruct Hq as (-> & Hmnext & ->).
    split; simpl.
    + reflexivity.
    + assumption.
    + rewrite !length_app, length_insert. simpl. lia.
    + rewrite length_app. simpl. lia.
    + rewrite length_app. simpl.
      replace (Nat.max 1 (length rs + 1)) with (S (length rs)) by lia.
      intros i Hi. destruct (decide (i = length rs)) as [->|Hi'].
      * exists m. split.
        -- rewrite lookup_app_r by (rewrite length_insert; lia).
           rewrite length_insert. replace (a0 + length rs - length (cells w))%nat
             with 0%nat by lia. reflexivity.
        -- rewrite Hmnext. case_decide; [lia | reflexivity].
      * destruct (decide (a0 + i = tail)%nat) as [Heq|Hneq].
        -- exists (set_next (Some (length (cells w))) n). split.
           ++ rewrite lookup_app_l by (rewrite length_insert; lia).
              rewrite Heq. apply list_lookup_insert_eq. lia.
           ++ simpl. case_decide; [f_equal; lia | lia].
        -- destruct (Hlinks i) as (mi & Hmi & Hni); [lia|].
           exists mi. split.
           ++ rewrite lookup_app_l by (rewrite length_insert; lia).
              rewrite list_lookup_insert_ne by lia. assumption.
           ++ rewrite Hni. repeat case_decide; (reflexivity || lia).
    + intros Hnil. destruct rs; discriminate.
    + intros i r' Hr'.
      destruct (decide (i < length rs)%nat) as [Hi|Hi].
      * rewrite lookup_app_l in Hr' by assumption.
        destruct (Hnodes _ _ Hr') as (mi & Hmi & Hti & Hfi & Hli).
        destruct (decide (a0 + i = tail)%nat) as [Heq|Hneq].
        -- exists (set_next (Some (length (cells w))) n). split.
           ++ rewrite lookup_app_l by (rewrite length_insert; lia).
              rewrite Heq. apply list_lookup_insert_eq. lia.
           ++ rewrite Heq in Hmi. rewrite Hn in Hmi. injection Hmi as <-.
              simpl. auto.
        -- exists mi. split.
           ++ rewrite lookup_app_l by (rewrite length_insert; lia).
              rewrite list_lookup_insert_ne by lia. assumption.
           ++ auto.
      * pose proof (lookup_lt_Some _ _ _ Hr') as Hlt.
        rewrite length_app in Hlt. simpl in Hlt.
        assert (i = length rs) as -> by lia.
        rewrite lookup_app_r, Nat.sub_diag in Hr' by lia. injection Hr' as <-.
        exists m. split.
        -- rewrite lookup_app_r by (rewrite length_insert; lia).
           rewrite length_insert. replace (a0 + length rs - length (cells w))%nat
             with 0%nat by lia. reflexivity.
        -- split; [|auto]. rewrite Ht, Hts, <- plus_IZR. f_equal. 
Qed.

Lemma add_input_files_list rs :
  forall a0 disk cfg done tail w tail' w',
    file_list a0 disk cfg done tail w ->
    add_input_files rs (Some tail) BINARY (Some cfg) w = Done (Some tail') w' ->
    file_list a0 disk cfg (done ++ rs) tail' w'.
Proof.
  induction rs as [|r rs IH]; intros a0 disk cfg done tail w tail' w' Hinv; simpl.
  - unfold ret. intros [= <- <-]. rewrite app_nil_r. assumption.
  - unfold bind at 1.
    destruct (add_input_file _ _ _ _ _ w) as [[t|] w1|] eqn:Hadd; try discriminate.
    intros Hrest.
    replace (done ++ r :: rs) with ((done ++ [r]) ++ rs)
      by (rewrite <- app_assoc; reflexivity).
    eapply IH; [|eassumption].
    eapply add_input_file_list; eassumption.
Qed.

Lemma binary_registrations (w w1 w2 : world input_file) head tail rs cfg fuel :
  initialize_input_files BINARY w = Done (Some head) w1 ->
  rs <> [] ->
  add_input_files rs (Some head) BINARY (Some cfg) w1 = Done (Some tail) w2 ->
  (length rs <= fuel)%nat ->
  exists nodes,
    registered_files fuel (cells w2) (Some head) = Some nodes
    /\ length nodes = length rs
    /\ (forall i m, nodes !! i = Some m ->
          file_timestamp m = IZR (Z.of_nat i + 1)
          /\ exists r, rs !! i = Some r
                       /\ file_datafilename m = strncpy r.1 (STRLENGTH - 1)
                       /\ file_length m = samples_of (files w) cfg r.1)
    /\ get_filesize fuel (cells w2) (Some head) = Some (sum_lengths nodes).
Proof.
  intros Hinit Hne Hadd Hfuel.
  pose proof (initialize_input_files_list _ _ _ cfg Hinit) as H1.
  pose proof (add_input_files_list _ _ _ _ _ _ _ _ _ H1 Hadd) as H2.
  destruct H1 as [_ _ _ Hhead _ _ _]. simpl in Hhead, H2.
  destruct H2 as [_ _ Hlen _ Hlinks _ Hnodes].
  assert (0 < length rs)%nat as Hpos by (destruct rs; [contradiction | simpl; lia]).
  replace (Nat.max 1 (length rs)) with (length rs) in * by lia.
  assert (head = length (cells w)) as -> by lia.
  destruct (registered_files_run _ _ _ Hlinks (length rs) 0%nat fuel)
    as (nodes & Hwalk & Hnlen & Hlook & Hsum); try lia.
  rewrite Nat.add_0_r in Hwalk, Hsum.
  exists nodes. split; [assumption|]. split; [assumption|]. split.
  - intros i m Hm. pose proof (lookup_lt_Some _ _ _ Hm) as Hi.
    rewrite Hlook in Hm by lia. rewrite Nat.add_0_r in Hm.
    destruct (lookup_lt_is_Some_2 rs i) as [r Hr]; [lia|].
    destruct (Hnodes _ _ Hr) as (m' & Hm' & Hts & Hf & Hl).
    rewrite Hm in Hm'. injection Hm' as <-.
    split; [assumption|]. exists r. auto.
  - unfold get_filesize. rewrite Hsum. reflexivity.
Qed.

Lemma add_input_files_run :
  add_input_files two_registrations (Some 0%nat) BINARY (Some plain_decoder)
    binary_head_world
  = Done (Some 1%nat) binary_two_world.
Proof.
  unfold two_registrations. simpl add_input_files. unfold bind at 1. simpl fst. simpl snd.
  rewrite (proj2 add_input_file_run1).
  unfold bind at 1.
  unfold add_input_file, add_input_file_insert. unfold_layer. simpl.
  rewrite (Rgtb_pos (0 + 1)) by lra. reflexivity.
Qed.

(** The head that [initialize_input_files] returns, in either format. *)
Lemma initialize_input_files_head datatype (w w1 : world input_file) head :
  initialize_input_files datatype w = Done (Some head) w1 ->
  files w1 = files w
  /\ exists m, cells w1 !! head = Some m
               /\ file_timestamp m = 0%R /\ file_next m = None.
Proof.
  intros H. unfold initialize_input_files in H. unfold_layer.
  destruct w as [e plan c f ss]. simpl in H.
  destruct (hd true plan); simpl in H; [|discriminate].
  destruct (e =? 0) eqn:He; simpl in H; [|discriminate].
  destruct (datatype =? CHIMERA); simpl in H.
  - destruct (hd true (tl plan));
      repeat first [ rewrite lookup_app_r in H by lia
                   | rewrite Nat.sub_diag in H
                   | rewrite He in H
                   | progress run_stores H ];
      [|discriminate].
    injection H as <- <-. simpl. split; [reflexivity|]. eexists.
    split; [apply list_lookup_insert_eq;
            rewrite !length_insert, length_app; simpl; lia|].
    split; reflexivity.
  - repeat first [ rewrite lookup_app_r in H by lia
                 | rewrite Nat.sub_diag in H
                 | progress run_stores H ].
    injection H as <- <-. simpl. split; [reflexivity|]. eexists.
    split; [apply list_lookup_insert_eq;
            rewrite !length_insert, length_app; simpl; lia|].
    split; reflexivity.
Qed.

Lemma settings_timestamp_no_key ls :
  forall t,
    (forall l, l ∈ ls -> line_name l <> Some "mytimestamp") ->
    settings_timestamp ls t = t.
Proof.
  induction ls as [|l ls IH]; intros t Hno; simpl; [reflexivity|].
  rewrite IH by (intros l' Hl'; apply Hno; right; assumption).
  unfold line_timestamp.
  destruct (line_name l) as [name|] eqn:Hname; [|reflexivity].
  destruct (line_value l) as [v|]; [|reflexivity].
  destruct (String.eqb name "mytimestamp") eqn:Heq; [|reflexivity].
  apply String.eqb_eq in Heq. subst name.
  exfalso. apply (Hno l); [left | assumption].
Qed.

(** Registrations in the instrument format from settings files without a
    [mytimestamp] line: the timestamp of the head stays 0, so every
    registration fills the head again. *)
Lemma chimera_registrations_head rs :
  forall (w w2 : world input_file) head m tail bincfg,
    cells w !! head = Some m ->
    file_timestamp m = 0%R ->
    (forall r simg l, r ∈ rs -> files w r.2 = Some simg ->
                      l ∈ file_lines simg -> line_name l <> Some "mytimestamp") ->
    add_input_files rs (Some head) CHIMERA bincfg w = Done (Some tail) w2 ->
    tail = head
    /\ exists m',
         w2 = set_cells (<[head := m']> (cells w)) w
         /\ file_timestamp m' = 0%R
         /\ file_next m' = file_next m
         /\ forall r, last rs = Some r ->
               exists img, files w r.1 = Some img
                           /\ file_datafilename m' = strncpy r.1 (STRLENGTH - 1)
                           /\ file_length m' = Z.quot (file_bytes img - 0) 2.
Proof.
  induction rs as [|r rs IH]; intros w w2 head m tail bincfg Hm Hzero Hno Hadd;
    simpl in Hadd.
  - unfold ret in Hadd. injection Hadd as <- <-. split; [reflexivity|].
    exists m. rewrite list_insert_id, set_cells_id by assumption.
    split; [reflexivity|]. split; [assumption|]. split; [reflexivity|].
    intros r [=].
  - pose proof (lookup_lt_Some _ _ _ Hm) as Hlt.
    apply bind_Done in Hadd as (current & w1 & Hstep & Hrest).
    destruct current as [q|]; [|discriminate].
    destruct (add_input_file_Done _ _ _ _ _ _ _ _ _ Hm Hstep)
      as (img & ssb & hdr & m1 & plan' & Himg & _ & Hfmt & _ & Hl & _ & Hf & Hq).
    destruct Hfmt as [(_ & -> & -> & simg & Hsimg & Hts) | (Hb & _)];
      [|discriminate].
    rewrite Hzero, Rgtb_0_0 in Hq, Hts. destruct Hq as (-> & Hnext & ->).
    rewrite settings_timestamp_no_key in Hts
      by (intros l Hl'; apply (Hno r simg l); [left | assumption | assumption]).
    destruct (IH (set_cells (<[head := m1]> (cells w)) w) w2 head m1 tail bincfg)
      as (-> & m' & -> & Hzero' & Hnext' & Hlast).
    { simpl. apply list_lookup_insert_eq. assumption. }
    { assumption. }
    { intros r' simg' l Hr'. apply (Hno r' simg' l). right. assumption. }
    { assumption. }
    split; [reflexivity|]. exists m'. simpl. rewrite list_insert_insert_eq.
    split; [reflexivity|]. split; [assumption|]. split; [congruence|].
    intros r0 Hr0. destruct rs as [|r1 rs].
    + simpl in Hr0, Hrest. injection Hr0 as <-.
      unfold ret in Hrest. injection Hrest as Heq.
      apply (f_equal (fun c => c !! head)) in Heq.
      rewrite !list_lookup_insert_eq in Heq
        by (rewrite ?length_insert; assumption).
      injection Heq as <-. exists img. auto.
    + apply Hlast. exact Hr0.
Qed.

(** C3 (amended): files registered via [add_input_file], starting at the
    head returned by [initialize_input_files] and each at the node the
    previous call returned.  In the generic format every node is assigned
    [previous.timestamp + 1], the head counting as 0: the timestamps are 1,
    2, ... in registration order, the walk along [next] meets the files in
    registration order (each under the first 1023 characters of its name),
    and [get_filesize] returns the sum of their lengths.  In the instrument
    format, with settings files without a [mytimestamp] line, no timestamp is
    assigned: the head keeps 0, every registration fills the head again, and
    the registry holds the last file only, whose length [get_filesize]
    returns. *)
Theorem registration_order (w w1 w2 : world input_file) head tail rs datatype
  bincfg fuel :
  initialize_input_files datatype w = Done (Some head) w1 ->
  rs <> [] ->
  add_input_files rs (Some head) datatype bincfg w1 = Done (Some tail) w2 ->
  (length rs <= fuel)%nat ->
  (datatype = BINARY ->
   forall cfg, bincfg = Some cfg ->
   exists nodes,
     registered_files fuel (cells w2) (Some head) = Some nodes
     /\ length nodes = length rs
     /\ (forall i m, nodes !! i = Some m ->
           file_timestamp m = IZR (Z.of_nat i + 1)
           /\ exists r, rs !! i = Some r
                        /\ file_datafilename m = strncpy r.1 (STRLENGTH - 1)
                        /\ file_length m = samples_of (files w) cfg r.1)
     /\ get_filesize fuel (cells w2) (Some head) = Some (sum_lengths nodes))
  /\ (datatype = CHIMERA ->
      (forall r simg l, r ∈ rs -> files w r.2 = Some simg ->
                        l ∈ file_lines simg ->
                        line_name l <> Some "mytimestamp") ->
      tail = head
      /\ exists m r img,
           last rs = Some r
           /\ files w r.1 = Some img
           /\ registered_files fuel (cells w2) (Some head) = Some [m]
           /\ file_timestamp m = 0%R
           /\ file_datafilename m = strncpy r.1 (STRLENGTH - 1)
           /\ file_length m = Z.quot (file_bytes img - 0) 2
           /\ get_filesize fuel (cells w2) (Some head) = Some (file_length m)).
Proof.
  intros Hinit Hne Hadd Hfuel. split.
  - intros -> cfg ->. eapply binary_registrations; eassumption.
  - intros -> Hno.
    destruct (initialize_input_files_head _ _ _ _ Hinit)
      as (Hfiles & m0 & Hm0 & Hzero & Hnext).
    pose proof (lookup_lt_Some _ _ _ Hm0) as Hlt.
    destruct (chimera_registrations_head rs w1 w2 head m0 tail bincfg Hm0 Hzero)
      as (-> & m & -> & Hts & Hn & Hlast); [|assumption|].
    { intros r simg l Hr Hsimg. apply (Hno r simg l Hr). congruence. }
    split; [reflexivity|].
    destruct (last rs) as [r|] eqn:Hr.
    2:{ apply last_None in Hr. contradiction. }
    destruct (Hlast r eq_refl) as (img & Himg & Hname & Hlen).
    exists m, r, img.
    split; [reflexivity|]. split; [congruence|].
    assert (0 < fuel)%nat as Hpos by (destruct rs; [contradiction | simpl in *; lia]).
    destruct fuel as [|fuel]; [lia|].
    unfold get_filesize. simpl.
    rewrite list_lookup_insert_eq by assumption. rewrite Hn, Hnext.
    split; [destruct fuel; reflexivity|].
    split; [assumption|]. split; [assumption|]. split; [assumption|].
    destruct fuel; reflexivity.
Qed.

Lemma chimera_registrations_run :
  initialize_input_files CHIMERA disk_world = Done (Some 0%nat) chimera_head_world
  /\ add_input_files chimera_registrations (Some 0%nat) CHIMERA None
       chimera_head_world
     = Done (Some 0%nat) chimera_run2_world.
Proof.
  split; [reflexivity|].
  unfold chimera_registrations. simpl add_input_files.
  unfold bind at 1. simpl fst. simpl snd.
  replace (add_input_file (Some 0%nat) "run1.log" "run1.settings" CHIMERA None
             chimera_head_world)
    with (Done (Some 0%nat) chimera_run1_world : outcome input_file ptr).
  2:{ unfold add_input_file, add_input_file_insert. unfold_layer. simpl.
      rewrite Rgtb_0_0. reflexivity. }
  unfold bind at 1.
  unfold add_input_file, add_input_file_insert. unfold_layer. simpl.
  rewrite Rgtb_0_0. reflexivity.
Qed.

Lemma chimera_registrations_no_key :
  forall r simg l,
    r ∈ chimera_registrations -> files disk_world r.2 = Some simg ->
    l ∈ file_lines simg -> line_name l <> Some "mytimestamp".
Proof.
  intros r simg l Hr Hsimg Hl. unfold chimera_registrations in Hr.
  apply elem_of_cons in Hr as [->|Hr].
  - simpl in Hsimg. injection Hsimg as <-. simpl in Hl.
    repeat (apply elem_of_cons in Hl as [->|Hl]; [discriminate|]).
    apply elem_of_nil in Hl. contradiction.
  - apply elem_of_cons in Hr as [->|Hr]; [|apply elem_of_nil in Hr; contradiction].
    simpl in Hsimg. injection Hsimg as <-. simpl in Hl.
    repeat (apply elem_of_cons in Hl as [->|Hl]; [discriminate|]).
    apply elem_of_nil in Hl. contradiction.
Qed.

Lemma registration_order_witness :
  (exists nodes,
     registered_files 2 (cells binary_two_world) (Some 0%nat) = Some nodes
     /\ length nodes = 2%nat
     /\ get_filesize 2 (cells binary_two_world) (Some 0%nat)
        = Some (sum_lengths nodes))
  /\ (exists m,
        registered_files 2 (cells chimera_run2_world) (Some 0%nat) = Some [m]
        /\ file_timestamp m = 0%R
        /\ get_filesize 2 (cells chimera_run2_world) (Some 0%nat)
           = Some (file_length m)).
Proof.
  split.
  - destruct (registration_order disk_world binary_head_world binary_two_world
                0%nat 1%nat two_registrations BINARY (Some plain_decoder) 2%nat
                (proj1 add_input_file_run1) ltac:(discriminate)
                add_input_files_run ltac:(simpl; lia))
      as (Hbinary & _).
    destruct (Hbinary eq_refl plain_decoder eq_refl)
      as (nodes & Hwalk & Hlen & _ & Hsum).
    exists nodes. split; [exact Hwalk|]. split; [exact Hlen | exact Hsum].
  - destruct (registration_order disk_world chimera_head_world chimera_run2_world
                0%nat 0%nat chimera_registrations CHIMERA None 2%nat
                (proj1 chimera_registrations_run) ltac:(discriminate)
                (proj2 chimera_registrations_run) ltac:(simpl; lia))
      as (_ & Hchimera).
    destruct (Hchimera eq_refl chimera_registrations_no_key)
      as (_ & m & r & img & _ & _ & Hwalk & Hts & _ & _ & Hsum).
    exists m. split; [exact Hwalk|]. split; [exact Hts | exact Hsum].
Defined.

(** * Further properties of utils.c *)

(** ** The inverse of a matrix *)

(** [invert_matrix] returns the inverse: for a matrix with a determinant
    other than zero, the products with the result, on either side, are the
    unit matrix. *)
Theorem invert_matrix_inverse (m : mat3) :
  det3 m <> 0%R ->
  mat3_mul m (invert_matrix m) = mat3_unit
  /\ mat3_mul (invert_matrix m) m = mat3_unit.
Proof.
  intros Hdet. unfold mat3_mul, invert_matrix, mat3_unit. cbn [m00 m01 m02 m10 m11 m12 m20 m21 m22].
  unfold det3 in *. split; f_equal; field; assumption.
Qed.

Lemma invert_matrix_inverse_witness :
  det3 sample_matrix <> 0%R
  /\ mat3_mul sample_matrix (invert_matrix sample_matrix) = mat3_unit.
Proof.
  assert (det3 sample_matrix <> 0%R) as H by (unfold det3; simpl; lra).
  split; [exact H | exact (proj1 (invert_matrix_inverse sample_matrix H))].
Defined.

(** ** Scans of a signal *)

Lemma locate_min_loop_spec (signal : list R) :
  forall steps i minval location,
    (i + steps <= length signal)%nat ->
    0 <= location ->
    (location = 0 \/ (Z.to_nat location < i)%nat) ->
    signal !! Z.to_nat location = Some minval ->
    (forall j y, (j < i)%nat -> signal !! j = Some y -> (minval <= y)%R) ->
    (forall j y, (j < Z.to_nat location)%nat -> signal !! j = Some y -> (minval < y)%R) ->
    exists loc x,
      locate_min_loop signal steps i minval location = Some loc
      /\ 0 <= loc
      /\ (loc = 0 \/ (Z.to_nat loc < i + steps)%nat)
      /\ signal !! Z.to_nat loc = Some x
      /\ (forall j y, (j < i + steps)%nat -> signal !! j = Some y -> (x <= y)%R)
      /\ (forall j y, (j < Z.to_nat loc)%nat -> signal !! j = Some y -> (x < y)%R).
Proof.
  induction steps as [|steps IH]; intros i minval location Hlen Hpos Hloc Hval Hall Hfirst.
  - exists location, minval. rewrite Nat.add_0_r. simpl. auto 7.
  - simpl. destruct (lookup_lt_is_Some_2 signal i) as [x Hx]; [lia|]. rewrite Hx.
    replace (i + S steps)%nat with (S i + steps)%nat by lia.
    destruct (Rlt_dec x minval) as [Hlt|Hge].
    + apply IH.
      * lia.
      * lia.
      * right. rewrite Nat2Z.id. lia.
      * rewrite Nat2Z.id. assumption.
      * intros j y Hj Hy. destruct (decide (j = i)) as [->|Hne].
        -- rewrite Hx in Hy. injection Hy as <-. lra.
        -- specialize (Hall j y ltac:(lia) Hy). lra.
      * rewrite Nat2Z.id. intros j y Hj Hy. specialize (Hall j y Hj Hy). lra.
    + apply IH.
      * lia.
      * assumption.
      * destruct Hloc; [left; assumption | right; lia].
      * assumption.
      * intros j y Hj Hy. destruct (decide (j = i)) as [->|Hne].
        -- rewrite Hx in Hy. injection Hy as <-. lra.
        -- apply (Hall j y); [lia | assumption].
      * assumption.
Qed.

(** [locate_min] on the first [length] elements of a signal returns the
    index of their least value, and of its first occurrence: every element
    before that index is strictly greater. *)
Theorem locate_min_first_minimum (signal : list R) (length : Z) :
  0 < length <= Z.of_nat (List.length signal) ->
  exists loc x,
    locate_min signal length = Some loc
    /\ 0 <= loc < length
    /\ signal !! Z.to_nat loc = Some x
    /\ (forall j y, (j < Z.to_nat length)%nat -> signal !! j = Some y -> (x <= y)%R)
    /\ (forall j y, (j < Z.to_nat loc)%nat -> signal !! j = Some y -> (x < y)%R).
Proof.
  intros Hlen. unfold locate_min.
  destruct (lookup_lt_is_Some_2 signal 0) as [x0 Hx0]; [lia|]. rewrite Hx0.
  assert (forall j y, (j < 0)%nat -> signal !! j = Some y -> (x0 <= y)%R) as Hall0
    by (intros j y Hj; lia).
  assert (forall j y, (j < Z.to_nat 0)%nat -> signal !! j = Some y -> (x0 < y)%R)
    as Hfirst0 by (intros j y Hj; simpl in Hj; lia).
  destruct (locate_min_loop_spec signal (Z.to_nat length) 0 x0 0
              ltac:(lia) ltac:(lia) (or_introl eq_refl) Hx0 Hall0 Hfirst0)
    as (loc & x & Hrun & Hpos & Hloc & Hval & Hall & Hfirst).
  exists loc, x. simpl in *.
  split; [assumption|]. split; [destruct Hloc; lia|]. auto.
Qed.

Lemma locate_min_first_minimum_witness :
  0 < 5 <= Z.of_nat (List.length sample_signal)
  /\ exists loc x, locate_min sample_signal 5 = Some loc /\ 0 <= loc < 5
                   /\ sample_signal !! Z.to_nat loc = Some x.
Proof.
  assert (0 < 5 <= Z.of_nat (List.length sample_signal)) as H by (simpl; lia).
  split; [exact H|].
  destruct (locate_min_first_minimum sample_signal 5 H) as (loc & x & H1 & H2 & H3 & _).
  exists loc, x. split; [exact H1|]. split; [exact H2 | exact H3].
Defined.

Lemma locate_max_loop_spec (signal : list R) :
  forall steps i maxval location,
    (i + steps <= length signal)%nat ->
    0 <= location ->
    (location = 0 \/ (Z.to_nat location < i)%nat) ->
    signal !! Z.to_nat location = Some maxval ->
    (forall j y, (j < i)%nat -> signal !! j = Some y -> (y <= maxval)%R) ->
    (forall j y, (j < Z.to_nat location)%nat -> signal !! j = Some y -> (y < maxval)%R) ->
    exists loc x,
      locate_max_loop signal steps i maxval location = Some loc
      /\ 0 <= loc
      /\ (loc = 0 \/ (Z.to_nat loc < i + steps)%nat)
      /\ signal !! Z.to_nat loc = Some x
      /\ (forall j y, (j < i + steps)%nat -> signal !! j = Some y -> (y <= x)%R)
      /\ (forall j y, (j < Z.to_nat loc)%nat -> signal !! j = Some y -> (y < x)%R).
Proof.
  induction steps as [|steps IH]; intros i maxval location Hlen Hpos Hloc Hval Hall Hfirst.
  - exists location, maxval. rewrite Nat.add_0_r. simpl. auto 7.
  - simpl. destruct (lookup_lt_is_Some_2 signal i) as [x Hx]; [lia|]. rewrite Hx.
    replace (i + S steps)%nat with (S i + steps)%nat by lia.
    destruct (Rgt_dec x maxval) as [Hgt|Hle].
    + apply IH.
      * lia.
      * lia.
      * right. rewrite Nat2Z.id. lia.
      * rewrite Nat2Z.id. assumption.
      * intros j y Hj Hy. destruct (decide (j = i)) as [->|Hne].
        -- rewrite Hx in Hy. injection Hy as <-. lra.
        -- specialize (Hall j y ltac:(lia) Hy). lra.
      * rewrite Nat2Z.id. intros j y Hj Hy. specialize (Hall j y Hj Hy). lra.
    + apply IH.
      * lia.
      * assumption.
      * destruct Hloc; [left; assumption | right; lia].
      * assumption.
      * intros j y Hj Hy. destruct (decide (j = i)) as [->|Hne].
        -- rewrite Hx in Hy. injection Hy as <-. lra.
        -- apply (Hall j y); [lia | assumption].
      * assumption.
Qed.

(** [locate_max] on the first [length] elements of a signal returns the
    index of their greatest value, and of its first occurrence. *)
Theorem locate_max_first_maximum (signal : list R) (length : Z) :
  0 < length <= Z.of_nat (List.length signal) ->
  exists loc x,
    locate_max signal length = Some loc
    /\ 0 <= loc < length
    /\ signal !! Z.to_nat loc = Some x
    /\ (forall j y, (j < Z.to_nat length)%nat -> signal !! j = Some y -> (y <= x)%R)
    /\ (forall j y, (j < Z.to_nat loc)%nat -> signal !! j = Some y -> (y < x)%R).
Proof.
  intros Hlen. unfold locate_max.
  destruct (lookup_lt_is_Some_2 signal 0) as [x0 Hx0]; [lia|]. rewrite Hx0.
  assert (forall j y, (j < 0)%nat -> signal !! j = Some y -> (y <= x0)%R) as Hall0
    by (intros j y Hj; lia).
  assert (forall j y, (j < Z.to_nat 0)%nat -> signal !! j = Some y -> (y < x0)%R)
    as Hfirst0 by (intros j y Hj; simpl in Hj; lia).
  destruct (locate_max_loop_spec signal (Z.to_nat length) 0 x0 0
              ltac:(lia) ltac:(lia) (or_introl eq_refl) Hx0 Hall0 Hfirst0)
    as (loc & x & Hrun & Hpos & Hloc & Hval & Hall & Hfirst).
  exists loc, x. simpl in *.
  split; [assumption|]. split; [destruct Hloc; lia|]. auto.
Qed.

Lemma locate_max_first_maximum_witness :
  0 < 5 <= Z.of_nat (List.length sample_signal)
  /\ exists loc x, locate_max sample_signal 5 = Some loc /\ 0 <= loc < 5
                   /\ sample_signal !! Z.to_nat loc = Some x.
Proof.
  assert (0 < 5 <= Z.of_nat (List.length sample_signal)) as H by (simpl; lia).
  split; [exact H|].
  destruct (locate_max_first_maximum sample_signal 5 H) as (loc & x & H1 & H2 & H3 & _).
  exists loc, x. split; [exact H1|]. split; [exact H2 | exact H3].
Defined.

(** The value scans and the index scans take the same branches. *)
Lemma signal_max_loop_locate (signal : list R) :
  forall steps i maxval location,
    signal !! Z.to_nat location = Some maxval ->
    match locate_max_loop signal steps i maxval location,
          signal_max_loop signal steps i maxval with
    | Some loc, Some x => signal !! Z.to_nat loc = Some x
    | None, None => True
    | _, _ => False
    end.
Proof.
  induction steps as [|steps IH]; intros i maxval location Hval; simpl.
  - assumption.
  - destruct (signal !! i) as [x|] eqn:Hx; [|exact I].
    destruct (Rgt_dec x maxval).
    + apply IH. rewrite Nat2Z.id. assumption.
    + apply IH. assumption.
Qed.

Lemma signal_min_loop_locate (signal : list R) :
  forall steps i minval location,
    signal !! Z.to_nat location = Some minval ->
    match locate_min_loop signal steps i minval location,
          signal_min_loop signal steps i minval with
    | Some loc, Some x => signal !! Z.to_nat loc = Some x
    | None, None => True
    | _, _ => False
    end.
Proof.
  induction steps as [|steps IH]; intros i minval location Hval; simpl.
  - assumption.
  - destruct (signal !! i) as [x|] eqn:Hx; [|exact I].
    destruct (Rlt_dec x minval).
    + apply IH. rewrite Nat2Z.id. assumption.
    + apply IH. assumption.
Qed.

Lemma signal_scan_bounds (signal : list R) (length : Z) :
  0 < length <= Z.of_nat (List.length signal) ->
  exists lo hi imin imax,
    signal_min signal length = Some lo
    /\ signal_max signal length = Some hi
    /\ locate_min signal length = Some imin
    /\ locate_max signal length = Some imax
    /\ signal !! Z.to_nat imin = Some lo
    /\ signal !! Z.to_nat imax = Some hi
    /\ forall j y, (j < Z.to_nat length)%nat -> signal !! j = Some y ->
                   (lo <= y <= hi)%R.
Proof.
  intros Hlen. unfold signal_min, signal_max, locate_min, locate_max.
  destruct (lookup_lt_is_Some_2 signal 0) as [x0 Hx0]; [lia|]. rewrite Hx0.
  assert (forall j y, (j < 0)%nat -> signal !! j = Some y -> (x0 <= y)%R) as Hlow0
    by (intros j y Hj; lia).
  assert (forall j y, (j < 0)%nat -> signal !! j = Some y -> (y <= x0)%R) as Hhigh0
    by (intros j y Hj; lia).
  assert (forall j y, (j < Z.to_nat 0)%nat -> signal !! j = Some y -> (x0 < y)%R)
    as Hfirst0 by (intros j y Hj; simpl in Hj; lia).
  assert (forall j y, (j < Z.to_nat 0)%nat -> signal !! j = Some y -> (y < x0)%R)
    as Hlast0 by (intros j y Hj; simpl in Hj; lia).
  destruct (locate_min_loop_spec signal (Z.to_nat length) 0 x0 0
              ltac:(lia) ltac:(lia) (or_introl eq_refl) Hx0 Hlow0 Hfirst0)
    as (imin & lo & Hmin & _ & _ & Hlo & Hlow & _).
  destruct (locate_max_loop_spec signal (Z.to_nat length) 0 x0 0
              ltac:(lia) ltac:(lia) (or_introl eq_refl) Hx0 Hhigh0 Hlast0)
    as (imax & hi & Hmax & _ & _ & Hhi & Hhigh & _).
  exists lo, hi, imin, imax.
  pose proof (signal_min_loop_locate signal (Z.to_nat length) 0 x0 0 Hx0) as Hsmin.
  pose proof (signal_max_loop_locate signal (Z.to_nat length) 0 x0 0 Hx0) as Hsmax.
  rewrite Hmin in Hsmin. rewrite Hmax in Hsmax.
  destruct (signal_min_loop signal (Z.to_nat length) 0 x0) as [lo'|]; [|contradiction].
  destruct (signal_max_loop signal (Z.to_nat length) 0 x0) as [hi'|]; [|contradiction].
  rewrite Hlo in Hsmin. rewrite Hhi in Hsmax.
  injection Hsmin as <-. injection Hsmax as <-.
  simpl in Hlow, Hhigh.
  repeat (split; [reflexivity || assumption|]).
  intros j y Hj Hy. split; [eapply Hlow | eapply Hhigh]; eassumption.
Qed.

(** [signal_min] and [signal_max] return the values found at the indices
    that [locate_min] and [locate_max] return: elements of the signal that
    bound its first [length] elements from below and from above. *)
Theorem signal_min_max_bounds (signal : list R) (length : Z) :
  0 < length <= Z.of_nat (List.length signal) ->
  exists lo hi imin imax,
    signal_min signal length = Some lo
    /\ signal_max signal length = Some hi
    /\ locate_min signal length = Some imin
    /\ locate_max signal length = Some imax
    /\ signal !! Z.to_nat imin = Some lo
    /\ signal !! Z.to_nat imax = Some hi
    /\ forall j y, (j < Z.to_nat length)%nat -> signal !! j = Some y ->
                   (lo <= y <= hi)%R.
Proof.
  exact (signal_scan_bounds signal length).
Qed.

Lemma signal_min_max_bounds_witness :
  0 < 5 <= Z.of_nat (List.length sample_signal)
  /\ exists lo hi, signal_min sample_signal 5 = Some lo
                   /\ signal_max sample_signal 5 = Some hi.
Proof.
  assert (0 < 5 <= Z.of_nat (List.length sample_signal)) as H by (simpl; lia).
  split; [exact H|].
  destruct (signal_min_max_bounds sample_signal 5 H)
    as (lo & hi & _ & _ & H1 & H2 & _).
  exists lo, hi. split; [exact H1 | exact H2].
Defined.

Lemma signal_sum_loop_bounds (signal : list R) (n : nat) (lo hi : R) :
  (n <= length signal)%nat ->
  (forall j y, (j < n)%nat -> signal !! j = Some y -> (lo <= y <= hi)%R) ->
  forall steps i acc,
    (i + steps <= n)%nat ->
    exists s, signal_sum_loop signal steps i acc = Some s
              /\ (acc + lo * INR steps <= s <= acc + hi * INR steps)%R.
Proof.
  intros Hn Hb. induction steps as [|steps IH]; intros i acc Hi.
  - exists acc. simpl. split; [reflexivity | lra].
  - destruct (lookup_lt_is_Some_2 signal i) as [x Hx]; [lia|].
    destruct (IH (S i) (acc + x)%R ltac:(lia)) as (s & Hs & Hlo & Hhi).
    exists s. cbn [signal_sum_loop]. rewrite Hx. split; [assumption|].
    rewrite S_INR. destruct (Hb i x ltac:(lia) Hx). lra.
Qed.

(** [signal_average] of the first [length] elements lies between
    [signal_min] and [signal_max] of the same elements. *)
Theorem signal_average_between (signal : list R) (length : Z) :
  0 < length <= Z.of_nat (List.length signal) ->
  exists lo hi average,
    signal_min signal length = Some lo
    /\ signal_max signal length = Some hi
    /\ signal_average signal length = Some average
    /\ (lo <= average <= hi)%R.
Proof.
  intros Hlen.
  destruct (signal_scan_bounds signal length Hlen)
    as (lo & hi & _ & _ & Hmin & Hmax & _ & _ & _ & _ & Hb).
  destruct (signal_sum_loop_bounds signal (Z.to_nat length) lo hi ltac:(lia) Hb
              (Z.to_nat length) 0%nat 0%R ltac:(lia)) as (s & Hs & Hlo & Hhi).
  exists lo, hi, (s / IZR length)%R.
  split; [assumption|]. split; [assumption|].
  unfold signal_average. rewrite Hs. split; [reflexivity|].
  rewrite INR_IZR_INZ, Z2Nat.id in Hlo, Hhi by lia.
  assert (0 < IZR length)%R as Hpos by (apply IZR_lt; lia).
  split.
  - apply Rmult_le_reg_r with (IZR length); [assumption|].
    unfold Rdiv. rewrite Rmult_assoc, Rinv_l by lra. lra.
  - apply Rmult_le_reg_r with (IZR length); [assumption|].
    unfold Rdiv. rewrite Rmult_assoc, Rinv_l by lra. lra.
Qed.

Lemma signal_average_between_witness :
  0 < 5 <= Z.of_nat (List.length sample_signal)
  /\ exists average, signal_average sample_signal 5 = Some average.
Proof.
  assert (0 < 5 <= Z.of_nat (List.length sample_signal)) as H by (simpl; lia).
  split; [exact H|].
  destruct (signal_average_between sample_signal 5 H) as (lo & hi & a & _ & _ & Ha & _).
  exists a. exact Ha.
Defined.

Lemma signal_variance_loop_nonneg (signal : list R) (average : R) :
  forall steps i acc,
    (i + steps <= length signal)%nat ->
    (0 <= acc)%R ->
    exists v, signal_variance_loop signal average steps i acc = Some v /\ (0 <= v)%R.
Proof.
  induction steps as [|steps IH]; intros i acc Hi Hacc.
  - exists acc. auto.
  - destruct (lookup_lt_is_Some_2 signal i) as [x Hx]; [lia|].
    cbn [signal_variance_loop]. rewrite Hx. apply IH; [lia|].
    pose proof (Rle_0_sqr (x - average)) as Hsq. unfold Rsqr in Hsq. lra.
Qed.

Lemma signal_sum_loop_total (signal : list R) :
  forall steps i acc,
    (i + steps <= length signal)%nat ->
    exists s, signal_sum_loop signal steps i acc = Some s.
Proof.
  induction steps as [|steps IH]; intros i acc Hi.
  - exists acc. reflexivity.
  - destruct (lookup_lt_is_Some_2 signal i) as [x Hx]; [lia|].
    cbn [signal_sum_loop]. rewrite Hx. apply IH. lia.
Qed.

(** [signal_variance] reads no element and returns 0 for fewer than two
    samples, and otherwise returns a number that is not negative. *)
Theorem signal_variance_nonneg (signal : list R) (length : Z) :
  length <= Z.of_nat (List.length signal) ->
  exists v, signal_variance signal length = Some v
            /\ (0 <= v)%R
            /\ (length < 2 -> v = 0%R).
Proof.
  intros Hlen. unfold signal_variance.
  destruct (length <? 2) eqn:Hsmall.
  - exists 0%R. split; [reflexivity|]. split; [lra | auto].
  - apply Z.ltb_ge in Hsmall. unfold signal_average.
    destruct (signal_sum_loop_total signal (Z.to_nat length) 0 0%R ltac:(lia))
      as (s & ->).
    destruct (signal_variance_loop_nonneg signal (s / IZR length)
                (Z.to_nat length) 0 0%R ltac:(lia) ltac:(lra)) as (v & -> & Hv).
    exists (v / IZR (length - 1))%R. split; [reflexivity|]. split; [|lia].
    assert (0 < IZR (length - 1))%R by (apply IZR_lt; lia).
    apply Rmult_le_reg_r with (IZR (length - 1)); [assumption|].
    unfold Rdiv. rewrite Rmult_assoc, Rinv_l by lra. lra.
Qed.

Lemma signal_variance_nonneg_witness :
  5 <= Z.of_nat (List.length sample_signal)
  /\ exists v, signal_variance sample_signal 5 = Some v /\ (0 <= v)%R.
Proof.
  assert (5 <= Z.of_nat (List.length sample_signal)) as H by (simpl; lia).
  split; [exact H|].
  destruct (signal_variance_nonneg sample_signal 5 H) as (v & Hv & Hpos & _).
  exists v. split; [exact Hv | exact Hpos].
Defined.

Lemma signal_extreme_loop_spec (signal : list R) (sign : R) :
  forall steps i tempmax,
    (i + steps <= length signal)%nat ->
    (0 <= tempmax)%R ->
    (forall j y, (j < i)%nat -> signal !! j = Some y -> (y * sign <= tempmax)%R) ->
    (tempmax = 0%R
     \/ exists j y, (j < i)%nat /\ signal !! j = Some y /\ tempmax = (y * sign)%R) ->
    exists e,
      signal_extreme_loop signal sign steps i tempmax = Some e
      /\ (0 <= e)%R
      /\ (forall j y, (j < i + steps)%nat -> signal !! j = Some y -> (y * sign <= e)%R)
      /\ (e = 0%R
          \/ exists j y, (j < i + steps)%nat /\ signal !! j = Some y
                         /\ e = (y * sign)%R).
Proof.
  induction steps as [|steps IH]; intros i tempmax Hi Hpos Hall Hfrom.
  - exists tempmax. rewrite Nat.add_0_r. simpl. auto.
  - destruct (lookup_lt_is_Some_2 signal i) as [x Hx]; [lia|].
    cbn [signal_extreme_loop]. rewrite Hx.
    replace (i + S steps)%nat with (S i + steps)%nat by lia.
    destruct (Rgt_dec (x * sign) tempmax) as [Hgt|Hle].
    + apply IH.
      * lia.
      * lra.
      * intros j y Hj Hy. destruct (decide (j = i)) as [->|Hne].
        -- rewrite Hx in Hy. injection Hy as <-. lra.
        -- specialize (Hall j y ltac:(lia) Hy). lra.
      * right. exists i, x. split; [lia|]. auto.
    + apply IH.
      * lia.
      * assumption.
      * intros j y Hj Hy. destruct (decide (j = i)) as [->|Hne].
        -- rewrite Hx in Hy. injection Hy as <-. lra.
        -- apply (Hall j y); [lia | assumption].
      * destruct Hfrom as [?|(j & y & Hj & Hy & He)]; [left; assumption|].
        right. exists j, y. split; [lia|]. auto.
Qed.

(** [signal_extreme] returns the greatest of the products [signal[i] * sign]
    over the first [length] elements when one of them is positive, and 0
    otherwise: the result is never negative, also for an empty range. *)
Theorem signal_extreme_bounds (signal : list R) (length : Z) (sign : R) :
  length <= Z.of_nat (List.length signal) ->
  exists e,
    signal_extreme signal length sign = Some e
    /\ (0 <= e)%R
    /\ (forall j y, (j < Z.to_nat length)%nat -> signal !! j = Some y ->
                    (y * sign <= e)%R)
    /\ (e = 0%R
        \/ exists j y, (j < Z.to_nat length)%nat /\ signal !! j = Some y
                       /\ e = (y * sign)%R).
Proof.
  intros Hlen. unfold signal_extreme.
  apply (signal_extreme_loop_spec signal sign (Z.to_nat length) 0 0%R).
  - lia.
  - lra.
  - intros j y Hj. lia.
  - left. reflexivity.
Qed.

Lemma signal_extreme_bounds_witness :
  5 <= Z.of_nat (List.length sample_signal)
  /\ exists e, signal_extreme sample_signal 5 (-1) = Some e /\ (0 <= e)%R.
Proof.
  assert (5 <= Z.of_nat (List.length sample_signal)) as H by (simpl; lia).
  split; [exact H|].
  destruct (signal_extreme_bounds sample_signal 5 (-1) H) as (e & He & Hpos & _).
  exists e. split; [exact He | exact Hpos].
Defined.

(** ** Scalar helpers *)

(** [signum] has a dead zone of width [EPS] on either side of zero: it is 1
    above [EPS], -1 below [-EPS] and 0 in between, the bounds included; and it
    is odd. *)
Theorem signum_dead_zone (x : R) :
  (signum x = 1 <-> (EPS < x)%R)
  /\ (signum x = -1 <-> (x < - EPS)%R)
  /\ (signum x = 0 <-> (- EPS <= x <= EPS)%R)
  /\ signum (- x) = - signum x.
Proof.
  assert (0 < EPS)%R as Heps by (unfold EPS; lra).
  unfold signum.
  destruct (Rgt_dec x EPS) as [H1|H1]; destruct (Rlt_dec x (- EPS)) as [H2|H2];
    destruct (Rgt_dec (- x) EPS) as [H3|H3];
    destruct (Rlt_dec (- x) (- EPS)) as [H4|H4];
    try lra; repeat split; intros; try lia; try lra.
Qed.

(** The helpers [my_min], [my_max], [d_abs], [intmin] and [intmax] compute
    the minimum, the maximum and the absolute value. *)
Lemma min_max_abs_helpers (a b : R) (x y : Z) :
  my_min a b = Rmin a b
  /\ my_max a b = Rmax a b
  /\ d_abs a = Rabs a
  /\ intmin x y = Z.min x y
  /\ intmax x y = Z.max x y.
Proof.
  repeat split.
  - unfold my_min, Rmin. destruct (Rlt_dec a b), (Rle_dec a b); lra.
  - unfold my_max, Rmax. destruct (Rgt_dec a b), (Rle_dec a b); lra.
  - unfold d_abs, Rabs. destruct (Rge_dec a 0), (Rcase_abs a); lra.
  - unfold intmin. destruct (x <? y) eqn:H; [apply Z.ltb_lt in H | apply Z.ltb_ge in H]; lia.
  - unfold intmax. destruct (x >? y) eqn:H; rewrite Z.gtb_ltb in H;
      [apply Z.ltb_lt in H | apply Z.ltb_ge in H]; lia.
Qed.

(** ** The progress report *)

Lemma double_to_int_bounds (x : R) :
  (0 <= x)%R -> 0 <= double_to_int x /\ (IZR (double_to_int x) <= x < IZR (double_to_int x) + 1)%R.
Proof.
  intros Hx. rewrite double_to_int_nonneg by assumption.
  destruct (base_Int_part x) as [Hlo Hhi]. split; [|lra].
  apply le_IZR. apply Rnot_lt_le. intros Hneg.
  assert (IZR (Int_part x) <= -1)%R.
  { replace (-1)%R with (IZR (-1)) by reflexivity. apply IZR_le.
    apply lt_IZR in Hneg. lia. }
  lra.
Qed.

(** With a rounding that is monotone and leaves 0 as it is (as the rounding
    to the nearest double is), for [0 < pos <= finish] and a time that is
    not negative: the hours, minutes and seconds that [progressbar] prints
    are not negative, minutes and seconds are below 60, and together they
    are the whole seconds of the double [elapsed * (finish - pos) / pos] as
    the machine computes it.  At position 0 all three are 0. *)
Theorem progressbar_remaining (round : R -> R) (pos finish : Z) (elapsed : R) :
  (forall x y, (x <= y)%R -> (round x <= round y)%R) ->
  round 0%R = 0%R ->
  0 < pos <= finish -> (0 <= elapsed)%R ->
  let '(_, hours, minutes, seconds) := progressbar round pos finish elapsed in
  let remaining :=
    round (round (elapsed * IZR (finish - pos)) / IZR pos)%R in
  0 <= hours /\ 0 <= minutes < 60 /\ 0 <= seconds < 60
  /\ hours * 3600 + minutes * 60 + seconds = double_to_int remaining
  /\ (IZR (hours * 3600 + minutes * 60 + seconds) <= remaining
      < IZR (hours * 3600 + minutes * 60 + seconds) + 1)%R
  /\ exists percent,
       progressbar round 0 finish elapsed = (percent, 0, 0, 0).
Proof.
  intros Hmono Hzero Hpos Hel. unfold progressbar.
  replace (pos =? 0) with false by (symmetry; apply Z.eqb_neq; lia).
  cbn zeta.
  set (remaining := round (round (elapsed * IZR (finish - pos)) / IZR pos)%R).
  assert (0 <= remaining)%R as Hrem.
  { unfold remaining. rewrite <- Hzero at 1. apply Hmono.
    assert (0 < IZR pos)%R by (apply IZR_lt; lia).
    assert (0 <= IZR (finish - pos))%R by (apply IZR_le; lia).
    assert (0 <= round (elapsed * IZR (finish - pos)))%R as Hprod.
    { rewrite <- Hzero at 1. apply Hmono. apply Rmult_le_pos; assumption. }
    unfold Rdiv. apply Rmult_le_pos; [assumption|].
    left. apply Rinv_0_lt_compat. assumption. }
  destruct (double_to_int_bounds remaining Hrem) as [Hnn Hbounds].
  set (t := double_to_int remaining) in *.
  pose proof (Z.quot_rem' t 3600) as Hq1.
  pose proof (Z.rem_bound_pos t 3600 Hnn ltac:(lia)) as Hr1.
  pose proof (Z.quot_rem' (Z.rem t 3600) 60) as Hq2.
  pose proof (Z.rem_bound_pos (Z.rem t 3600) 60 ltac:(lia) ltac:(lia)) as Hr2.
  pose proof (Z.quot_pos t 3600 Hnn ltac:(lia)) as Hh.
  pose proof (Z.quot_pos (Z.rem t 3600) 60 ltac:(lia) ltac:(lia)) as Hm.
  assert (Z.quot (Z.rem t 3600) 60 < 60) as Hm'
    by (apply Z.quot_lt_upper_bound; lia).
  replace (Z.quot t 3600 * 3600 + Z.quot (Z.rem t 3600) 60 * 60
           + Z.rem (Z.rem t 3600) 60) with t by lia.
  split; [assumption|]. split; [lia|]. split; [lia|]. split; [reflexivity|].
  split; [assumption|].
  simpl. rewrite (double_to_int_IZR 0). eexists. reflexivity.
Qed.

Lemma progressbar_remaining_witness :
  exists percent hours minutes seconds,
    progressbar (fun x => x) 25 100 10 = (percent, hours, minutes, seconds)
    /\ 0 <= minutes < 60 /\ 0 <= seconds < 60
    /\ hours * 3600 + minutes * 60 + seconds
       = double_to_int (10 * IZR (100 - 25) / IZR 25).
Proof.
  pose proof (progressbar_remaining (fun x => x) 25 100 10
                (fun x y H => H) eq_refl ltac:(lia) ltac:(lra)) as H.
  destruct (progressbar (fun x => x) 25 100 10) as [[[p h] m] s].
  destruct H as (_ & Hm & Hs & Hsum & _).
  exists p, h, m, s.
  split; [reflexivity|]. split; [exact Hm|]. split; [exact Hs | exact Hsum].
Defined.

(** ** Edge lists: order, release and failed appends *)

Lemma add_edge_head (w : world edge) a e l t s b :
  cells w !! a = Some e ->
  edge_type e = HEAD ->
  add_edge (Some a) l t s b w
  = Done (Some a) (set_cells (<[a := Edge l t s b (edge_next e)]> (cells w)) w).
Proof.
  intros Ha Hty. unfold add_edge. unfold_layer. rewrite Ha.
  replace (edge_type e =? HEAD) with true by (symmetry; apply Z.eqb_eq; assumption).
  rewrite Ha. reflexivity.
Qed.

Lemma add_edge_grow (w : world edge) a e l t s b :
  cells w !! a = Some e ->
  edge_type e <> HEAD ->
  errorcode w = 0 ->
  hd true (calloc_plan w) = true ->
  add_edge (Some a) l t s b w
  = Done (Some (length (cells w)))
      (set_cells
         (<[length (cells w) := Edge l t s b None]>
            (<[a := Edge (edge_location e) (edge_type e) (edge_local_stdev e)
                      (edge_local_baseline e) (Some (length (cells w)))]>
               (cells w ++ [zero_edge])))
         (set_calloc_plan (tl (calloc_plan w)) w)).
Proof.
  intros Ha Hty Herr Hplan. pose proof (lookup_lt_Some _ _ _ Ha) as Hlt.
  unfold add_edge.
  unfold bind at 1. unfold load. rewrite Ha.
  replace (edge_type e =? HEAD) with false by (symmetry; apply Z.eqb_neq; assumption).
  unfold bind at 1. rewrite calloc_node_granted by (assumption || (unfold sizeof_edge; lia)).
  unfold_layer. simpl. rewrite lookup_app_l by lia. rewrite Ha. simpl.
  rewrite Herr. simpl.
  rewrite list_lookup_insert_ne by lia.
  rewrite lookup_app_r, Nat.sub_diag by lia. reflexivity.
Qed.

Lemma add_edge_refused (w : world edge) a e l t s b :
  cells w !! a = Some e ->
  edge_type e <> HEAD ->
  hd true (calloc_plan w) = false ->
  add_edge (Some a) l t s b w
  = Done None
      (set_cells
         (<[a := Edge (edge_location e) (edge_type e) (edge_local_stdev e)
                   (edge_local_baseline e) None]> (cells w))
         (set_errorcode ERR_MEM (set_calloc_plan (tl (calloc_plan w)) w))).
Proof.
  intros Ha Hty Hplan. unfold add_edge.
  unfold bind at 1. unfold load. rewrite Ha.
  replace (edge_type e =? HEAD) with false by (symmetry; apply Z.eqb_neq; assumption).
  unfold bind at 1. rewrite calloc_node_refused by assumption.
  unfold_layer. simpl. rewrite Ha. reflexivity.
Qed.

Lemma edge_walk_run h a0 n :
  edge_run h a0 n ->
  forall k i fuel,
    (i + k = n)%nat -> (0 < k)%nat -> (k <= fuel)%nat ->
    free_edges fuel h (Some (a0 + i)%nat) = Some (seq (a0 + i) k)
    /\ exists l, edges_from fuel h (Some (a0 + i)%nat) = Some l
                 /\ length l = k
                 /\ forall j e, (j < k)%nat -> h !! (a0 + i + j)%nat = Some e ->
                      l !! j = Some (EdgeArgs (edge_location e) (edge_type e)
                                       (edge_local_stdev e) (edge_local_baseline e)).
Proof.
  intros Hrun. induction k as [|k IH]; intros i fuel Hik Hk Hfuel; [lia|].
  destruct fuel as [|fuel]; [lia|].
  destruct (Hrun i) as (e & He & Hnext); [lia|].
  simpl. rewrite He, Hnext.
  destruct (decide (S i < n)%nat) as [Hlt|Hge].
  - destruct (IH (S i) fuel) as (Hfree & l & Hl & Hlen & Hlook); try lia.
    rewrite Hfree, Hl. split; [do 2 f_equal; apply (f_equal (fun x => seq x k)); lia|].
    eexists. split; [reflexivity|]. split; [simpl; lia|].
    intros [|j] e' Hj He'.
    + rewrite Nat.add_0_r in He'. rewrite He in He'. injection He' as <-. reflexivity.
    + simpl. apply Hlook; [lia|]. rewrite <- He'. f_equal. lia.
  - assert (k = 0)%nat as -> by lia.
    destruct fuel; simpl.
    + split; [reflexivity|]. eexists. split; [reflexivity|]. split; [reflexivity|].
      intros j e' Hj He'. assert (j = 0)%nat as -> by lia.
      rewrite Nat.add_0_r in He'. rewrite He in He'. injection He' as <-. reflexivity.
    + split; [reflexivity|]. eexists. split; [reflexivity|]. split; [reflexivity|].
      intros j e' Hj He'. assert (j = 0)%nat as -> by lia.
      rewrite Nat.add_0_r in He'. rewrite He in He'. injection He' as <-. reflexivity.
Qed.

(** [free_edges] on a list built by [initialize_edges] and successful
    appends releases every node allocated for the list, each once: the
    addresses from the head to the end of the store, as many as
    [count_edges] counts, also when nothing was appended. *)
Theorem free_edges_releases_list w head w1 es tail w2 fuel :
  initialize_edges w = Done (Some head) w1 ->
  Forall (fun a => arg_type a <> HEAD) es ->
  add_edges es (Some head) w1 = Done (Some tail) w2 ->
  (Nat.max 1 (length es) <= fuel)%nat ->
  exists freed,
    free_edges fuel (cells w2) (Some head) = Some freed
    /\ freed = seq (length (cells w)) (length (cells w2) - length (cells w))
    /\ NoDup freed
    /\ count_edges fuel (cells w2) (Some head) 0 = Some (Z.of_nat (length freed)).
Proof.
  intros Hinit Hes Hadd Hfuel.
  pose proof (initialize_edges_list _ _ _ Hinit) as H1.
  pose proof (add_edges_list _ _ _ _ _ _ _ H1 Hes Hadd) as H2.
  destruct H1 as [_ _ Ht1 _ _]. destruct H2 as [_ Hlen2 _ Hrun2 _].
  simpl in *. assert (head = length (cells w)) as -> by lia.
  destruct (edge_walk_run _ _ _ Hrun2 (Nat.max 1 (length es)) 0%nat fuel)
    as (Hfree & _); try lia.
  rewrite Nat.add_0_r in Hfree.
  exists (seq (length (cells w)) (Nat.max 1 (length es))).
  split; [assumption|]. split; [f_equal; lia|]. split; [apply NoDup_seq|].
  rewrite <- (Nat.add_0_r (length (cells w))) at 1.
  rewrite (count_edges_run _ _ _ Hrun2 (Nat.max 1 (length es)) 0%nat) by lia.
  rewrite length_seq. reflexivity.
Qed.

Lemma free_edges_releases_list_witness :
  exists w1 tail w2 freed,
    initialize_edges fresh_world = Done (Some 0%nat) w1
    /\ add_edges two_edges (Some 0%nat) w1 = Done (Some tail) w2
    /\ free_edges 2 (cells w2) (Some 0%nat) = Some freed
    /\ NoDup freed.
Proof.
  eexists. eexists. eexists.
  destruct (free_edges_releases_list fresh_world 0%nat _ two_edges 1%nat _ 2%nat
              eq_refl
              ltac:(repeat constructor; discriminate)
              eq_refl ltac:(simpl; lia)) as (freed & Hfree & _ & Hnodup & _).
  exists freed. split; [reflexivity|]. split; [reflexivity|].
  split; [exact Hfree | exact Hnodup].
Defined.

Lemma edge_args_eta (e : edge) (a : edge_args) :
  edge_location e = arg_location a -> edge_type e = arg_type a ->
  edge_local_stdev e = arg_stdev a -> edge_local_baseline e = arg_baseline a ->
  EdgeArgs (edge_location e) (edge_type e) (edge_local_stdev e)
    (edge_local_baseline e) = a.
Proof. destruct a. simpl. intros -> -> -> ->. reflexivity. Qed.

Lemma edge_list_tail a0 k tail w :
  edge_list a0 k tail w ->
  exists e, cells w !! tail = Some e /\ edge_next e = None
            /\ (edge_type e = HEAD <-> k = 0%nat).
Proof.
  intros [_ _ Htail Hrun Htype].
  destruct (Hrun (Nat.max 1 k - 1)%nat) as (e & He & Hnext); [lia|].
  replace (a0 + (Nat.max 1 k - 1))%nat with tail in He by lia.
  destruct (decide (S (Nat.max 1 k - 1) < Nat.max 1 k)%nat) as [?|_]; [lia|].
  exists e. auto.
Qed.

Lemma add_edge_contents a0 done tail w a tail' w' :
  edge_list a0 (length done) tail w ->
  edge_contents a0 done w ->
  arg_type a <> HEAD ->
  add_edge (Some tail) (arg_location a) (arg_type a) (arg_stdev a) (arg_baseline a) w
  = Done (Some tail') w' ->
  edge_contents a0 (done ++ [a]) w'.
Proof.
  intros Hlist Hcont Hty Hadd.
  destruct (edge_list_tail _ _ _ _ Hlist) as (e & He & Hnext & Hhead).
  destruct Hlist as [Herr Hlen Htail _ _].
  pose proof (lookup_lt_Some _ _ _ He) as Hlt.
  destruct (decide (edge_type e = HEAD)) as [Hh|Hh].
  - assert (length done = 0)%nat as Hk by (apply Hhead; assumption).
    destruct done; [|discriminate]. simpl in *.
    rewrite (add_edge_head _ _ _ _ _ _ _ He Hh) in Hadd. injection Hadd as <- <-.
    assert (tail = a0) as -> by lia. unfold edge_contents. simpl.
    intros [|i] a' Ha'; simpl in Ha'; [|rewrite lookup_nil in Ha'; discriminate].
    injection Ha' as <-. rewrite Nat.add_0_r. eexists. split.
    + simpl. apply list_lookup_insert_eq. assumption.
    + simpl. auto.
  - assert (length done <> 0)%nat as Hk by (intros Hz; apply Hh, Hhead, Hz).
    replace (Nat.max 1 (length done)) with (length done) in * by lia.
    destruct (hd true (calloc_plan w)) eqn:Hplan.
    + rewrite (add_edge_grow _ _ _ _ _ _ _ He Hh Herr Hplan) in Hadd.
      injection Hadd as <- <-. unfold edge_contents. simpl.
      intros i a' Ha'. destruct (decide (i < length done)%nat) as [Hi|Hi].
      * rewrite lookup_app_l in Ha' by assumption.
        destruct (Hcont _ _ Ha') as (ei & Hei & Hf).
        destruct (decide (a0 + i = tail)%nat) as [Heq|Hneq].
        -- rewrite Heq in Hei. rewrite He in Hei. injection Hei as <-.
           eexists. split.
           ++ rewrite list_lookup_insert_ne by lia. rewrite Heq.
              apply list_lookup_insert_eq. rewrite length_app. simpl. lia.
           ++ simpl. assumption.
        -- exists ei. split; [|assumption].
           rewrite !list_lookup_insert_ne by lia.
           rewrite lookup_app_l by lia. assumption.
      * pose proof (lookup_lt_Some _ _ _ Ha') as Hlt'.
        rewrite length_app in Hlt'. simpl in Hlt'.
        assert (i = length done) as -> by lia.
        rewrite lookup_app_r, Nat.sub_diag in Ha' by lia. injection Ha' as <-.
        eexists. split.
        -- replace (a0 + length done)%nat with (length (cells w)) by lia.
           apply list_lookup_insert_eq.
           rewrite length_insert, length_app. simpl. lia.
        -- simpl. auto.
    + rewrite (add_edge_refused _ _ _ _ _ _ _ He Hh Hplan) in Hadd. discriminate.
Qed.

Lemma add_edges_contents es :
  forall a0 done tail w tail' w',
    edge_list a0 (length done) tail w ->
    edge_contents a0 done w ->
    Forall (fun a => arg_type a <> HEAD) es ->
    add_edges es (Some tail) w = Done (Some tail') w' ->
    edge_contents a0 (done ++ es) w'.
Proof.
  induction es as [|a es IH]; intros a0 done tail w tail' w' Hlist Hcont Hes; simpl.
  - unfold ret. intros [= <- <-]. rewrite app_nil_r. assumption.
  - inversion Hes as [|? ? Ha Hes']; subst.
    unfold bind at 1.
    destruct (add_edge _ _ _ _ _ w) as [[t|] w1|] eqn:Hadd; try discriminate.
    intros Hrest.
    replace (done ++ a :: es) with ((done ++ [a]) ++ es)
      by (rewrite <- app_assoc; reflexivity).
    eapply IH; [| |eassumption|eassumption].
    + rewrite length_app. simpl. rewrite Nat.add_1_r.
      eapply add_edge_list; eassumption.
    + eapply add_edge_contents; eassumption.
Qed.

(** Edges are kept in the order of their insertion: after successful appends
    of the edges [es] (at least one, none with the HEAD tag as type) to a list
    from [initialize_edges], the walk along [next] from the head meets
    exactly [es], in order, with location, type, deviation and baseline as
    given. *)
Theorem edges_in_insertion_order w head w1 es tail w2 fuel :
  initialize_edges w = Done (Some head) w1 ->
  es <> [] ->
  Forall (fun a => arg_type a <> HEAD) es ->
  add_edges es (Some head) w1 = Done (Some tail) w2 ->
  (length es <= fuel)%nat ->
  edges_from fuel (cells w2) (Some head) = Some es.
Proof.
  intros Hinit Hne Hes Hadd Hfuel.
  pose proof (initialize_edges_list _ _ _ Hinit) as H1.
  assert (edge_contents (length (cells w)) [] w1) as Hc1
    by (intros i a Ha; rewrite lookup_nil in Ha; discriminate).
  pose proof (add_edges_contents _ _ [] _ _ _ _ H1 Hc1 Hes Hadd) as Hc2.
  pose proof (add_edges_list _ _ _ _ _ _ _ H1 Hes Hadd) as H2.
  destruct H1 as [_ _ Ht1 _ _]. destruct H2 as [_ _ _ Hrun2 _].
  simpl in *. assert (head = length (cells w)) as -> by lia.
  assert (0 < length es)%nat as Hpos by (destruct es; [contradiction | simpl; lia]).
  replace (Nat.max 1 (length es)) with (length es) in Hrun2 by lia.
  destruct (edge_walk_run _ _ _ Hrun2 (length es) 0%nat fuel)
    as (_ & l & Hl & Hlen & Hlook); try lia.
  rewrite Nat.add_0_r in Hl. rewrite Hl. f_equal.
  apply list_eq. intros j.
  destruct (decide (j < length es)%nat) as [Hj|Hj].
  - destruct (lookup_lt_is_Some_2 es j Hj) as [a Ha]. rewrite Ha.
    destruct (Hc2 _ _ Ha) as (e & He & H3 & H4 & H5 & H6).
    rewrite (Hlook j e Hj) by (rewrite Nat.add_0_r; assumption).
    f_equal. apply edge_args_eta; assumption.
  - rewrite !lookup_ge_None_2 by lia. reflexivity.
Qed.

Lemma edges_in_insertion_order_witness :
  exists w1 tail w2,
    initialize_edges fresh_world = Done (Some 0%nat) w1
    /\ add_edges two_edges (Some 0%nat) w1 = Done (Some tail) w2
    /\ edges_from 2 (cells w2) (Some 0%nat) = Some two_edges.
Proof.
  eexists. eexists. eexists.
  split; [reflexivity|]. split; [reflexivity|].
  eapply edges_in_insertion_order with (w := fresh_world) (tail := 1%nat).
  - reflexivity.
  - discriminate.
  - repeat constructor; discriminate.
  - reflexivity.
  - simpl. lia.
Defined.

(** An append that gets no memory leaves the list as it was: after
    successful appends, when [calloc] returns NULL for the next one,
    [add_edge] returns NULL, records ERR_MEM and leaves every node of the
    store unchanged. *)
Theorem add_edge_out_of_memory w head w1 es tail w2 l t s b :
  initialize_edges w = Done (Some head) w1 ->
  es <> [] ->
  Forall (fun a => arg_type a <> HEAD) es ->
  add_edges es (Some head) w1 = Done (Some tail) w2 ->
  hd true (calloc_plan w2) = false ->
  exists w3,
    add_edge (Some tail) l t s b w2 = Done None w3
    /\ errorcode w3 = ERR_MEM
    /\ cells w3 = cells w2.
Proof.
  intros Hinit Hne Hes Hadd Hplan.
  pose proof (initialize_edges_list _ _ _ Hinit) as H1.
  pose proof (add_edges_list _ _ _ _ _ _ _ H1 Hes Hadd) as H2.
  destruct (edge_list_tail _ _ _ _ H2) as (e & He & Hnext & Hhead).
  assert (edge_type e <> HEAD) as Hty.
  { intros Hh. apply Hhead in Hh. simpl in Hh. destruct es; [contradiction | discriminate]. }
  rewrite (add_edge_refused _ _ _ _ _ _ _ He Hty Hplan).
  eexists. split; [reflexivity|]. split; [reflexivity|].
  simpl. apply list_insert_id. rewrite He. f_equal.
  destruct e. simpl in *. rewrite Hnext. reflexivity.
Qed.

Lemma add_edge_out_of_memory_witness :
  exists w1 tail w2 w3,
    initialize_edges two_node_world = Done (Some 0%nat) w1
    /\ add_edges two_edges (Some 0%nat) w1 = Done (Some tail) w2
    /\ add_edge (Some tail) 560 0 1%R 5%R w2 = Done None w3
    /\ errorcode w3 = ERR_MEM.
Proof.
  eexists. eexists. eexists.
  destruct (add_edge_out_of_memory two_node_world 0%nat _ two_edges 1%nat _
              560 0 1%R 5%R eq_refl ltac:(discriminate)
              ltac:(repeat constructor; discriminate) eq_refl eq_refl)
    as (w3 & Hrun & Herr & _).
  exists w3. split; [reflexivity|]. split; [reflexivity|].
  split; [exact Hrun | exact Herr].
Defined.

(** ** Durations *)

Lemma Rleb_nonpos (d : R) : (d <= 0)%R -> Rleb d 0 = true.
Proof. intros H. unfold Rleb. destruct (Rle_dec d 0); [reflexivity | contradiction]. Qed.

Lemma Rleb_pos (d : R) : (0 < d)%R -> Rleb d 0 = false.
Proof. intros H. unfold Rleb. destruct (Rle_dec d 0); [lra | reflexivity]. Qed.

Lemma add_duration_head (w : world duration_struct) a n d :
  cells w !! a = Some n ->
  (duration_value n <= 0)%R ->
  add_duration (Some a) d w
  = Done (Some a) (set_cells (<[a := Duration d (duration_next n)]> (cells w)) w).
Proof.
  intros Ha Hd. unfold add_duration. unfold_layer. rewrite Ha.
  rewrite Rleb_nonpos by assumption. rewrite Ha. reflexivity.
Qed.

Lemma add_duration_grow (w : world duration_struct) a n d :
  cells w !! a = Some n ->
  (0 < duration_value n)%R ->
  errorcode w = 0 ->
  hd true (calloc_plan w) = true ->
  add_duration (Some a) d w
  = Done (Some (length (cells w)))
      (set_cells
         (<[length (cells w) := Duration d None]>
            (<[a := Duration (duration_value n) (Some (length (cells w)))]>
               (cells w ++ [zero_duration])))
         (set_calloc_plan (tl (calloc_plan w)) w)).
Proof.
  intros Ha Hd Herr Hplan. pose proof (lookup_lt_Some _ _ _ Ha) as Hlt.
  unfold add_duration.
  unfold bind at 1. unfold load. rewrite Ha. rewrite Rleb_pos by assumption.
  unfold bind at 1.
  rewrite calloc_node_granted by (assumption || (unfold sizeof_duration_struct; lia)).
  unfold_layer. simpl. rewrite lookup_app_l by lia. rewrite Ha. simpl.
  rewrite Herr. simpl.
  rewrite list_lookup_insert_ne by lia.
  rewrite lookup_app_r, Nat.sub_diag by lia. reflexivity.
Qed.

Lemma add_duration_refused (w : world duration_struct) a n d :
  cells w !! a = Some n ->
  (0 < duration_value n)%R ->
  hd true (calloc_plan w) = false ->
  exists w', add_duration (Some a) d w = Done None w'.
Proof.
  intros Ha Hd Hplan. unfold add_duration.
  unfold bind at 1. unfold load. rewrite Ha. rewrite Rleb_pos by assumption.
  unfold bind at 1. rewrite calloc_node_refused by assumption.
  unfold_layer. simpl. rewrite Ha. eexists. reflexivity.
Qed.

Lemma initialize_durations_list w head w1 :
  initialize_durations w = Done (Some head) w1 ->
  duration_list (length (cells w)) [] head w1.
Proof.
  unfold initialize_durations. unfold_layer.
  destruct (_ && hd true (calloc_plan w)) eqn:Hgrant; simpl; [|discriminate].
  destruct (errorcode w =? 0) eqn:He; simpl; [|discriminate].
  rewrite lookup_app_r, Nat.sub_diag by lia. simpl.
  intros [= <- <-]. apply Z.eqb_eq in He.
  split; simpl.
  - assumption.
  - rewrite length_insert, length_app. simpl. lia.
  - lia.
  - intros i Hi. assert (i = 0)%nat as -> by lia. rewrite Nat.add_0_r.
    eexists. split; [apply list_lookup_insert_eq; rewrite length_app; simpl; lia|].
    reflexivity.
  - intros _. eexists.
    split; [apply list_lookup_insert_eq; rewrite length_app; simpl; lia|].
    reflexivity.
  - intros i d Hd. rewrite lookup_nil in Hd. discriminate.
Qed.

Lemma add_duration_list a0 ds tail w d q w' :
  duration_list a0 ds tail w ->
  Forall (fun x => (0 < x)%R) ds ->
  add_duration (Some tail) d w = Done (Some q) w' ->
  duration_list a0 (ds ++ [d]) q w'.
Proof.
  intros [Herr Hlen Htail Hlinks Hhead Hvalues] Hpos Hadd.
  destruct (Hlinks (Nat.max 1 (length ds) - 1)%nat) as (n & Hn & Hnext); [lia|].
  replace (a0 + (Nat.max 1 (length ds) - 1))%nat with tail in Hn by lia.
  destruct (decide (S (Nat.max 1 (length ds) - 1) < Nat.max 1 (length ds))%nat)
    as [?|_]; [lia|].
  pose proof (lookup_lt_Some _ _ _ Hn) as Hlt.
  destruct (decide (ds = [])) as [->|Hne].
  - destruct (Hhead eq_refl) as (n' & Hn' & Hzero). simpl in *.
    assert (tail = a0) as -> by lia.
    rewrite Hn in Hn'. injection Hn' as <-.
    rewrite (add_duration_head _ _ _ _ Hn) in Hadd by lra.
    injection Hadd as <- <-.
    split; simpl.
    + assumption.
    + rewrite length_insert. lia.
    + lia.
    + intros i Hi. assert (i = 0)%nat as -> by lia. rewrite Nat.add_0_r.
      eexists. split; [apply list_lookup_insert_eq; lia|]. simpl.
      rewrite Hnext. first [reflexivity | case_decide; [lia | reflexivity]].
    + discriminate.
    + intros [|i] d' Hd'; simpl in Hd'; [|rewrite lookup_nil in Hd'; discriminate].
      injection Hd' as <-. rewrite Nat.add_0_r.
      eexists. split; [apply list_lookup_insert_eq; lia|]. reflexivity.
  - assert (0 < length ds)%nat as Hk by (destruct ds; [contradiction | simpl; lia]).
    replace (Nat.max 1 (length ds)) with (length ds) in * by lia.
    destruct (lookup_lt_is_Some_2 ds (length ds - 1)) as [d1 Hd1]; [lia|].
    destruct (Hvalues _ _ Hd1) as (n' & Hn' & Hv).
    replace (a0 + (length ds - 1))%nat with tail in Hn' by lia.
    rewrite Hn in Hn'. injection Hn' as <-.
    assert (0 < duration_value n)%R as Hposn.
    { rewrite Hv. rewrite Forall_forall in Hpos. apply Hpos.
      eapply list_elem_of_lookup_2. eassumption. }
    destruct (hd true (calloc_plan w)) eqn:Hplan.
    + rewrite (add_duration_grow _ _ _ _ Hn Hposn Herr Hplan) in Hadd.
      injection Hadd as <- <-.
      split; simpl.
      * assumption.
      * rewrite !length_insert, !length_app. simpl. lia.
      * rewrite length_app. simpl. lia.
      * rewrite length_app. simpl.
        replace (Nat.max 1 (length ds + 1)) with (S (length ds)) by lia.
        intros i Hi. destruct (decide (i = length ds)) as [->|Hi'].
        -- eexists. split.
           ++ replace (a0 + length ds)%nat with (length (cells w)) by lia.
              apply list_lookup_insert_eq.
              rewrite length_insert, length_app. simpl. lia.
           ++ simpl. case_decide; [lia | reflexivity].
        -- destruct (decide (a0 + i = tail)%nat) as [Heq|Hneq].
           ++ eexists. split.
              ** rewrite list_lookup_insert_ne by lia. rewrite Heq.
                 apply list_lookup_insert_eq. rewrite length_app. simpl. lia.
              ** simpl. case_decide; [f_equal; lia | lia].
           ++ destruct (Hlinks i) as (ni & Hni & Hnx); [lia|].
              exists ni. split.
              ** rewrite !list_lookup_insert_ne by lia.
                 rewrite lookup_app_l by lia. assumption.
              ** rewrite Hnx. repeat case_decide; (reflexivity || lia).
      * intros Hnil. destruct ds; discriminate.
      * intros i d' Hd'. destruct (decide (i < length ds)%nat) as [Hi|Hi].
        -- rewrite lookup_app_l in Hd' by assumption.
           destruct (Hvalues _ _ Hd') as (ni & Hni & Hvi).
           destruct (decide (a0 + i = tail)%nat) as [Heq|Hneq].
           ++ rewrite Heq in Hni. rewrite Hn in Hni. injection Hni as <-.
              eexists. split.
              ** rewrite list_lookup_insert_ne by lia. rewrite Heq.
                 apply list_lookup_insert_eq. rewrite length_app. simpl. lia.
              ** simpl. assumption.
           ++ exists ni. split; [|assumption].
              rewrite !list_lookup_insert_ne by lia.
              rewrite lookup_app_l by lia. assumption.
        -- pose proof (lookup_lt_Some _ _ _ Hd') as Hlt'.
           rewrite length_app in Hlt'. simpl in Hlt'.
           assert (i = length ds) as -> by lia.
           rewrite lookup_app_r, Nat.sub_diag in Hd' by lia. injection Hd' as <-.
           eexists. split.
           ++ replace (a0 + length ds)%nat with (length (cells w)) by lia.
              apply list_lookup_insert_eq.
              rewrite length_insert, length_app. simpl. lia.
           ++ reflexivity.
    + destruct (add_duration_refused _ _ _ d Hn Hposn Hplan) as (w'' & Hw'').
      rewrite Hw'' in Hadd. discriminate.
Qed.

Lemma add_durations_list ds :
  forall a0 done tail w tail' w',
    duration_list a0 done tail w ->
    Forall (fun x => (0 < x)%R) (done ++ ds) ->
    add_durations ds (Some tail) w = Done (Some tail') w' ->
    duration_list a0 (done ++ ds) tail' w'.
Proof.
  induction ds as [|d ds IH]; intros a0 done tail w tail' w' Hinv Hpos; simpl.
  - unfold ret. intros [= <- <-]. rewrite app_nil_r. assumption.
  - unfold bind at 1.
    destruct (add_duration _ _ w) as [[t|] w1|] eqn:Hadd; try discriminate.
    intros Hrest.
    replace (done ++ d :: ds) with ((done ++ [d]) ++ ds) in *
      by (rewrite <- app_assoc; reflexivity).
    eapply IH; [|eassumption|eassumption].
    eapply add_duration_list; [eassumption| |eassumption].
    rewrite <- app_assoc in Hpos. apply Forall_app in Hpos. tauto.
Qed.

Lemma duration_walk (h : list duration_struct) a0 n :
  (forall i, (i < n)%nat ->
     exists x, h !! (a0 + i)%nat = Some x
               /\ duration_next x = if decide (S i < n)%nat
                                    then Some (a0 + S i)%nat else None) ->
  forall k i fuel,
    (i + k = n)%nat -> (0 < k)%nat -> (k <= fuel)%nat ->
    free_durations fuel h (Some (a0 + i)%nat) = Some (seq (a0 + i) k)
    /\ exists l, durations_from fuel h (Some (a0 + i)%nat) = Some l
                 /\ length l = k
                 /\ forall j x, (j < k)%nat -> h !! (a0 + i + j)%nat = Some x ->
                                l !! j = Some (duration_value x).
Proof.
  intros Hrun. induction k as [|k IH]; intros i fuel Hik Hk Hfuel; [lia|].
  destruct fuel as [|fuel]; [lia|].
  destruct (Hrun i) as (x & Hx & Hnext); [lia|].
  simpl. rewrite Hx, Hnext.
  destruct (decide (S i < n)%nat) as [Hlt|Hge].
  - destruct (IH (S i) fuel) as (Hfree & l & Hl & Hlen & Hlook); try lia.
    rewrite Hfree, Hl.
    split; [do 2 f_equal; apply (f_equal (fun x => seq x k)); lia|].
    eexists. split; [reflexivity|]. split; [simpl; lia|].
    intros [|j] x' Hj Hx'.
    + rewrite Nat.add_0_r in Hx'. rewrite Hx in Hx'. injection Hx' as <-. reflexivity.
    + simpl. apply Hlook; [lia|]. rewrite <- Hx'. f_equal. lia.
  - assert (k = 0)%nat as -> by lia.
    destruct fuel; simpl.
    + split; [reflexivity|]. eexists. split; [reflexivity|]. split; [reflexivity|].
      intros j x' Hj Hx'. assert (j = 0)%nat as -> by lia.
      rewrite Nat.add_0_r in Hx'. rewrite Hx in Hx'. injection Hx' as <-. reflexivity.
    + split; [reflexivity|]. eexists. split; [reflexivity|]. split; [reflexivity|].
      intros j x' Hj Hx'. assert (j = 0)%nat as -> by lia.
      rewrite Nat.add_0_r in Hx'. rewrite Hx in Hx'. injection Hx' as <-. reflexivity.
Qed.

(** Positive durations are kept in the order of their insertion: after
    successful appends of the durations [ds] (at least one, all positive) to
    a list from [initialize_durations], the walk from the head meets exactly
    [ds], in order, and [free_durations] releases every node allocated for
    the list, each once. *)
Theorem durations_in_insertion_order w head w1 ds tail w2 fuel :
  initialize_durations w = Done (Some head) w1 ->
  ds <> [] ->
  Forall (fun x => (0 < x)%R) ds ->
  add_durations ds (Some head) w1 = Done (Some tail) w2 ->
  (length ds <= fuel)%nat ->
  durations_from fuel (cells w2) (Some head) = Some ds
  /\ free_durations fuel (cells w2) (Some head)
     = Some (seq (length (cells w)) (length (cells w2) - length (cells w))).
Proof.
  intros Hinit Hne Hpos Hadd Hfuel.
  pose proof (initialize_durations_list _ _ _ Hinit) as H1.
  pose proof (add_durations_list _ _ [] _ _ _ _ H1 Hpos Hadd) as H2.
  destruct H1 as [_ _ Ht1 _ _ _]. destruct H2 as [_ Hlen2 _ Hlinks _ Hvalues].
  simpl in *. assert (head = length (cells w)) as -> by lia.
  assert (0 < length ds)%nat as Hk by (destruct ds; [contradiction | simpl; lia]).
  replace (Nat.max 1 (length ds)) with (length ds) in * by lia.
  destruct (duration_walk _ _ _ Hlinks (length ds) 0%nat fuel)
    as (Hfree & l & Hl & Hlen & Hlook); try lia.
  rewrite Nat.add_0_r in Hl, Hfree. split.
  - rewrite Hl. f_equal. apply list_eq. intros j.
    destruct (decide (j < length ds)%nat) as [Hj|Hj].
    + destruct (lookup_lt_is_Some_2 ds j Hj) as [d Hd]. rewrite Hd.
      destruct (Hvalues _ _ Hd) as (x & Hx & Hv).
      rewrite (Hlook j x Hj) by (rewrite Nat.add_0_r; assumption).
      rewrite Hv. reflexivity.
    + rewrite !lookup_ge_None_2 by lia. reflexivity.
  - rewrite Hfree. do 2 f_equal. lia.
Qed.

Lemma add_durations_run :
  exists w2,
    add_durations three_durations (Some 0%nat)
      unfilled_durations
    = Done (Some 2%nat) w2.
Proof.
  eexists. unfold three_durations, add_durations, add_duration. unfold_layer. simpl.
  rewrite (Rleb_nonpos 0) by lra. simpl.
  rewrite (Rleb_pos 2) by lra. simpl.
  rewrite (Rleb_pos 5) by lra. simpl.
  reflexivity.
Qed.

Lemma durations_in_insertion_order_witness :
  exists w2,
    add_durations three_durations (Some 0%nat)
      unfilled_durations
    = Done (Some 2%nat) w2
    /\ durations_from 3 (cells w2) (Some 0%nat) = Some three_durations.
Proof.
  destruct add_durations_run as (w2 & Hrun).
  exists w2. split; [exact Hrun|].
  refine (proj1 (durations_in_insertion_order fresh_world 0%nat _ three_durations
                   2%nat w2 3%nat eq_refl _ _ Hrun _)).
  - discriminate.
  - unfold three_durations. repeat constructor; lra.
  - simpl. lia.
Defined.

(** A non-positive duration is taken for the unfilled head: whatever node it
    was written to, the next append overwrites it instead of growing the
    list. *)
Theorem add_duration_nonpositive_overwritten (w : world duration_struct) a n d q w1 d' :
  cells w !! a = Some n ->
  (d <= 0)%R ->
  add_duration (Some a) d w = Done (Some q) w1 ->
  exists x,
    cells w1 !! q = Some x
    /\ duration_value x = d
    /\ add_duration (Some q) d' w1
       = Done (Some q)
           (set_cells (<[q := Duration d' (duration_next x)]> (cells w1)) w1).
Proof.
  intros Ha Hd Hadd. pose proof (lookup_lt_Some _ _ _ Ha) as Hlt.
  assert (exists x, cells w1 !! q = Some x /\ duration_value x = d) as (x & Hx & Hv).
  { destruct (Rle_dec (duration_value n) 0) as [Hn|Hn].
    - rewrite (add_duration_head _ _ _ _ Ha Hn) in Hadd. injection Hadd as <- <-.
      eexists. split; [simpl; apply list_lookup_insert_eq; assumption|]. reflexivity.
    - assert (0 < duration_value n)%R as Hpos by lra.
      destruct (hd true (calloc_plan w)) eqn:Hplan.
      + destruct (Z.eq_dec (errorcode w) 0) as [He|He].
        * rewrite (add_duration_grow _ _ _ _ Ha Hpos He Hplan) in Hadd.
          injection Hadd as <- <-. eexists. split.
          -- simpl. apply list_lookup_insert_eq.
             rewrite length_insert, length_app. simpl. lia.
          -- reflexivity.
        * exfalso. unfold add_duration in Hadd.
          unfold bind at 1 in Hadd. unfold load in Hadd. rewrite Ha in Hadd.
          rewrite Rleb_pos in Hadd by assumption.
          unfold bind at 1 in Hadd.
          rewrite calloc_node_granted in Hadd
            by (assumption || (unfold sizeof_duration_struct; lia)).
          unfold_layer. simpl in Hadd. rewrite lookup_app_l in Hadd by lia.
          rewrite Ha in Hadd. simpl in Hadd.
          replace (errorcode w =? 0) with false in Hadd
            by (symmetry; apply Z.eqb_neq; assumption).
          discriminate.
      + destruct (add_duration_refused _ _ _ d Ha Hpos Hplan) as (w'' & Hw'').
        rewrite Hw'' in Hadd. discriminate. }
  exists x. split; [assumption|]. split; [assumption|].
  apply add_duration_head; [assumption | lra].
Qed.

Lemma add_duration_nonpositive_overwritten_witness :
  exists x,
    cells (set_cells (<[0%nat := Duration 0%R None]> (cells unfilled_durations))
             unfilled_durations) !! 0%nat = Some x
    /\ duration_value x = 0%R.
Proof.
  destruct (add_duration_nonpositive_overwritten
              unfilled_durations 0%nat (Duration 0%R None) 0%R 0%nat _ 7%R
              eq_refl ltac:(lra)
              (add_duration_head unfilled_durations 0%nat (Duration 0%R None) 0%R
                 eq_refl ltac:(simpl; lra)))
    as (x & Hx & Hv & _).
  exists x. split; [exact Hx | exact Hv].
Defined.

(** ** The settings file *)

Lemma daq_update_is_Some {V} b (value : option V) upd m :
  (b = true -> is_Some value) ->
  is_Some (file_daqsetup m) ->
  is_Some (daq_update b value upd m).
Proof.
  intros Hv [c Hc]. unfold daq_update. destruct b; [|eauto].
  destruct (Hv eq_refl) as [v ->]. rewrite Hc. eauto.
Qed.

Lemma apply_setting_complete l m :
  complete_line l -> is_Some (file_daqsetup m) -> is_Some (apply_setting l m).
Proof.
  intros (name & Hname & Hvalue) Hd. unfold apply_setting. rewrite Hname.
  cbn zeta.
  assert (forall key, key ∈ recognized_keys -> String.eqb name key = true ->
                      is_Some (line_value l)) as Hkey.
  { intros key Hin Heq. apply String.eqb_eq in Heq. subst key. auto. }
  do 5 (match goal with
        | |- context [daq_update ?b ?v ?u ?x] =>
            let H := fresh "Hstep" in
            destruct (daq_update_is_Some b v u x) as [?m H];
              [ intros Heq; apply Hkey in Heq;
                [ destruct Heq as [? ->]; simpl; eauto
                | unfold recognized_keys; repeat constructor ]
              | auto 10
              | rewrite H; apply daq_update_Some in H;
                destruct H as (_ & _ & ?Hd) ]
        end; cbn [mbind option_bind]).
  destruct (String.eqb name "mytimestamp") eqn:Hts.
  - apply Hkey in Hts; [|unfold recognized_keys; repeat constructor].
    destruct Hts as [v ->]. simpl. eauto.
  - apply daq_update_is_Some; [|auto 10].
    intros Heq. apply Hkey in Heq; [|unfold recognized_keys; repeat constructor].
    destruct Heq as [v ->]. simpl. eauto.
Qed.

Lemma apply_setting_incomplete l m :
  ~ complete_line l -> apply_setting l m = None.
Proof.
  intros Hnot. unfold apply_setting.
  destruct (line_name l) as [name|] eqn:Hname; [|reflexivity].
  destruct (line_value l) as [v|] eqn:Hvalue.
  { exfalso. apply Hnot. exists name. split; [assumption|].
    rewrite Hvalue. eauto. }
  destruct (decide (name ∈ recognized_keys)) as [Hin|Hout].
  2:{ exfalso. apply Hnot. exists name. split; [assumption | contradiction]. }
  unfold recognized_keys in Hin.
  repeat (apply elem_of_cons in Hin as [->|Hin]; [reflexivity|]).
  apply elem_of_nil in Hin. contradiction.
Qed.

Lemma read_settings_app i ls1 ls2 (w : world input_file) :
  read_settings i (ls1 ++ ls2) w
  = (read_settings i ls1 ;;; read_settings i ls2) w.
Proof.
  revert w. induction ls1 as [|l ls1 IH]; intros w; simpl.
  - reflexivity.
  - unfold bind. destruct (read_setting i l w) as [u w1|]; [|reflexivity].
    rewrite IH. reflexivity.
Qed.

(** With [daqsetup] allocated, the loop over the settings file runs to its
    end without a fault over lines that are complete (a name token and, for a
    recognized key, a value token); it rewrites the node of the file only and
    leaves its length, offset, handle, name and link as they were; and the
    timestamp of the node becomes that of the last [mytimestamp] line, or
    stays when there is none.  A line that is not complete ends the loop in a
    NULL dereference. *)
Theorem read_settings_timestamp (ls : list setting_line) :
  forall (w : world input_file) i m,
    cells w !! i = Some m ->
    is_Some (file_daqsetup m) ->
    Forall complete_line ls ->
    (exists m',
       read_settings (Some i) ls w
       = Done tt (set_cells (<[i := m']> (cells w)) w)
       /\ keeps m m'
       /\ is_Some (file_daqsetup m')
       /\ file_timestamp m' = settings_timestamp ls (file_timestamp m))
    /\ (forall l, ~ complete_line l ->
          read_settings (Some i) (ls ++ [l]) w = Fault NullDereference).
Proof.
  assert (forall ls (w : world input_file) i m,
            cells w !! i = Some m ->
            is_Some (file_daqsetup m) ->
            Forall complete_line ls ->
            exists m',
              read_settings (Some i) ls w
              = Done tt (set_cells (<[i := m']> (cells w)) w)
              /\ keeps m m'
              /\ is_Some (file_daqsetup m')
              /\ file_timestamp m' = settings_timestamp ls (file_timestamp m))
    as Hrun.
  { clear ls. induction ls as [|l ls IH]; intros w i m Hi Hd Hall.
    - exists m. simpl. unfold ret. rewrite list_insert_id by assumption.
      rewrite set_cells_id. split; [reflexivity|].
      split; [apply keeps_refl | auto].
    - pose proof (lookup_lt_Some _ _ _ Hi) as Hlt.
      apply Forall_cons in Hall as [Hl Hall].
      pose proof (read_setting_apply w i m m l Hi) as Hstep.
      rewrite list_insert_id, set_cells_id in Hstep by assumption.
      destruct (apply_setting_complete l m Hl Hd) as [m1 Hm1].
      rewrite Hm1 in Hstep.
      apply apply_setting_Some in Hm1 as (Hk1 & Ht1 & Hd1).
      destruct (IH (set_cells (<[i := m1]> (cells w)) w) i m1)
        as (m' & Hrest & Hk & Hd' & Ht).
      { simpl. apply list_lookup_insert_eq. assumption. }
      { auto. }
      { assumption. }
      exists m'. simpl. unfold bind at 1. rewrite Hstep, Hrest. simpl.
      rewrite list_insert_insert_eq.
      split; [reflexivity|]. split; [eapply keeps_trans; eassumption|].
      split; [assumption|]. rewrite Ht, Ht1. reflexivity. }
  intros w i m Hi Hd Hall.
  destruct (Hrun ls w i m Hi Hd Hall) as (m' & Hdone & Hk & Hd' & Ht).
  split; [exists m'; auto|].
  intros l Hl. rewrite read_settings_app. unfold bind at 1. rewrite Hdone.
  simpl. unfold bind at 1.
  rewrite (read_setting_apply w i m m' l Hi).
  rewrite (apply_setting_incomplete l m' Hl). reflexivity.
Qed.

Lemma read_settings_timestamp_witness :
  exists m',
    read_settings (Some 0%nat)
      [SettingLine (Some "mytimestamp") (Some (SettingValue 17%R 17));
       SettingLine (Some "comment") None]
      chimera_head_world
    = Done tt (set_cells (<[0%nat := m']> (cells chimera_head_world))
                 chimera_head_world)
    /\ file_timestamp m' = 17%R.
Proof.
  assert (Forall complete_line
            [SettingLine (Some "mytimestamp") (Some (SettingValue 17%R 17));
             SettingLine (Some "comment") None]) as Hall.
  { repeat constructor.
    - exists "mytimestamp". split; [reflexivity|]. intros _. simpl. eauto.
    - exists "comment". split; [reflexivity|]. unfold recognized_keys.
      intros Hin.
      repeat (apply elem_of_cons in Hin as [Heq|Hin]; [discriminate|]).
      apply elem_of_nil in Hin. contradiction. }
  destruct (read_settings_timestamp
              [SettingLine (Some "mytimestamp") (Some (SettingValue 17%R 17));
               SettingLine (Some "comment") None]
              chimera_head_world 0%nat
              (InputFile None "" 0%R 0 0 (Some zero_chimera) None)
              eq_refl (ex_intro _ zero_chimera eq_refl) Hall)
    as ((m' & Hrun & _ & _ & Ht) & _).
  exists m'. split; [exact Hrun | exact Ht].
Defined.

(** A line whose key is none of the seven recognized ones is ignored, with
    or without a value: the process state after it is the state before it,
    whatever the node. *)
Theorem read_setting_unknown_key (w : world input_file) (insert : ptr)
  (l : setting_line) (name : string) :
  line_name l = Some name ->
  name ∉ recognized_keys ->
  read_setting insert l w = Done tt w.
Proof.
  intros Hname Hnot.
  assert (forall k, k ∈ recognized_keys -> String.eqb name k = false) as Hk.
  { intros k Hin. apply String.eqb_neq. intros Heq. subst k. contradiction. }
  unfold read_setting. rewrite Hname.
  rewrite !Hk by (unfold recognized_keys; repeat constructor). reflexivity.
Qed.

Lemma read_setting_unknown_key_witness :
  ("SETUP_mVoffset" ∉ recognized_keys)
  /\ read_setting (Some 0%nat)
       (SettingLine (Some "SETUP_mVoffset") (Some (SettingValue 3%R 3)))
       chimera_head_world
     = Done tt chimera_head_world.
Proof.
  assert ("SETUP_mVoffset" ∉ recognized_keys) as H.
  { unfold recognized_keys. intros Hin.
    repeat (apply elem_of_cons in Hin as [Heq|Hin]; [discriminate|]).
    apply elem_of_nil in Hin. exact Hin. }
  split; [exact H|].
  exact (read_setting_unknown_key chimera_head_world (Some 0%nat)
           (SettingLine (Some "SETUP_mVoffset") (Some (SettingValue 3%R 3)))
           "SETUP_mVoffset" eq_refl H).
Defined.

(** ** Failed registrations *)

(** A data file that cannot be opened is not registered: in the generic
    format, with memory available, [add_input_file] returns NULL, records
    ERR_FILE and leaves no stream open. *)
Theorem add_input_file_missing_data_file (w : world input_file) (a : nat) n
  filename settingsname cfg :
  cells w !! a = Some n ->
  errorcode w = 0 ->
  hd true (calloc_plan w) = true ->
  files w filename = None ->
  exists w',
    add_input_file (Some a) filename settingsname BINARY (Some cfg) w
    = Done None w'
    /\ errorcode w' = ERR_FILE
    /\ streams w' = streams w.
Proof.
  intros Ha Herr Hplan Hfile. pose proof (lookup_lt_Some _ _ _ Ha) as Hlt.
  destruct w as [e plan c f s]. simpl in *. subst e.
  unfold add_input_file, add_input_file_insert, add_input_file_fill,
    add_input_file_settings, add_input_file_probe, sample_and_header_bytes.
  unfold_layer. unfold set_cells, set_streams, set_calloc_plan, set_errorcode.
  run_stores_goal.
  destruct (Rgtb (file_timestamp n) 0); run_stores_goal; rewrite ?Hplan;
    run_stores_goal.
  - eexists. split; [reflexivity|]. split; reflexivity.
  - eexists. split; [reflexivity|]. split; reflexivity.
Qed.

Lemma add_input_file_missing_data_file_witness :
  exists w',
    add_input_file (Some 0%nat) "run3.log" "" BINARY (Some plain_decoder)
      binary_head_world = Done None w'
    /\ errorcode w' = ERR_FILE.
Proof.
  destruct (add_input_file_missing_data_file binary_head_world 0%nat
              zero_input_file "run3.log" "" plain_decoder
              eq_refl eq_refl eq_refl eq_refl) as (w' & Hrun & Herr & _).
  exists w'. split; [exact Hrun | exact Herr].
Defined.

(** A format other than the instrument one and the generic one is refused
    after the data file has been opened: [add_input_file] returns NULL with
    ERR_DATA recorded, computes no length, and leaves the data file open. *)
Theorem add_input_file_unknown_format (w : world input_file) (a : nat) n
  filename settingsname datatype bincfg img :
  cells w !! a = Some n ->
  errorcode w = 0 ->
  hd true (calloc_plan w) = true ->
  datatype <> CHIMERA -> datatype <> BINARY ->
  files w filename = Some img ->
  exists w',
    add_input_file (Some a) filename settingsname datatype bincfg w
    = Done None w'
    /\ errorcode w' = ERR_DATA
    /\ streams w' = filename :: streams w.
Proof.
  intros Ha Herr Hplan Hc Hb Hfile. pose proof (lookup_lt_Some _ _ _ Ha) as Hlt.
  destruct w as [e plan c f s]. simpl in *. subst e.
  unfold add_input_file, add_input_file_insert, add_input_file_fill,
    add_input_file_settings, add_input_file_probe, sample_and_header_bytes.
  replace (datatype =? CHIMERA) with false by (symmetry; apply Z.eqb_neq; assumption).
  replace (datatype =? BINARY) with false by (symmetry; apply Z.eqb_neq; assumption).
  unfold_layer. unfold set_cells, set_streams, set_calloc_plan, set_errorcode.
  run_stores_goal.
  destruct (Rgtb (file_timestamp n) 0); run_stores_goal; rewrite ?Hplan;
    run_stores_goal.
  - eexists. split; [reflexivity|]. split; reflexivity.
  - eexists. split; [reflexivity|]. split; reflexivity.
Qed.

Lemma add_input_file_unknown_format_witness :
  exists w',
    add_input_file (Some 0%nat) "run1.log" "" 2 None binary_head_world
    = Done None w'
    /\ errorcode w' = ERR_DATA
    /\ streams w' = ["run1.log"].
Proof.
  destruct (add_input_file_unknown_format binary_head_world 0%nat
              zero_input_file "run1.log" "" 2 None (FileImage 1000 [])
              eq_refl eq_refl eq_refl ltac:(discriminate) ltac:(discriminate)
              eq_refl) as (w' & Hrun & Herr & Hs).
  exists w'. split; [exact Hrun|]. split; [exact Herr | exact Hs].
Defined.

(** ** The bins of the baseline histogram *)

Lemma fill_centers (f : nat -> R) (arr : list R) (n : nat) :
  (n <= length arr)%nat ->
  length (foldl (fun a i => <[i := f i]> a) arr (seq 0 n)) = length arr
  /\ (forall i, (i < n)%nat ->
        foldl (fun a i => <[i := f i]> a) arr (seq 0 n) !! i = Some (f i))
  /\ (forall i, (n <= i)%nat ->
        foldl (fun a i => <[i := f i]> a) arr (seq 0 n) !! i = arr !! i).
Proof.
  induction n as [|n IH]; intros Hn.
  - simpl. split; [reflexivity|]. split; [intros; lia | reflexivity].
  - destruct (IH ltac:(lia)) as (Hlen & Hin & Hout).
    rewrite seq_S, foldl_app. simpl.
    split; [rewrite length_insert; assumption|]. split.
    + intros i Hi. destruct (decide (i = n)) as [->|Hne].
      * apply list_lookup_insert_eq. lia.
      * rewrite list_lookup_insert_ne by lia. apply Hin. lia.
    + intros i Hi. rewrite list_lookup_insert_ne by lia. apply Hout. lia.
Qed.

(** With a rounding that is monotone and leaves 0 and [baseline_min] as
    they are (as the rounding to the nearest double does with a double), the
    baseline that [initialize_baseline] returns has [numbins] bins with an
    empty histogram; the center of bin [i] is [baseline_min + i * delta] as
    the machine rounds it; the first center is [baseline_min]; and for
    [baseline_min <= baseline_max] the width [delta] is not negative and the
    centers are in ascending order. *)
Theorem initialize_baseline_centers (pow : R -> R -> R) (round : R -> R) {N}
  (w w' : world N) (config : configuration) (b : baseline_struct) :
  (forall x y, (x <= y)%R -> (round x <= round y)%R) ->
  round 0%R = 0%R ->
  round (cfg_baseline_min config) = cfg_baseline_min config ->
  initialize_baseline pow round config w = Done (Some b) w' ->
  let numbins := baseline_numbins pow (cfg_readlength config) in
  base_numbins b = numbins
  /\ 0 <= numbins
  /\ length (base_current b) = Z.to_nat numbins
  /\ length (base_histogram b) = Z.to_nat numbins
  /\ (forall i, (i < Z.to_nat numbins)%nat ->
        base_histogram b !! i = Some 0%R
        /\ base_current b !! i
           = Some (round (cfg_baseline_min config
                          + round (INR i * base_delta b)))%R)
  /\ (0 < numbins -> base_current b !! 0%nat = Some (cfg_baseline_min config))
  /\ ((cfg_baseline_min config <= cfg_baseline_max config)%R -> 0 < numbins ->
      (0 <= base_delta b)%R
      /\ forall i j x y, (i <= j)%nat -> base_current b !! i = Some x ->
                         base_current b !! j = Some y -> (x <= y)%R).
Proof.
  intros Hmono Hzero Hmin Hinit numbins.
  unfold initialize_baseline in Hinit. fold numbins in Hinit.
  apply bind_Done in Hinit as (bl & w1 & _ & Hinit).
  apply bind_Done in Hinit as (e1 & ? & [= <- <-] & Hinit).
  destruct (negb (errorcode w1 =? 0)); [discriminate|].
  destruct bl as [_b|]; [|discriminate].
  apply bind_Done in Hinit as (hist & w2 & Hhist & Hinit).
  apply bind_Done in Hinit as (e2 & ? & [= <- <-] & Hinit).
  destruct (negb (errorcode w2 =? 0)); [discriminate|].
  apply bind_Done in Hinit as (cur & w3 & Hcur & Hinit).
  apply bind_Done in Hinit as (e3 & ? & [= <- <-] & Hinit).
  destruct (negb (errorcode w3 =? 0)); [discriminate|].
  destruct hist as [hb|]; [|discriminate].
  destruct cur as [cb|]; [|discriminate].
  apply calloc_and_check_some in Hhist as (Hnn & -> & _).
  apply calloc_and_check_some in Hcur as (_ & -> & _).
  injection Hinit as <- <-. cbn [base_numbins base_delta base_current base_histogram].
  unfold zeros. cbn [block_count].
  set (delta := round (round (cfg_baseline_max config - cfg_baseline_min config)
                       / IZR numbins)%R).
  set (f := fun i : nat =>
              round (cfg_baseline_min config + round (INR i * delta))%R).
  set (centers := foldl _ _ _).
  assert (length centers = Z.to_nat numbins
          /\ forall i, (i < Z.to_nat numbins)%nat -> centers !! i = Some (f i))
    as (Hlen & Hin).
  { destruct (fill_centers f (replicate (Z.to_nat numbins) 0%R)
                (Z.to_nat numbins)) as (Hlen & Hin & _);
      [rewrite length_replicate; lia|].
    rewrite length_replicate in Hlen. split; [exact Hlen | exact Hin]. }
  split; [reflexivity|]. split; [assumption|].
  split; [assumption|]. split; [apply length_replicate|]. split; [|split].
  - intros i Hi. split; [|apply Hin; assumption].
    apply lookup_replicate_2. assumption.
  - intros Hpos. rewrite Hin by lia. unfold f. simpl.
    rewrite Rmult_0_l, Hzero, Rplus_0_r, Hmin. reflexivity.
  - intros Hrange Hpos.
    assert (0 < IZR numbins)%R as Hn by (apply IZR_lt; assumption).
    assert (0 <= delta)%R as Hdelta.
    { unfold delta. rewrite <- Hzero at 1. apply Hmono.
      assert (0 <= round (cfg_baseline_max config - cfg_baseline_min config))%R
        as Hr by (rewrite <- Hzero at 1; apply Hmono; lra).
      unfold Rdiv. apply Rmult_le_pos; [assumption|].
      left. apply Rinv_0_lt_compat. assumption. }
    split; [assumption|].
    intros i j x y Hij Hx Hy.
    pose proof (lookup_lt_Some _ _ _ Hy) as Hj. rewrite Hlen in Hj.
    rewrite Hin in Hx by lia. rewrite Hin in Hy by lia.
    injection Hx as <-. injection Hy as <-. unfold f.
    apply Hmono. apply Rplus_le_compat_l. apply Hmono.
    apply Rmult_le_compat_r; [assumption|]. apply le_INR. assumption.
Qed.

Lemma initialize_baseline_centers_witness :
  exists b,
    initialize_baseline (fun _ _ => 2%R) (fun x => x)
      (Configuration 8 0 0 0%R 1%R BINARY) (@fresh_world unit)
    = Done (Some b) fresh_world
    /\ base_numbins b = 4
    /\ base_current b !! 0%nat = Some 0%R.
Proof.
  assert (baseline_numbins (fun _ _ => 2%R) 8 = 4) as Hbins.
  { unfold baseline_numbins. replace (2 * 2)%R with (IZR 4) by (simpl; lra).
    apply double_to_int_IZR. }
  assert (exists b,
            initialize_baseline (fun _ _ => 2%R) (fun x => x)
              (Configuration 8 0 0 0%R 1%R BINARY) (@fresh_world unit)
            = Done (Some b) fresh_world) as (b & Hrun).
  { unfold initialize_baseline. cbn [cfg_readlength]. rewrite Hbins.
    eexists. reflexivity. }
  exists b. split; [exact Hrun|].
  destruct (initialize_baseline_centers (fun _ _ => 2%R) (fun x => x) _ _ _ b
              (fun x y H => H) eq_refl eq_refl Hrun)
    as (Hn & _ & _ & _ & _ & Hfirst & _).
  split; [rewrite Hn; exact Hbins|].
  apply Hfirst. cbn [cfg_readlength]. rewrite Hbins. lia.
Defined.

(** ** The recorded error *)

Lemma calloc_and_check_keeps_error {N} (num size : Z) (w : world N) :
  errorcode w <> 0 ->
  exists r w', calloc_and_check num size w = Done r w' /\ errorcode w' <> 0.
Proof.
  intros He. unfold_layer.
  destruct ((0 <=? num) && (0 <=? size) && (num * size <? 2 ^ 64)
            && hd true (calloc_plan w)).
  - eexists _, _. split; [reflexivity|]. exact He.
  - eexists _, _. split; [reflexivity|]. simpl. discriminate.
Qed.

Lemma calloc_node_keeps_error {N} (size : Z) (zero : N) (w : world N) :
  errorcode w <> 0 ->
  exists r w', calloc_node size zero w = Done r w' /\ errorcode w' <> 0.
Proof.
  intros He. unfold calloc_node, bind at 1.
  destruct (calloc_and_check_keeps_error 1 size w He) as ([b|] & w1 & -> & He1).
  - eexists _, _. split; [reflexivity|]. exact He1.
  - eexists _, _. split; [reflexivity|]. exact He1.
Qed.

Lemma refuse_on_error {N A B} (m : M N A) (k : A -> M N (option B))
  (w : world N) :
  (exists r w', m w = Done r w' /\ errorcode w' <> 0) ->
  exists w',
    (a <- m ;; e <- get_errorcode ;; if negb (e =? 0) then ret None else k a) w
    = Done None w'
    /\ errorcode w' <> 0.
Proof.
  intros (r & w1 & Hm & He). exists w1. unfold bind, get_errorcode, ret.
  rewrite Hm. apply Z.eqb_neq in He as Heq. rewrite Heq. simpl.
  split; [reflexivity | exact He].
Qed.

(** [errorcode] is never cleared: once an error is recorded, the
    initialisers of the edge list, the duration list, the input-file list,
    the signal and the baseline return NULL, whatever memory is available,
    and the error stays recorded. *)
Theorem initialisers_refuse_after_error (pow : R -> R -> R) (round : R -> R)
  (we : world edge) (wd : world duration_struct) (wf : world input_file)
  (config : configuration) (filterpadding datatype : Z)
  (bincfg : option binary_decoder) :
  errorcode we <> 0 -> errorcode wd <> 0 -> errorcode wf <> 0 ->
  (exists w', initialize_edges we = Done None w' /\ errorcode w' <> 0)
  /\ (exists w', initialize_durations wd = Done None w' /\ errorcode w' <> 0)
  /\ (exists w', initialize_input_files datatype wf = Done None w'
                 /\ errorcode w' <> 0)
  /\ (exists w', initialize_signal config filterpadding bincfg wf = Done None w'
                 /\ errorcode w' <> 0)
  /\ (exists w', initialize_baseline pow round config wf = Done None w'
                 /\ errorcode w' <> 0).
Proof.
  intros Hwe Hwd Hwf.
  split; [|split; [|split; [|split]]].
  - apply refuse_on_error, calloc_node_keeps_error, Hwe.
  - apply refuse_on_error, calloc_node_keeps_error, Hwd.
  - apply refuse_on_error, calloc_node_keeps_error, Hwf.
  - apply refuse_on_error, calloc_and_check_keeps_error, Hwf.
  - apply refuse_on_error, calloc_and_check_keeps_error, Hwf.
Qed.

Lemma initialisers_refuse_after_error_witness :
  (exists w', initialize_edges (World ERR_FILE [] [] (fun _ => None) [])
              = Done None w' /\ errorcode w' <> 0)
  /\ (exists w', initialize_signal (Configuration 8 0 0 0%R 1%R CHIMERA) 0 None
                   (World ERR_FILE [] ([] : list input_file) (fun _ => None) [])
                 = Done None w' /\ errorcode w' <> 0).
Proof.
  destruct (initialisers_refuse_after_error (fun _ _ => 2%R) (fun x => x)
              (World ERR_FILE [] [] (fun _ => None) [])
              (World ERR_FILE [] [] (fun _ => None) [])
              (World ERR_FILE [] [] (fun _ => None) [])
              (Configuration 8 0 0 0%R 1%R CHIMERA) 0 CHIMERA None)
    as (He & _ & _ & Hs & _); try (simpl; discriminate).
  split; [exact He | exact Hs].
Defined.

(** A [datatype] other than CHIMERA and BINARY never yields a signal:
    [initialize_signal] returns NULL with an error recorded, and from a
    state without error that error is ERR_DATA unless an allocation failed
    first (ERR_MEM). *)
Theorem initialize_signal_unsupported_datatype {N} (w : world N)
  (config : configuration) (filterpadding : Z)
  (bincfg : option binary_decoder) :
  cfg_datatype config <> CHIMERA -> cfg_datatype config <> BINARY ->
  exists w',
    initialize_signal config filterpadding bincfg w = Done None w'
    /\ errorcode w' <> 0
    /\ (errorcode w = 0 -> errorcode w' = ERR_DATA \/ errorcode w' = ERR_MEM).
Proof.
  intros Hc Hb. apply Z.eqb_neq in Hc, Hb.
  unfold initialize_signal. rewrite Hc, Hb. unfold_layer.
  destruct w as [e plan c fs ss]. simpl.
  destruct (hd true plan); simpl.
  - destruct (e =? 0) eqn:He; simpl.
    + destruct (_ && hd true (tl plan)); simpl.
      * rewrite He. simpl. eexists. split; [reflexivity|].
        simpl. split; [discriminate | intros _; left; reflexivity].
      * eexists. split; [reflexivity|].
        simpl. split; [discriminate | intros _; right; reflexivity].
    + eexists. split; [reflexivity|]. simpl. apply Z.eqb_neq in He.
      split; [exact He | intros H0; contradiction].
  - eexists. split; [reflexivity|].
    simpl. split; [discriminate | intros _; right; reflexivity].
Qed.

Lemma initialize_signal_unsupported_datatype_witness :
  exists w',
    initialize_signal (Configuration 8 0 0 0%R 1%R 7) 0 None (@fresh_world unit)
    = Done None w'
    /\ errorcode w' <> 0
    /\ (errorcode (@fresh_world unit) = 0 ->
        errorcode w' = ERR_DATA \/ errorcode w' = ERR_MEM).
Proof.
  apply (initialize_signal_unsupported_datatype (@fresh_world unit)
           (Configuration 8 0 0 0%R 1%R 7) 0 None); simpl; discriminate.
Defined.

(** ** Open files *)

(** A successful registration leaves no file open: the settings file and the
    data file are closed again, the open streams are those from before the
    call, and the [data_file] of the returned node is NULL. *)
Theorem add_input_file_closes_files (w w' : world input_file) (a : nat)
  (filename settingsname : string) (datatype : Z)
  (bincfg : option binary_decoder) (n : input_file) (q : nat) :
  cells w !! a = Some n ->
  add_input_file (Some a) filename settingsname datatype bincfg w
  = Done (Some q) w' ->
  streams w' = streams w
  /\ files w' = files w
  /\ exists m, cells w' !! q = Some m /\ file_data_file m = None.
Proof.
  intros Ha Hadd. pose proof (lookup_lt_Some _ _ _ Ha) as Hla.
  destruct (add_input_file_Done _ _ _ _ _ _ _ _ _ Ha Hadd)
    as (img & ssb & hdr & m & plan' & _ & _ & _ & _ & _ & Hd & _ & Hq).
  destruct (Rgtb (file_timestamp n) 0).
  - destruct Hq as (-> & _ & ->). simpl.
    split; [reflexivity|]. split; [reflexivity|]. exists m.
    split; [|assumption].
    rewrite lookup_app_r by (rewrite length_insert; lia).
    rewrite length_insert, Nat.sub_diag. reflexivity.
  - destruct Hq as (-> & _ & ->). unfold set_cells. simpl.
    split; [reflexivity|]. split; [reflexivity|]. exists m.
    split; [|assumption].
    apply list_lookup_insert_eq. assumption.
Qed.

Lemma add_input_file_closes_files_witness :
  exists w',
    add_input_file (Some 0%nat) "run1.log" "" BINARY (Some plain_decoder)
      binary_head_world = Done (Some 0%nat) w'
    /\ streams w' = streams binary_head_world.
Proof.
  eexists. split; [exact (proj2 add_input_file_run1)|].
  exact (proj1 (add_input_file_closes_files binary_head_world _ 0%nat "run1.log"
                  "" BINARY (Some plain_decoder) zero_input_file 0%nat
                  eq_refl (proj2 add_input_file_run1))).
Defined.
